(** * YoloLayer: decode, target assignment and loss of the rotated-box head

    A shallow embedding of [src/models/yolo_layer.py].  Tensors of
    [torch.float] are nested lists of IEEE-754 binary32 values (the
    axiom-free [spec_float] of the Standard Library); the elementary
    functions [exp], [log], [sigmoid] and the rotated-polygon IoU kernel
    are parameters.  Python exceptions are an explicit error result, and
    the attributes of the layer object are threaded as a state. *)

From Stdlib Require Import ZArith Lia Floats.SpecFloat.
From stdpp Require Import base option list strings gmap.

(** ** Scalars: binary32 *)

Module F32.
Local Open Scope Z_scope.

Definition float := spec_float.
Definition prec : Z := 24.
Definition emax : Z := 128.

Definition add : float -> float -> float := SFadd prec emax.
Definition sub : float -> float -> float := SFsub prec emax.
Definition mul : float -> float -> float := SFmul prec emax.
Definition div : float -> float -> float := SFdiv prec emax.
Definition neg : float -> float := SFopp.

Definition leb : float -> float -> bool := SFleb.
Definition ltb : float -> float -> bool := SFltb.
(** [a > b] *)
Definition gtb (a b : float) : bool := SFltb b a.

Definition of_Z (z : Z) : float := binary_normalize prec emax z 0 false.
Definition of_nat (n : nat) : float := of_Z (Z.of_nat n).

Definition zero : float := S754_zero false.
Definition one : float := of_Z 1.
Definition five : float := of_Z 5.
(** [0.5] *)
Definition half : float := S754_finite false 8388608 (-24).
(** [1e-16] rounded to binary32 *)
Definition eps16 : float := S754_finite false 15111573 (-77).

Definition is_nan (f : float) : bool :=
  match f with S754_nan => true | _ => false end.

Definition is_zero (f : float) : bool :=
  match f with S754_zero _ => true | _ => false end.

(** A float that is neither NaN nor negative (sign bit clear). *)
Definition nonneg (f : float) : bool :=
  match f with
  | S754_zero _ => true
  | S754_finite s _ _ => negb s
  | S754_infinity s => negb s
  | S754_nan => false
  end.

Definition is_finite (f : float) : bool :=
  match f with
  | S754_zero _ | S754_finite _ _ _ => true
  | _ => false
  end.

Definition int64_min : Z := - 2 ^ 63.

(** [.long()]: conversion to a 64-bit integer, truncating toward zero.
    NaN, infinities and values outside the int64 range give the
    "integer indefinite" value [-2^63] of the conversion instruction. *)
Definition to_long (f : float) : Z :=
  match f with
  | S754_zero _ => 0
  | S754_finite s m e =>
      let z := cond_Zopp s (Z.shiftl (Zpos m) e) in
      if (int64_min <=? z) && (z <? 2 ^ 63) then z else int64_min
  | _ => int64_min
  end.

(** The mathematical floor of a finite float, as an integer. *)
Definition floorZ (f : float) : Z :=
  match f with
  | S754_finite s m e => Z.shiftl (cond_Zopp s (Zpos m)) e
  | _ => 0
  end.

(** [.floor()]: the largest integral float not above [f]. *)
Definition floor (f : float) : float :=
  match f with
  | S754_finite s m e => if 0 <=? e then f else of_Z (floorZ f)
  | _ => f
  end.
End F32.

Abbreviation float := F32.float.

#[global] Instance float_inhabited : Inhabited float := populate F32.zero.

(** ** Python exceptions *)

Inductive exn : Type :=
  | RuntimeError
  | IndexError
  | ValueError
  | AttributeError
  | ZeroDivisionError.

Inductive result (A : Type) : Type :=
  | Ok (a : A)
  | Raise (e : exn).
Arguments Ok {A} a.
Arguments Raise {A} e.

Definition is_Ok {A} (r : result A) : bool :=
  match r with Ok _ => true | Raise _ => false end.

#[global] Instance result_ret : MRet result := fun _ a => Ok a.
#[global] Instance result_bind : MBind result := fun _ _ f m =>
  match m with Ok a => f a | Raise e => Raise e end.
#[global] Instance result_fmap : FMap result := fun _ _ f m =>
  match m with Ok a => Ok (f a) | Raise e => Raise e end.

(** [[f(x) for x in l]] where [f] may raise: the first exception wins. *)
Fixpoint traverse {A B} (f : A -> result B) (l : list A) : result (list B) :=
  match l with
  | [] => Ok []
  | x :: l' => y ← f x; ys ← traverse f l'; Ok (y :: ys)
  end.

(** ** Nested-list tensors *)

Abbreviation T2 A := (list (list A)).
Abbreviation T3 A := (list (list (list A))).
Abbreviation T4 A := (list (list (list (list A)))).

Abbreviation idx4 := (nat * nat * nat * nat)%type.

(** [torch.full(size=(n1,n2,n3,n4), fill_value=v)] *)
Definition full4 {A} (n1 n2 n3 n4 : nat) (v : A) : T4 A :=
  replicate n1 (replicate n2 (replicate n3 (replicate n4 v))).

Definition get4 {A} (t : T4 A) (ix : idx4) : option A :=
  let '(b, a, j, i) := ix in
  r1 ← t !! b; r2 ← r1 !! a; r3 ← r2 !! j; r3 !! i.

(** In-place update of the element at an index already checked against
    the shape; [t[b, a, j, i] = v] is the constant update. *)
Definition alter4 {A} (f : A -> A) (t : T4 A) (ix : idx4) : T4 A :=
  let '(b, a, j, i) := ix in
  alter (alter (alter (alter f i) j) a) b t.

Definition set4 {A} (t : T4 A) (ix : idx4) (v : A) : T4 A :=
  alter4 (fun _ => v) t ix.

Definition map4 {A B} (f : A -> B) (t : T4 A) : T4 B :=
  fmap (M := list) (fmap (M := list) (fmap (M := list) (fmap (M := list) f))) t.

Arguments full4 : simpl never.
Arguments get4 : simpl never.
Arguments alter4 : simpl never.
Arguments set4 : simpl never.
Arguments map4 : simpl never.

(** [range(n)] mapped through [f] *)
Definition tab {A} (n : nat) (f : nat -> A) : list A := f <$> seq 0 n.

(** Shape of a rectangular 4-D tensor. *)
Definition shape4 {A} (n1 n2 n3 n4 : nat) (t : T4 A) : Prop :=
  length t = n1 ∧
  Forall (fun t1 => length t1 = n2 ∧
    Forall (fun t2 => length t2 = n3 ∧
      Forall (fun t3 => length t3 = n4) t2) t1) t.

(** Row-major flattening, [t.view(-1)]. *)
Definition flatten4 {A} (t : T4 A) : list A := mjoin (mjoin (mjoin t)).

(** Boolean-mask selection [t[mask]] for a mask of the same shape. *)
Definition masked_select {A} (t : T4 A) (mask : T4 bool) : list A :=
  fst <$> filter (fun p => snd p = true) (zip (flatten4 t) (flatten4 mask)).

(** The number of elements a boolean mask selects. *)
Definition count_true (l : list bool) : nat :=
  length (filter (fun b : bool => b = true) l).

(** One dimension of a broadcasting binary operation: a dimension of
    size one is stretched to the other operand's size. *)
Definition bzip {A B C} (f : A -> B -> C) (xs : list A) (ys : list B) : list C :=
  match ys with
  | [y] => (fun x => f x y) <$> xs
  | _ => match xs with
         | [x] => f x <$> ys
         | _ => zip_with f xs ys
         end
  end.

(** The index at which a dimension of size [m] is read when broadcast. *)
Definition bcast_index (m k : nat) : nat := if decide (m = 1) then 0 else k.

Definition bzip4 {A B C} (f : A -> B -> C) : T4 A -> T4 B -> T4 C :=
  bzip (bzip (bzip (bzip f))).

(** Python index normalisation for a dimension of size [n]: negative
    indices count from the end, anything else out of range raises. *)
Definition norm_index (n : nat) (z : Z) : result nat :=
  if ((0 <=? z) && (z <? Z.of_nat n))%Z then Ok (Z.to_nat z)
  else if ((- Z.of_nat n <=? z) && (z <? 0))%Z then Ok (Z.to_nat (z + Z.of_nat n))
  else Raise IndexError.

(** The value a sequence of element writes leaves at [ix], if any write
    addressed it: the last one. *)
Fixpoint last_write {A} (ws : list (idx4 * A)) (ix : idx4) : option A :=
  match ws with
  | [] => None
  | (ix', v) :: ws' =>
      match last_write ws' ix with
      | Some v' => Some v'
      | None => if decide (ix' = ix) then Some v else None
      end
  end.

(** ** 2-D tensors (list of rows) *)

(** [m[:, lo:hi]] *)
Definition slice_cols {A} (lo hi : nat) (m : T2 A) : T2 A :=
  (fun r => take (hi - lo) (drop lo r)) <$> m.

(** [m[:, lo:]] *)
Definition cols_from {A} (lo : nat) (m : T2 A) : T2 A := drop lo <$> m.

Definition ncols {A} (m : T2 A) : nat :=
  match m with [] => 0 | r :: _ => length r end.

(** [m.t()] of a tensor with at least one row *)
Definition transpose {A} (d : A) (m : T2 A) : T2 A :=
  tab (ncols m) (fun k => (fun r => default d (r !! k)) <$> m).

(** [a, b = t]: iterating a tensor yields its rows; exactly two are needed. *)
Definition unpack2 {A} (l : list A) : result (A * A) :=
  match l with
  | [a; b] => Ok (a, b)
  | _ => Raise ValueError
  end.

(** ** Order keys

    A key for non-NaN floats whose lexicographic order is the order of
    the values: class and sign, then exponent, then mantissa. *)
Definition float_key (x : float) : Z * Z * Z :=
  match x with
  | S754_zero _ => (0, 0, 0)%Z
  | S754_finite false m e => (1, e, Zpos m)%Z
  | S754_finite true m e => (-1, - e, Zneg m)%Z
  | S754_infinity false => (2, 0, 0)%Z
  | S754_infinity true => (-2, 0, 0)%Z
  | S754_nan => (3, 0, 0)%Z
  end.

Definition lt3 (p q : Z * Z * Z) : Prop :=
  let '(c1, e1, m1) := p in
  let '(c2, e2, m2) := q in
  (c1 < c2 ∨ (c1 = c2 ∧ (e1 < e2 ∨ (e1 = e2 ∧ m1 < m2))))%Z.

(** ** torch.max(dim): index of the maximum

    The reduction starts from the first element and moves to element [i]
    when [not (v_i <= best)]; a NaN ends the scan.  Without NaN this is
    the first index of the maximum. *)
Fixpoint argmax_from (best : float) (bi i : nat) (l : list float) : nat :=
  match l with
  | [] => bi
  | v :: l' =>
      if negb (F32.leb v best)
      then (if F32.is_nan v then i else argmax_from v i (S i) l')
      else argmax_from best bi (S i) l'
  end.

Definition argmax (l : list float) : nat :=
  match l with
  | [] => 0
  | v :: _ => argmax_from v 0 0 l
  end.

(** [k] is the first index at which [l] takes its maximum. *)
Definition first_max (l : list float) (k : nat) : Prop :=
  ∃ vk, l !! k = Some vk ∧
    ∀ j v, l !! j = Some v ->
      F32.leb v vk = true ∧ (j < k -> F32.ltb v vk = true).

(** Positions where a boolean mask is set, in increasing order. *)
Definition mask_indices (mask : list bool) : list nat :=
  fst <$> filter (fun p => snd p = true) (imap (fun a m => (a, m)) mask).

(** ** The layer object *)

(** An anchor [(a_w, a_h, im, re)]. *)
Definition anchor : Type := float * float * float * float.

Definition anchor_width (a : anchor) : float := a.1.1.1.
Definition anchor_height (a : anchor) : float := a.1.1.2.

Record YoloLayer := {
  num_classes : nat;
  anchors : list anchor;
  num_anchors : nat;
  stride : float;
  scale_x_y : float;
  ignore_thresh : float;
  coord_scale : float;
  noobj_scale : float;
  obj_scale : float;
  class_scale : float;
  seen : Z;
  grid_size : nat;
  img_size : Z;
  metrics : gmap string float;
  (* attributes that exist only after [compute_grid_offsets] has run *)
  grid_x : option (T4 float);
  grid_y : option (T4 float);
  scaled_anchors : option (list anchor);
  anchor_w : option (T4 float);
  anchor_h : option (T4 float)
}.

(** [YoloLayer.__init__] *)
Definition init (num_classes : nat) (anchors : list anchor)
    (stride scale_x_y ignore_thresh : float) : YoloLayer :=
  {| num_classes := num_classes;
     anchors := anchors;
     num_anchors := length anchors;
     stride := stride;
     scale_x_y := scale_x_y;
     ignore_thresh := ignore_thresh;
     coord_scale := F32.one;
     noobj_scale := F32.one;
     obj_scale := F32.five;
     class_scale := F32.one;
     seen := 0%Z;
     grid_size := 0;
     img_size := 0%Z;
     metrics := ∅;
     grid_x := None; grid_y := None; scaled_anchors := None;
     anchor_w := None; anchor_h := None |}.

(** Attribute assignment [self.f = v], one setter per attribute the
    methods assign. *)
Definition set_stride v (self : YoloLayer) : YoloLayer :=
  {| num_classes := num_classes self;
     anchors := anchors self;
     num_anchors := num_anchors self;
     stride := v;
     scale_x_y := scale_x_y self;
     ignore_thresh := ignore_thresh self;
     coord_scale := coord_scale self;
     noobj_scale := noobj_scale self;
     obj_scale := obj_scale self;
     class_scale := class_scale self;
     seen := seen self;
     grid_size := grid_size self;
     img_size := img_size self;
     metrics := metrics self;
     grid_x := grid_x self;
     grid_y := grid_y self;
     scaled_anchors := scaled_anchors self;
     anchor_w := anchor_w self;
     anchor_h := anchor_h self |}.

Definition set_grid_size v (self : YoloLayer) : YoloLayer :=
  {| num_classes := num_classes self;
     anchors := anchors self;
     num_anchors := num_anchors self;
     stride := stride self;
     scale_x_y := scale_x_y self;
     ignore_thresh := ignore_thresh self;
     coord_scale := coord_scale self;
     noobj_scale := noobj_scale self;
     obj_scale := obj_scale self;
     class_scale := class_scale self;
     seen := seen self;
     grid_size := v;
     img_size := img_size self;
     metrics := metrics self;
     grid_x := grid_x self;
     grid_y := grid_y self;
     scaled_anchors := scaled_anchors self;
     anchor_w := anchor_w self;
     anchor_h := anchor_h self |}.

Definition set_img_size v (self : YoloLayer) : YoloLayer :=
  {| num_classes := num_classes self;
     anchors := anchors self;
     num_anchors := num_anchors self;
     stride := stride self;
     scale_x_y := scale_x_y self;
     ignore_thresh := ignore_thresh self;
     coord_scale := coord_scale self;
     noobj_scale := noobj_scale self;
     obj_scale := obj_scale self;
     class_scale := class_scale self;
     seen := seen self;
     grid_size := grid_size self;
     img_size := v;
     metrics := metrics self;
     grid_x := grid_x self;
     grid_y := grid_y self;
     scaled_anchors := scaled_anchors self;
     anchor_w := anchor_w self;
     anchor_h := anchor_h self |}.

Definition set_metrics v (self : YoloLayer) : YoloLayer :=
  {| num_classes := num_classes self;
     anchors := anchors self;
     num_anchors := num_anchors self;
     stride := stride self;
     scale_x_y := scale_x_y self;
     ignore_thresh := ignore_thresh self;
     coord_scale := coord_scale self;
     noobj_scale := noobj_scale self;
     obj_scale := obj_scale self;
     class_scale := class_scale self;
     seen := seen self;
     grid_size := grid_size self;
     img_size := img_size self;
     metrics := v;
     grid_x := grid_x self;
     grid_y := grid_y self;
     scaled_anchors := scaled_anchors self;
     anchor_w := anchor_w self;
     anchor_h := anchor_h self |}.

Definition set_grid_x v (self : YoloLayer) : YoloLayer :=
  {| num_classes := num_classes self;
     anchors := anchors self;
     num_anchors := num_anchors self;
     stride := stride self;
     scale_x_y := scale_x_y self;
     ignore_thresh := ignore_thresh self;
     coord_scale := coord_scale self;
     noobj_scale := noobj_scale self;
     obj_scale := obj_scale self;
     class_scale := class_scale self;
     seen := seen self;
     grid_size := grid_size self;
     img_size := img_size self;
     metrics := metrics self;
     grid_x := v;
     grid_y := grid_y self;
     scaled_anchors := scaled_anchors self;
     anchor_w := anchor_w self;
     anchor_h := anchor_h self |}.

Definition set_grid_y v (self : YoloLayer) : YoloLayer :=
  {| num_classes := num_classes self;
     anchors := anchors self;
     num_anchors := num_anchors self;
     stride := stride self;
     scale_x_y := scale_x_y self;
     ignore_thresh := ignore_thresh self;
     coord_scale := coord_scale self;
     noobj_scale := noobj_scale self;
     obj_scale := obj_scale self;
     class_scale := class_scale self;
     seen := seen self;
     grid_size := grid_size self;
     img_size := img_size self;
     metrics := metrics self;
     grid_x := grid_x self;
     grid_y := v;
     scaled_anchors := scaled_anchors self;
     anchor_w := anchor_w self;
     anchor_h := anchor_h self |}.

Definition set_scaled_anchors v (self : YoloLayer) : YoloLayer :=
  {| num_classes := num_classes self;
     anchors := anchors self;
     num_anchors := num_anchors self;
     stride := stride self;
     scale_x_y := scale_x_y self;
     ignore_thresh := ignore_thresh self;
     coord_scale := coord_scale self;
     noobj_scale := noobj_scale self;
     obj_scale := obj_scale self;
     class_scale := class_scale self;
     seen := seen self;
     grid_size := grid_size self;
     img_size := img_size self;
     metrics := metrics self;
     grid_x := grid_x self;
     grid_y := grid_y self;
     scaled_anchors := v;
     anchor_w := anchor_w self;
     anchor_h := anchor_h self |}.

Definition set_anchor_w v (self : YoloLayer) : YoloLayer :=
  {| num_classes := num_classes self;
     anchors := anchors self;
     num_anchors := num_anchors self;
     stride := stride self;
     scale_x_y := scale_x_y self;
     ignore_thresh := ignore_thresh self;
     coord_scale := coord_scale self;
     noobj_scale := noobj_scale self;
     obj_scale := obj_scale self;
     class_scale := class_scale self;
     seen := seen self;
     grid_size := grid_size self;
     img_size := img_size self;
     metrics := metrics self;
     grid_x := grid_x self;
     grid_y := grid_y self;
     scaled_anchors := scaled_anchors self;
     anchor_w := v;
     anchor_h := anchor_h self |}.

Definition set_anchor_h v (self : YoloLayer) : YoloLayer :=
  {| num_classes := num_classes self;
     anchors := anchors self;
     num_anchors := num_anchors self;
     stride := stride self;
     scale_x_y := scale_x_y self;
     ignore_thresh := ignore_thresh self;
     coord_scale := coord_scale self;
     noobj_scale := noobj_scale self;
     obj_scale := obj_scale self;
     class_scale := class_scale self;
     seen := seen self;
     grid_size := grid_size self;
     img_size := img_size self;
     metrics := metrics self;
     grid_x := grid_x self;
     grid_y := grid_y self;
     scaled_anchors := scaled_anchors self;
     anchor_w := anchor_w self;
     anchor_h := v |}.

(** The tuple returned by [build_targets]. *)
Record Targets := {
  obj_mask : T4 bool;
  noobj_mask : T4 bool;
  tx : T4 float;
  ty : T4 float;
  tw : T4 float;
  th : T4 float;
  tim : T4 float;
  tre : T4 float;
  tcls : T4 (list float);
  tconf : T4 float
}.

(** [mask.float()] *)
Definition mask_float (m : T4 bool) : T4 float :=
  map4 (fun b : bool => if b then F32.one else F32.zero) m.

(** Advanced indexing with four index tensors of equal length: the index
    tuples, each component normalised against its dimension. *)
Definition index_tuples (n1 n2 n3 n4 : nat) (b n j i : list Z) : result (list idx4) :=
  traverse (fun '(zb, zn, zj, zi) =>
      b' ← norm_index n1 zb; n' ← norm_index n2 zn;
      j' ← norm_index n3 zj; i' ← norm_index n4 zi;
      Ok (b', n', j', i'))
    (zip (zip (zip b n) j) i).

(** [t[b, n, j, i] = vals]: element-wise assignment in index order, so a
    later duplicate index overwrites an earlier one. *)
Definition index_put {A} (n1 n2 n3 n4 : nat) (t : T4 A) (b n j i : list Z)
    (vals : list A) : result (T4 A) :=
  ixs ← index_tuples n1 n2 n3 n4 b n j i;
  Ok (foldl (fun t '(ix, v) => set4 t ix v) t (zip ixs vals)).

(** [t[b, n, j, i] = v] with a scalar right-hand side. *)
Definition index_fill {A} (n1 n2 n3 n4 : nat) (t : T4 A) (b n j i : list Z)
    (v : A) : result (T4 A) :=
  ixs ← index_tuples n1 n2 n3 n4 b n j i;
  Ok (foldl (fun t ix => set4 t ix v) t ixs).

(** [t[b, n, j, i, c] = v] on a tensor with a trailing class dimension. *)
Definition index_fill5 (n1 n2 n3 n4 n5 : nat) (t : T4 (list float))
    (b n j i c : list Z) (v : float) : result (T4 (list float)) :=
  ixs ← index_tuples n1 n2 n3 n4 b n j i;
  cs ← traverse (norm_index n5) c;
  Ok (foldl (fun t '(ix, k) => alter4 (fun row => <[k := v]> row) t ix) t (zip ixs cs)).

(** [t[b, mask, j, i] = v] with scalar [b], [j], [i] and a boolean mask
    over the second dimension, whose length must be that dimension's. *)
Definition mask_fill {A} (n1 n2 n3 n4 : nat) (t : T4 A) (b : Z) (mask : list bool)
    (j i : Z) (v : A) : result (T4 A) :=
  b' ← norm_index n1 b;
  if negb (length mask =? n2) then Raise IndexError else
  j' ← norm_index n3 j; i' ← norm_index n4 i;
  Ok (foldl (fun t a => set4 t (b', a, j', i') v) t (mask_indices mask)).

(** ** Ground-truth boxes, one row at a time *)

(** A ground-truth row [(b, class, x, y, w, h, im, re)] as the assignment
    reads it on a grid of size [nG]; fields after the eighth are not read. *)
Record Box := {
  box_b : Z;
  box_label : Z;
  box_gx : float;
  box_gy : float;
  box_gw : float;
  box_gh : float;
  box_im : float;
  box_re : float
}.

Definition read_box (nG : nat) (row : list float) : option Box :=
  match row with
  | b :: c :: x :: y :: w :: h :: im :: re :: _ =>
      Some {| box_b := F32.to_long b;
              box_label := F32.to_long c;
              box_gx := F32.mul x (F32.of_nat nG);
              box_gy := F32.mul y (F32.of_nat nG);
              box_gw := F32.mul w (F32.of_nat nG);
              box_gh := F32.mul h (F32.of_nat nG);
              box_im := im;
              box_re := re |}
  | _ => None
  end.

(** The input tensor: a 4-D shape over contiguous row-major storage. *)
Record Input := {
  x_shape : nat * nat * nat * nat;
  x_data : list float
}.

(** The loss value returned by [forward]: the Python integer of the
    inference path or a 0-d tensor. *)
Inductive loss : Type :=
  | LossInt (z : Z)
  | LossTensor (f : float).

(** The one-hot vector of class [c] among [nC] classes. *)
Definition one_hot (nC c : nat) : list float := <[c := F32.one]> (replicate nC F32.zero).

(** ** Target assignment *)

Section Layer.
(** Elementary functions of the tensor library, at binary32. *)
Variable exp : float -> float.
Variable log : float -> float.
Variable sigmoid : float -> float.

(** The rotated-polygon IoU of an anchor box and a target box
    [(w, h, im, re)] placed at a common centre. *)
Variable rotated_iou : anchor -> float -> float -> float -> float -> float.

(** Modelled from the spec: [utils.evaluation_utils.rotated_box_wh_iou_polygon],
    the consumed capability "rotated_iou(anchor, target_w, target_h,
    target_im, target_re) -> IoU, vectorized over a batch of targets for
    one anchor".  It reads the first two columns of [wh] and of [imre]
    and raises when one is missing. *)
Definition rotated_box_wh_iou_polygon (anc : anchor) (wh imre : T2 float)
    : result (list float) :=
  traverse (fun '(r_wh, r_imre) =>
      match r_wh, r_imre with
      | w2 :: h2 :: _, im2 :: re2 :: _ => Ok (rotated_iou anc w2 h2 im2 re2)
      | _, _ => Raise IndexError
      end)
    (zip wh imre).

(** [torch.stack] of a non-empty list of tensors *)
Definition stack {A} (l : list A) : result (list A) :=
  match l with [] => Raise RuntimeError | _ => Ok l end.

(** [anchors[best_n]]: rows of the anchor tensor picked by an index list *)
Definition gather_anchors (anchors : list anchor) (best_n : list nat)
    : result (list anchor) :=
  traverse (fun k => match anchors !! k with
                     | Some a => Ok a
                     | None => Raise IndexError
                     end) best_n.

(** [YoloLayer.build_targets]; [pred_cls] is used only through
    [pred_cls.size()], which is what the model takes. *)
Definition build_targets (self : YoloLayer)
    (pred_cls_size : nat * nat * nat * nat * nat)
    (target : T2 float) (anchors : list anchor) : result Targets :=
  let '(nB, nA, nG, _, nC) := pred_cls_size in
  let n_target_boxes := length target in
  let obj_mask := full4 nB nA nG nG false in
  let noobj_mask := full4 nB nA nG nG true in
  let tx := full4 nB nA nG nG F32.zero in
  let ty := full4 nB nA nG nG F32.zero in
  let tw := full4 nB nA nG nG F32.zero in
  let th := full4 nB nA nG nG F32.zero in
  let tim := full4 nB nA nG nG F32.zero in
  let tre := full4 nB nA nG nG F32.zero in
  let tcls := full4 nB nA nG nG (replicate nC F32.zero) in
  let tconf := mask_float obj_mask in
  if (0 <? n_target_boxes) then
    let target_boxes := slice_cols 2 8 target in
    let scale := fmap (M := list) (fmap (M := list) (fun v => F32.mul v (F32.of_nat nG))) in
    let gxy := scale (slice_cols 0 2 target_boxes) in
    let gwh := scale (slice_cols 2 4 target_boxes) in
    let gimre := cols_from 4 target_boxes in
    (* anchors with best iou *)
    per_anchor ← traverse (fun anc => rotated_box_wh_iou_polygon anc gwh gimre) anchors;
    ious ← stack per_anchor;
    let ious_t := transpose F32.zero ious in
    let best_n := argmax <$> ious_t in
    let to_long := fmap (M := list) (fmap (M := list) F32.to_long) in
    '(b, target_labels) ← unpack2 (transpose 0%Z (to_long (slice_cols 0 2 target)));
    '(gx, gy) ← unpack2 (transpose F32.zero gxy);
    '(gw, gh) ← unpack2 (transpose F32.zero gwh);
    '(gim, gre) ← unpack2 (transpose F32.zero gimre);
    '(gi, gj) ← unpack2 (transpose 0%Z (to_long gxy));
    let best_z := Z.of_nat <$> best_n in
    (* set masks *)
    obj_mask ← index_fill nB nA nG nG obj_mask b best_z gj gi true;
    noobj_mask ← index_fill nB nA nG nG noobj_mask b best_z gj gi false;
    (* noobj mask to zero where iou exceeds ignore threshold *)
    noobj_mask ← foldl (fun acc '(bi, anchor_ious, gji, gii) =>
                    m ← acc;
                    mask_fill nB nA nG nG m bi
                      ((fun v => F32.gtb v (ignore_thresh self)) <$> anchor_ious)
                      gji gii false)
                  (Ok noobj_mask) (zip (zip (zip b ious_t) gj) gi);
    (* coordinates *)
    tx ← index_put nB nA nG nG tx b best_z gj gi
           ((fun g => F32.sub g (F32.floor g)) <$> gx);
    ty ← index_put nB nA nG nG ty b best_z gj gi
           ((fun g => F32.sub g (F32.floor g)) <$> gy);
    (* width and height *)
    best_anchors ← gather_anchors anchors best_n;
    tw ← index_put nB nA nG nG tw b best_z gj gi
           (zip_with (fun g a => log (F32.add (F32.div g (anchor_width a)) F32.eps16))
              gw best_anchors);
    th ← index_put nB nA nG nG th b best_z gj gi
           (zip_with (fun g a => log (F32.add (F32.div g (anchor_height a)) F32.eps16))
              gh best_anchors);
    (* im and real part *)
    tim ← index_put nB nA nG nG tim b best_z gj gi gim;
    tre ← index_put nB nA nG nG tre b best_z gj gi gre;
    (* one-hot encoding of label *)
    tcls ← index_fill5 nB nA nG nG nC tcls b best_z gj gi target_labels F32.one;
    let tconf := mask_float obj_mask in
    Ok {| obj_mask := obj_mask; noobj_mask := noobj_mask;
          tx := tx; ty := ty; tw := tw; th := th; tim := tim; tre := tre;
          tcls := tcls; tconf := tconf |}
  else
    Ok {| obj_mask := obj_mask; noobj_mask := noobj_mask;
          tx := tx; ty := ty; tw := tw; th := th; tim := tim; tre := tre;
          tcls := tcls; tconf := tconf |}.

(** *** The assignment of one box *)

(** IoU of the box with every anchor, in anchor order. *)
Definition box_ious (anchors : list anchor) (bx : Box) : list float :=
  (fun anc => rotated_iou anc (box_gw bx) (box_gh bx) (box_im bx) (box_re bx))
    <$> anchors.

Definition best_anchor (anchors : list anchor) (bx : Box) : nat :=
  argmax (box_ious anchors bx).

(** The slot [(b, best_n, gj, gi)] of a box. *)
Definition box_slot (nB nA nG : nat) (anchors : list anchor) (bx : Box)
    : result idx4 :=
  b' ← norm_index nB (box_b bx);
  n' ← norm_index nA (Z.of_nat (best_anchor anchors bx));
  j' ← norm_index nG (F32.to_long (box_gy bx));
  i' ← norm_index nG (F32.to_long (box_gx bx));
  Ok (b', n', j', i').

(** The anchors of the box's cell whose IoU exceeds the threshold. *)
Definition box_ignored (thresh : float) (nB nG : nat) (anchors : list anchor)
    (bx : Box) : result (list idx4) :=
  b' ← norm_index nB (box_b bx);
  j' ← norm_index nG (F32.to_long (box_gy bx));
  i' ← norm_index nG (F32.to_long (box_gx bx));
  Ok ((fun a => (b', a, j', i')) <$>
        mask_indices ((fun v => F32.gtb v thresh) <$> box_ious anchors bx)).

(** The targets as sequences of element writes: [ixs], [igs] and [cs]
    are the slots, the ignored slots and the class indices of [boxes]. *)
Definition written_targets (nB nA nG nC : nat) (anchors : list anchor)
    (boxes : list Box) (ixs : list idx4) (igs : list (list idx4))
    (cs : list nat) : Targets :=
  let put := fun (vals : list float) =>
    foldl (fun t '(ix, v) => set4 t ix v) (full4 nB nA nG nG F32.zero)
      (zip ixs vals) in
  let best := fun bx => anchors !!! best_anchor anchors bx in
  let obj := foldl (fun t ix => set4 t ix true) (full4 nB nA nG nG false) ixs in
  {| obj_mask := obj;
     noobj_mask :=
       foldl (fun t ix => set4 t ix false)
         (foldl (fun t ix => set4 t ix false) (full4 nB nA nG nG true) ixs)
         (mjoin igs);
     tx := put ((fun bx => F32.sub (box_gx bx) (F32.floor (box_gx bx))) <$> boxes);
     ty := put ((fun bx => F32.sub (box_gy bx) (F32.floor (box_gy bx))) <$> boxes);
     tw := put ((fun bx =>
              log (F32.add (F32.div (box_gw bx) (anchor_width (best bx))) F32.eps16))
             <$> boxes);
     th := put ((fun bx =>
              log (F32.add (F32.div (box_gh bx) (anchor_height (best bx))) F32.eps16))
             <$> boxes);
     tim := put (box_im <$> boxes);
     tre := put (box_re <$> boxes);
     tcls :=
       foldl (fun t '(ix, k) => alter4 (fun row => <[k := F32.one]> row) t ix)
         (full4 nB nA nG nG (replicate nC F32.zero)) (zip ixs cs);
     tconf := mask_float obj |}.

(** *** Decoding and loss *)

Definition numel (x : Input) : nat :=
  let '(n, c, h, w) := x_shape x in n * c * h * w.

(** [x.view(n1, n2, n3, n4, n5)]: the same storage read with another
    shape; it raises unless the sizes multiply to the element count. *)
Definition view5 (x : Input) (n1 n2 n3 n4 n5 : nat) : result (T4 (list float)) :=
  if negb (n1 * n2 * n3 * n4 * n5 =? numel x) then Raise RuntimeError else
  Ok (tab n1 (fun i1 => tab n2 (fun i2 => tab n3 (fun i3 => tab n4 (fun i4 =>
        tab n5 (fun i5 =>
          x_data x !!! ((((i1 * n2 + i2) * n3 + i3) * n4 + i4) * n5 + i5))))))).

(** [t.permute(0, 1, 3, 4, 2).contiguous()] of a tensor of shape
    [(n1, n2, n3, n4, n5)] *)
Definition permute_01342 (n4 n5 : nat) (t : T4 (list float)) : T4 (list float) :=
  fmap (M := list) (fmap (M := list) (fun t3 : T3 float =>
    tab n4 (fun j => tab n5 (fun i =>
      (fun plane : T2 float => (plane !!! j) !!! i) <$> t3)))) t.

(** [t[..., k]] *)
Definition select_last (k : nat) (t : T4 (list float)) : T4 float :=
  map4 (fun v : list float => v !!! k) t.

Definition zip_with4 {A B C} (f : A -> B -> C) : T4 A -> T4 B -> T4 C :=
  zip_with (zip_with (zip_with (zip_with f))).

(** [t[..., k] = vals] *)
Definition assign_last (k : nat) (t : T4 (list float)) (vals : T4 float)
    : T4 (list float) :=
  zip_with4 (fun row v => <[k := v]> row) t vals.

(** [t.view(num_samples, -1, k)] of a tensor whose last dimension is [k] *)
Definition view3 {A} (t : T4 A) : T2 A :=
  fmap (M := list) (fun t3 : T3 A => mjoin (mjoin t3)) t.

(** [torch.cat((a, b), dim=-1)] of two 3-D tensors *)
Definition cat_last (a b : T3 float) : T3 float :=
  zip_with (zip_with app) a b.

Definition sum (l : list float) : float := foldl F32.add F32.zero l.

(** Reduction ['mean']: the sum over the element count. *)
Definition mean (l : list float) : float :=
  F32.div (sum l) (F32.of_nat (length l)).

(** [nn.MSELoss()] *)
Definition mse_loss (input target : list float) : float :=
  mean (zip_with (fun a b => let d := F32.sub a b in F32.mul d d) input target).

Definition neg100 : float := F32.of_Z (-100).

Definition clamp_log (v : float) : float :=
  if F32.ltb v neg100 then neg100 else v.

(** [nn.BCELoss()], with the logarithms clamped at [-100] *)
Definition bce_loss (input target : list float) : float :=
  mean (zip_with (fun p t =>
      F32.sub (F32.mul (F32.sub t F32.one) (clamp_log (log (F32.sub F32.one p))))
              (F32.mul t (clamp_log (log p))))
    input target).

(** Methods run in a state-and-exception monad over the layer object:
    an exception keeps the assignments made before it. *)
Definition M (A : Type) : Type := YoloLayer -> YoloLayer * result A.

#[local] Instance M_ret : MRet M := fun _ a self => (self, Ok a).
#[local] Instance M_bind : MBind M := fun _ _ f m self =>
  match m self with
  | (self', Ok a) => f a self'
  | (self', Raise e) => (self', Raise e)
  end.

Definition get_self : M YoloLayer := fun self => (self, Ok self).
Definition assign (f : YoloLayer -> YoloLayer) : M unit := fun self => (f self, Ok tt).
Definition lift {A} (r : result A) : M A := fun self => (self, r).

(** Python [a / b] on floats: a zero divisor raises. *)
Definition py_div (a b : float) : result float :=
  if F32.is_zero b then Raise ZeroDivisionError else Ok (F32.div a b).

(** Python [a / b] on integers: true division, a zero divisor raises. *)
Definition py_int_div (a : Z) (b : nat) : result float :=
  if decide (b = 0) then Raise ZeroDivisionError
  else Ok (F32.div (F32.of_Z a) (F32.of_nat b)).

(** An attribute read; it raises when the attribute was never assigned. *)
Definition attr {A} (o : option A) : M A :=
  lift (match o with Some a => Ok a | None => Raise AttributeError end).

(** [YoloLayer.compute_grid_offsets] *)
Definition compute_grid_offsets (grid_size' : nat) : M unit :=
  assign (set_grid_size grid_size');;
  self ← get_self;
  let g := grid_size self in
  s ← lift (py_int_div (img_size self) g);
  assign (set_stride s);;
  (* offsets for each grid *)
  let arange := tab g F32.of_nat in
  assign (set_grid_x (Some [[replicate g arange]]));;
  assign (set_grid_y (Some [[transpose F32.zero (replicate g arange)]]));;
  self ← get_self;
  sa ← lift (traverse (fun '(a_w, a_h, im, re) =>
                w ← py_div a_w (stride self);
                h ← py_div a_h (stride self);
                Ok (w, h, im, re)) (anchors self));
  assign (set_scaled_anchors (Some sa));;
  (* [scaled_anchors[:, 0:1]] needs a 2-D tensor, the view one element
     per anchor *)
  (if decide (sa = []) then lift (Raise IndexError) else mret tt);;
  (if negb (length sa =? num_anchors self) then lift (Raise RuntimeError) else mret tt);;
  assign (set_anchor_w (Some [(fun a => [[anchor_width a]]) <$> sa]));;
  (if negb (length sa =? num_anchors self) then lift (Raise RuntimeError) else mret tt);;
  assign (set_anchor_h (Some [(fun a => [[anchor_height a]]) <$> sa])).

(** [torch.sigmoid(v) * scale_x_y - 0.5 * (scale_x_y - 1)], the
    expression of the centre coordinates *)
Definition squash (sxy v : float) : float :=
  F32.sub (F32.mul (sigmoid v) sxy) (F32.mul F32.half (F32.sub sxy F32.one)).

(** The tensors [forward] splits the prediction into. *)
Record Outputs := {
  out_x : T4 float;
  out_y : T4 float;
  out_w : T4 float;
  out_h : T4 float;
  out_im : T4 float;
  out_re : T4 float;
  pred_conf : T4 float;
  pred_cls : T4 (list float)
}.

(** [forward], "Get outputs": the prediction of shape
    [(num_samples, num_anchors, grid, grid, num_classes + 7)] split along
    its last dimension. *)
Definition get_outputs (self : YoloLayer) (prediction : T4 (list float)) : Outputs :=
  {| out_x := map4 (squash (scale_x_y self)) (select_last 0 prediction);
     out_y := map4 (squash (scale_x_y self)) (select_last 1 prediction);
     out_w := select_last 2 prediction;
     out_h := select_last 3 prediction;
     out_im := select_last 4 prediction;
     out_re := select_last 5 prediction;
     pred_conf := map4 sigmoid (select_last 6 prediction);
     pred_cls := map4 (fun v : list float => sigmoid <$> drop 7 v) prediction |}.

(** [forward], "Add offset and scale with anchors": [pred_boxes] and the
    concatenated [output], from the grid attributes read off the layer. *)
Definition decode (self : YoloLayer) (prediction : T4 (list float)) (o : Outputs)
    (gx gy aw ah : T4 float) : T3 float :=
  let pred_boxes := map4 (fun _ : list float => replicate 6 F32.zero) prediction in
  let pred_boxes := assign_last 0 pred_boxes (bzip4 F32.add (out_x o) gx) in
  let pred_boxes := assign_last 1 pred_boxes (bzip4 F32.add (out_y o) gy) in
  let pred_boxes := assign_last 2 pred_boxes (bzip4 F32.mul (map4 exp (out_w o)) aw) in
  let pred_boxes := assign_last 3 pred_boxes (bzip4 F32.mul (map4 exp (out_h o)) ah) in
  let pred_boxes := assign_last 4 pred_boxes (out_im o) in
  let pred_boxes := assign_last 5 pred_boxes (out_re o) in
  let scaled :=
    fmap (M := list) (fmap (M := list) (fmap (M := list)
      (fun v => F32.mul v (stride self)))) in
  cat_last (cat_last (cat_last
    (scaled (view3 (map4 (take 4) pred_boxes)))
    (view3 (map4 (drop 4) pred_boxes)))
    (view3 (map4 (fun c => [c]) (pred_conf o))))
    (view3 (pred_cls o)).

(** The loss terms of [forward], as stored in [metrics]. *)
Record Losses := {
  loss_x : float;
  loss_y : float;
  loss_w : float;
  loss_h : float;
  loss_im : float;
  loss_re : float;
  loss_conf : float;
  loss_cls : float;
  total_loss : float
}.

(** [forward], "Loss": every term but the no-object confidence is taken
    over the elements [obj_mask] selects. *)
Definition compute_loss (self : YoloLayer) (o : Outputs) (t : Targets) : Losses :=
  let obj := obj_mask t in
  let noobj := noobj_mask t in
  let loss_x := mse_loss (masked_select (out_x o) obj) (masked_select (tx t) obj) in
  let loss_y := mse_loss (masked_select (out_y o) obj) (masked_select (ty t) obj) in
  let loss_w := mse_loss (masked_select (out_w o) obj) (masked_select (tw t) obj) in
  let loss_h := mse_loss (masked_select (out_h o) obj) (masked_select (th t) obj) in
  let loss_im := mse_loss (masked_select (out_im o) obj) (masked_select (tim t) obj) in
  let loss_re := mse_loss (masked_select (out_re o) obj) (masked_select (tre t) obj) in
  let loss_eular := F32.add loss_im loss_re in
  let loss_conf_obj :=
    bce_loss (masked_select (pred_conf o) obj) (masked_select (tconf t) obj) in
  let loss_conf_noobj :=
    bce_loss (masked_select (pred_conf o) noobj) (masked_select (tconf t) noobj) in
  let loss_conf :=
    F32.add (F32.mul (obj_scale self) loss_conf_obj)
            (F32.mul (noobj_scale self) loss_conf_noobj) in
  let loss_cls :=
    bce_loss (mjoin (masked_select (pred_cls o) obj))
             (mjoin (masked_select (tcls t) obj)) in
  let total_loss :=
    F32.add (F32.add (F32.add (F32.add (F32.add (F32.add
      loss_x loss_y) loss_w) loss_h) loss_eular) loss_conf) loss_cls in
  {| loss_x := loss_x; loss_y := loss_y; loss_w := loss_w; loss_h := loss_h;
     loss_im := loss_im; loss_re := loss_re; loss_conf := loss_conf;
     loss_cls := loss_cls; total_loss := total_loss |}.

(** The [metrics] dictionary of a training step. *)
Definition metrics_of (l : Losses) : gmap string float :=
  <["loss" := total_loss l]> (<["x" := loss_x l]> (<["y" := loss_y l]>
  (<["w" := loss_w l]> (<["h" := loss_h l]> (<["im" := loss_im l]>
  (<["re" := loss_re l]> (<["conf" := loss_conf l]>
  (<["cls" := loss_cls l]> ∅)))))))).

(** [YoloLayer.forward] *)
Definition forward (x : Input) (targets : option (T2 float)) (img_size' : Z)
    : M (T3 float * loss) :=
  assign (set_img_size img_size');;
  let '(num_samples, _, _, grid_size') := x_shape x in
  self ← get_self;
  prediction ← lift (view5 x num_samples (num_anchors self) (num_classes self + 7)
                            grid_size' grid_size');
  let prediction := permute_01342 grid_size' grid_size' prediction in
  let o := get_outputs self prediction in
  (* if grid size does not match current we compute new offsets *)
  (if decide (grid_size' ≠ grid_size self)
   then compute_grid_offsets grid_size' else mret tt);;
  self ← get_self;
  gx ← attr (grid_x self);
  gy ← attr (grid_y self);
  aw ← attr (anchor_w self);
  ah ← attr (anchor_h self);
  let output := decode self prediction o gx gy aw ah in
  match targets with
  | None => mret (output, LossInt 0)
  | Some targets =>
      anchors ← attr (scaled_anchors self);
      t ← lift (build_targets self
             (num_samples, num_anchors self, grid_size', grid_size', num_classes self)
             targets anchors);
      let l := compute_loss self o t in
      assign (set_metrics (metrics_of l));;
      mret (output, LossTensor (total_loss l))
  end.

(** A sequence of [forward] calls on one layer object, each with its
    input, ground truth and image size; exceptions are caught by the
    caller and the object lives on. *)
Definition forward_all (calls : list (Input * option (T2 float) * Z))
    (self : YoloLayer) : YoloLayer :=
  foldl (fun self '(x, targets, img) => (forward x targets img self).1) self calls.

(** *** The decoded row, in the words of the specification

    Centre [(x' + grid_x) * stride], size [exp(t) * scaled_anchor *
    stride], orientation unchanged, then [sigmoid(conf)] and the
    per-class [sigmoid]; [raw k] is channel [k] of the slot. *)
Definition decoded_row (sxy st : float) (nC : nat) (raw : nat -> float)
    (gxv gyv awv ahv : float) : list float :=
  [ F32.mul (F32.add (squash sxy (raw 0)) gxv) st;
    F32.mul (F32.add (squash sxy (raw 1)) gyv) st;
    F32.mul (F32.mul (exp (raw 2)) awv) st;
    F32.mul (F32.mul (exp (raw 3)) ahv) st;
    raw 4; raw 5; sigmoid (raw 6) ]
  ++ tab nC (fun c => sigmoid (raw (7 + c))).
End Layer.

Arguments build_targets : simpl never.
Arguments compute_grid_offsets : simpl never.
Arguments view5 : simpl never.
Arguments permute_01342 : simpl never.
Arguments get_outputs : simpl never.
Arguments decode : simpl never.
Arguments compute_loss : simpl never.
Arguments metrics_of : simpl never.

(** The cached grid geometry of a layer whose [grid_size] is [g]: what
    [compute_grid_offsets] leaves behind. *)
Definition cached_geometry (self : YoloLayer) : Prop :=
  let g := grid_size self in
  grid_x self = Some [[replicate g (tab g F32.of_nat)]] ∧
  grid_y self = Some [[transpose F32.zero (replicate g (tab g F32.of_nat))]] ∧
  ∃ sa, scaled_anchors self = Some sa ∧ length sa = num_anchors self ∧
        anchor_w self = Some [(fun a => [[anchor_width a]]) <$> sa] ∧
        anchor_h self = Some [(fun a => [[anchor_height a]]) <$> sa].

(** A layer as [__init__] and successful [forward] calls leave it: the
    anchor count is that of a non-empty anchor list, and a non-zero cached
    grid size comes with its geometry. *)
Definition layer_ok (self : YoloLayer) : Prop :=
  num_anchors self = length (anchors self) ∧
  anchors self ≠ [] ∧
  (grid_size self ≠ 0 -> cached_geometry self).

(** The prediction tensor has the shape [(N, num_anchors * (7 + num_classes),
    G, G)] for a positive grid size [G]. *)
Definition input_ok (self : YoloLayer) (x : Input) (N G : nat) : Prop :=
  x_shape x = (N, num_anchors self * (num_classes self + 7), G, G) ∧ 0 < G.

(** ** Sample data

    Stand-ins for the external primitives and a small two-anchor head on
    a 2 x 2 grid, to run the model on concrete inputs. *)

Module Sample.
(** the binary32 quotient [a / b] of two integers *)
Definition q (a b : Z) : float := F32.div (F32.of_Z a) (F32.of_Z b).

(** second-order series in place of the elementary functions *)
Definition exp (v : float) : float :=
  F32.add (F32.add F32.one v) (F32.div (F32.mul v v) (F32.of_Z 2)).

Definition log (v : float) : float :=
  let d := F32.sub v F32.one in
  F32.sub d (F32.div (F32.mul d d) (F32.of_Z 2)).

Definition sigmoid (v : float) : float :=
  F32.div F32.one (F32.add F32.one (exp (F32.neg v))).

(** IoU of two boxes with a common centre and parallel axes *)
Definition iou (anc : anchor) (w h im re : float) : float :=
  let fmin := fun a b : float => if F32.leb a b then a else b in
  let inter := F32.mul (fmin (anchor_width anc) w) (fmin (anchor_height anc) h) in
  F32.div inter
    (F32.sub (F32.add (F32.mul (anchor_width anc) (anchor_height anc)) (F32.mul w h))
       inter).

Definition anchors : list anchor :=
  [(q 2 1, q 2 1, q 0 1, q 1 1); (q 1 1, q 1 1, q 0 1, q 1 1)].

(** the anchors in grid units at stride 2 *)
Definition scaled : list anchor :=
  [(q 1 1, q 1 1, q 0 1, q 1 1); (q 1 2, q 1 2, q 0 1, q 1 1)].

(** a head with two classes, [scale_x_y = 1] and [ignore_thresh = 0.2] *)
Definition layer : YoloLayer := init 2 anchors (q 32 1) (q 1 1) (q 1 5).

(** two boxes of image 0 in the same cell, of classes 0 and 1 *)
Definition row_a : list float :=
  [q 0 1; q 0 1; q 1 2; q 1 2; q 2 5; q 2 5; q 0 1; q 1 1].
Definition row_b : list float :=
  [q 0 1; q 1 1; q 3 4; q 1 2; q 2 5; q 2 5; q 0 1; q 1 1].

(** a box given with image index [-1] and class label [-1] *)
Definition row_neg : list float :=
  [q (-1) 1; q (-1) 1; q 1 2; q 1 2; q 2 5; q 2 5; q 0 1; q 1 1].

(** a prediction tensor of shape (1, 18, 2, 2) *)
Definition input : Input :=
  {| x_shape := (1, 18, 2, 2);
     x_data := (fun k => q (Z.of_nat k - 36) 24) <$> seq 0 72 |}.
End Sample.

(** * Properties *)

(** ** Tensor lemmas *)

Lemma get4_alter4 {A} (f : A -> A) (t : T4 A) (ix ix' : idx4) :
  get4 (alter4 f t ix) ix' =
  if decide (ix = ix') then f <$> get4 t ix' else get4 t ix'.
Proof.
  destruct ix as [[[b a] j] i], ix' as [[[b' a'] j'] i']. unfold get4, alter4.
  rewrite list_lookup_alter.
  destruct (decide (b = b')) as [->|Hb]; [|by rewrite decide_False by congruence].
  destruct (t !! b') as [t1|]; simpl; [|by case_decide].
  rewrite list_lookup_alter.
  destruct (decide (a = a')) as [->|Ha]; [|by rewrite decide_False by congruence].
  destruct (t1 !! a') as [t2|]; simpl; [|by case_decide].
  rewrite list_lookup_alter.
  destruct (decide (j = j')) as [->|Hj]; [|by rewrite decide_False by congruence].
  destruct (t2 !! j') as [t3|]; simpl; [|by case_decide].
  rewrite list_lookup_alter.
  destruct (decide (i = i')) as [->|Hi]; [|by rewrite decide_False by congruence].
  by rewrite decide_True.
Qed.

Lemma get4_set4 {A} (t : T4 A) (ix ix' : idx4) (v : A) :
  get4 (set4 t ix v) ix' =
  if decide (ix = ix') then (fun _ => v) <$> get4 t ix' else get4 t ix'.
Proof. apply get4_alter4. Qed.

Lemma get4_full4 {A} (n1 n2 n3 n4 : nat) (v : A) (b a j i : nat) :
  get4 (full4 n1 n2 n3 n4 v) (b, a, j, i) =
  if decide (b < n1 ∧ a < n2 ∧ j < n3 ∧ i < n4) then Some v else None.
Proof.
  unfold get4, full4.
  destruct (decide (b < n1)) as [Hb|Hb].
  2: { rewrite (proj1 (lookup_replicate_None n1 _ b)) by lia. simpl.
       by rewrite decide_False by tauto. }
  rewrite lookup_replicate_2 by done. simpl.
  destruct (decide (a < n2)) as [Ha|Ha].
  2: { rewrite (proj1 (lookup_replicate_None n2 _ a)) by lia. simpl.
       by rewrite decide_False by tauto. }
  rewrite lookup_replicate_2 by done. simpl.
  destruct (decide (j < n3)) as [Hj|Hj].
  2: { rewrite (proj1 (lookup_replicate_None n3 _ j)) by lia. simpl.
       by rewrite decide_False by tauto. }
  rewrite lookup_replicate_2 by done. simpl.
  destruct (decide (i < n4)) as [Hi|Hi].
  2: { rewrite (proj1 (lookup_replicate_None n4 _ i)) by lia.
       by rewrite decide_False by tauto. }
  rewrite lookup_replicate_2 by done. by rewrite decide_True.
Qed.

Lemma get4_map4 {A B} (f : A -> B) (t : T4 A) (ix : idx4) :
  get4 (map4 f t) ix = f <$> get4 t ix.
Proof.
  destruct ix as [[[b a] j] i]. unfold get4, map4.
  rewrite list_lookup_fmap. destruct (t !! b) as [t1|]; simpl; [|done].
  rewrite list_lookup_fmap. destruct (t1 !! a) as [t2|]; simpl; [|done].
  rewrite list_lookup_fmap. destruct (t2 !! j) as [t3|]; simpl; [|done].
  by rewrite list_lookup_fmap.
Qed.

(** Filling a list of indices with one value. *)
Lemma get4_fill {A} (v : A) (ixs : list idx4) (t : T4 A) (ix : idx4) :
  get4 (foldl (fun t ix => set4 t ix v) t ixs) ix =
  if decide (ix ∈ ixs) then (fun _ => v) <$> get4 t ix else get4 t ix.
Proof.
  revert t. induction ixs as [|ix0 ixs IH]; intros t; simpl.
  - destruct (decide (ix ∈ [])) as [H|]; [by apply elem_of_nil in H|done].
  - rewrite IH, get4_set4.
    destruct (decide (ix ∈ ixs)) as [Hin|Hin];
      destruct (decide (ix0 = ix)) as [->|Hne];
      destruct (decide (_ ∈ _ :: ixs)) as [Hc|Hc]; try done.
    + by destruct (get4 t ix).
    + exfalso. apply Hc. by right.
    + exfalso. apply Hc. by right.
    + exfalso. apply Hc. by left.
    + apply elem_of_cons in Hc. naive_solver.
Qed.

(** ** Order of binary32 values

    Away from NaN the comparison of [spec_float] is lexicographic on
    (class and sign, exponent, mantissa); the key makes that explicit. *)

Ltac cmp_cases :=
  repeat match goal with
  | |- context [Z.compare ?a ?b] => destruct (Z.compare_spec a b)
  | |- context [Pos.compare_cont Eq ?a ?b] =>
      change (Pos.compare_cont Eq a b) with (Pos.compare a b);
      destruct (Pos.compare_spec a b)
  end;
  simpl; split; intros; subst; try done; try lia; try (exfalso; lia).

Lemma ltb_key (x y : float) :
  F32.is_nan x = false -> F32.is_nan y = false ->
  F32.ltb x y = true <-> lt3 (float_key x) (float_key y).
Proof.
  intros Hx Hy. unfold F32.ltb, SFltb, lt3.
  destruct x as [sx|sx| |sx mx ex], y as [sy|sy| |sy my ey]; try discriminate;
    try (destruct sx); try (destruct sy); simpl; cmp_cases.
Qed.

Lemma leb_key (x y : float) :
  F32.is_nan x = false -> F32.is_nan y = false ->
  F32.leb x y = true <-> ¬ lt3 (float_key y) (float_key x).
Proof.
  intros Hx Hy. unfold F32.leb, SFleb, lt3.
  destruct x as [sx|sx| |sx mx ex], y as [sy|sy| |sy my ey]; try discriminate;
    try (destruct sx); try (destruct sy); simpl; cmp_cases.
Qed.

Lemma not_leb_ltb (x y : float) :
  F32.is_nan x = false -> F32.is_nan y = false ->
  F32.leb x y = false -> F32.ltb y x = true.
Proof.
  intros Hx Hy H. apply ltb_key; [done..|].
  destruct (decide (lt3 (float_key y) (float_key x))) as [|Hn]; [done|].
  apply leb_key in Hn; [congruence|done..].
Qed.

Lemma leb_refl (x : float) : F32.is_nan x = false -> F32.leb x x = true.
Proof.
  intros Hx. apply leb_key; [done..|]. unfold lt3.
  destruct (float_key x) as [[c e] m]. lia.
Qed.

Lemma ltb_leb (x y : float) :
  F32.is_nan x = false -> F32.is_nan y = false ->
  F32.ltb x y = true -> F32.leb x y = true.
Proof.
  intros Hx Hy H. apply ltb_key in H; [|done..]. apply leb_key; [done..|].
  revert H. unfold lt3.
  destruct (float_key x) as [[c e] m], (float_key y) as [[c' e'] m']. lia.
Qed.

Lemma leb_ltb_trans (x y z : float) :
  F32.is_nan x = false -> F32.is_nan y = false -> F32.is_nan z = false ->
  F32.leb x y = true -> F32.ltb y z = true -> F32.ltb x z = true.
Proof.
  intros Hx Hy Hz H1 H2. apply leb_key in H1; [|done..].
  apply ltb_key in H2; [|done..]. apply ltb_key; [done..|].
  revert H1 H2. unfold lt3.
  destruct (float_key x) as [[c e] m], (float_key y) as [[c' e'] m'],
    (float_key z) as [[c'' e''] m'']. lia.
Qed.

(** The scan of [torch.max] over a list without NaN. *)
Lemma argmax_from_first_max (l p : list float) (best : float) (bi : nat) :
  Forall (fun v => F32.is_nan v = false) (p ++ l) ->
  p !! bi = Some best ->
  (∀ j v, p !! j = Some v ->
     F32.leb v best = true ∧ (j < bi -> F32.ltb v best = true)) ->
  first_max (p ++ l) (argmax_from best bi (length p) l).
Proof.
  revert p best bi. induction l as [|v l IH]; intros p best bi Hnan Hbest Hinv.
  - simpl. rewrite app_nil_r. by exists best.
  - simpl. assert (Hnv : F32.is_nan v = false).
    { rewrite Forall_app, Forall_cons in Hnan. tauto. }
    assert (Hnb : F32.is_nan best = false).
    { rewrite Forall_forall in Hnan. apply Hnan, elem_of_app. left.
      by eapply list_elem_of_lookup_2. }
    assert (Hnp : ∀ j w, p !! j = Some w -> F32.is_nan w = false).
    { intros j w Hw. rewrite Forall_forall in Hnan. apply Hnan, elem_of_app.
      left. by eapply list_elem_of_lookup_2. }
    replace (p ++ v :: l) with ((p ++ [v]) ++ l) in * by by rewrite <- app_assoc.
    replace (S (length p)) with (length (p ++ [v])) by (rewrite length_app; simpl; lia).
    destruct (F32.leb v best) eqn:Hle; simpl.
    + apply IH; [done| |].
      * rewrite lookup_app_l; [done|]. by eapply lookup_lt_Some.
      * intros j w Hw. apply lookup_app_Some in Hw as [Hw|[Hge Hw]]; [by apply Hinv|].
        apply list_lookup_singleton_Some in Hw as [Hj <-]. split; [done|].
        intros Hlt. apply lookup_lt_Some in Hbest. lia.
    + rewrite Hnv. apply not_leb_ltb in Hle; [|done..].
      apply IH; [done| |].
      * rewrite lookup_app_r by lia. by rewrite Nat.sub_diag.
      * intros j w Hw. apply lookup_app_Some in Hw as [Hw|[Hge Hw]].
        -- assert (F32.ltb w v = true).
           { eapply leb_ltb_trans; [..|apply (Hinv j w Hw)|done]; eauto. }
           split; [|done]. apply ltb_leb; eauto.
        -- apply list_lookup_singleton_Some in Hw as [Hj <-].
           split; [by apply leb_refl|]. lia.
Qed.

Lemma argmax_first_max (l : list float) :
  l ≠ [] -> Forall (fun v => F32.is_nan v = false) l -> first_max l (argmax l).
Proof.
  destruct l as [|v l]; [done|]. intros _ Hnan. unfold argmax.
  assert (Hv : F32.is_nan v = false) by by apply Forall_cons in Hnan as [? _].
  simpl. rewrite leb_refl by done. simpl.
  apply (argmax_from_first_max l [v] v 0); [done|done|].
  intros j w Hw. apply list_lookup_singleton_Some in Hw as [-> <-].
  split; [by apply leb_refl|lia].
Qed.

Lemma argmax_from_lt (l : list float) (best : float) (bi i : nat) :
  bi < i + length l -> argmax_from best bi i l < i + length l.
Proof.
  revert best bi i. induction l as [|v l IH]; intros best bi i Hlt; simpl; [done|].
  simpl in Hlt. destruct (negb (F32.leb v best)).
  - destruct (F32.is_nan v); [lia|].
    specialize (IH v i (S i)). lia.
  - specialize (IH best bi (S i)). lia.
Qed.

Lemma argmax_lt (l : list float) : l ≠ [] -> argmax l < length l.
Proof.
  destruct l as [|v l]; [done|]. intros _. unfold argmax.
  apply (argmax_from_lt (v :: l) v 0 0). simpl. lia.
Qed.

(** ** The exception monad on lists *)

Lemma traverse_Ok {A B} (f : A -> result B) (l : list A) (k : list B) :
  traverse f l = Ok k <-> Forall2 (fun x y => f x = Ok y) l k.
Proof.
  revert k. induction l as [|x l IH]; intros k; simpl.
  - split; [intros [= <-]; constructor|]. by intros ->%Forall2_nil_inv_l.
  - split.
    + destruct (f x) as [y|] eqn:Hx; simpl; [|done].
      destruct (traverse f l) as [ys|] eqn:Hl; simpl; [|done].
      intros [= <-]. constructor; [done|]. by apply IH.
    + intros (y & ys & Hy & Hys & ->)%Forall2_cons_inv_l.
      rewrite Hy. simpl. apply IH in Hys. by rewrite Hys.
Qed.

Lemma traverse_fmap {A B C} (f : B -> result C) (g : A -> B) (l : list A) :
  traverse f (g <$> l) = traverse (fun x => f (g x)) l.
Proof. induction l as [|x l IH]; csimpl; [done|]. by rewrite IH. Qed.

Lemma traverse_ext {A B} (f g : A -> result B) (l : list A) :
  (∀ x, x ∈ l -> f x = g x) -> traverse f l = traverse g l.
Proof.
  induction l as [|x l IH]; intros H; simpl; [done|].
  rewrite H by left. rewrite IH; [done|]. intros y Hy. apply H. by right.
Qed.

Lemma traverse_total {A B} (f : A -> B) (l : list A) :
  traverse (fun x => Ok (f x)) l = Ok (f <$> l).
Proof. induction l as [|x l IH]; csimpl; [done|]. by rewrite IH. Qed.

Lemma zip_fmap {A B C} (f : A -> B) (g : A -> C) (l : list A) :
  zip (f <$> l) (g <$> l) = (fun x => (f x, g x)) <$> l.
Proof. induction l as [|x l IH]; csimpl; [done|]. by rewrite IH. Qed.

Lemma zip_with_fmap {A B C D} (h : B -> C -> D) (f : A -> B) (g : A -> C)
    (l : list A) :
  zip_with h (f <$> l) (g <$> l) = (fun x => h (f x) (g x)) <$> l.
Proof. induction l as [|x l IH]; csimpl; [done|]. by rewrite IH. Qed.

Lemma Forall2_fmap_eq {A B C} (f : A -> C) (g : B -> C) (l : list A) (k : list B) :
  Forall2 (fun x y => f x = g y) l k -> f <$> l = g <$> k.
Proof. induction 1; csimpl; congruence. Qed.

(** ** Transposition *)

Lemma transpose_two {A} (d : A) (m : T2 A) :
  m ≠ [] -> Forall (fun r => length r = 2) m ->
  transpose d m =
    [(fun r => default d (r !! 0)) <$> m; (fun r => default d (r !! 1)) <$> m].
Proof.
  intros Hne Hall. unfold transpose, tab, ncols.
  destruct m as [|r m]; [done|]. apply Forall_cons in Hall as [-> _]. done.
Qed.

(** A matrix given by a function of (row, column), transposed. *)
Lemma transpose_table {A B C} (d : C) (f : A -> B -> C) (rows : list A) (cols : list B) :
  rows ≠ [] ->
  transpose d ((fun a => f a <$> cols) <$> rows) =
  (fun b => (fun a => f a b) <$> rows) <$> cols.
Proof.
  intros Hne. unfold transpose, tab.
  assert (ncols ((fun a => f a <$> cols) <$> rows) = length cols) as ->.
  { destruct rows; [done|]. csimpl. by rewrite length_fmap. }
  apply list_eq. intros k. rewrite !list_lookup_fmap.
  destruct (cols !! k) as [b|] eqn:Hk; simpl.
  - rewrite lookup_seq_lt by by eapply lookup_lt_Some. simpl. f_equal.
    rewrite <- list_fmap_compose. apply list_fmap_ext. intros _ a _. simpl.
    by rewrite list_lookup_fmap, Hk.
  - rewrite lookup_seq_ge; [done|]. by apply lookup_ge_None.
Qed.

(** ** Sequences of indexed writes *)

Lemma get4_put {A} (ws : list (idx4 * A)) (t : T4 A) (ix : idx4) :
  get4 (foldl (fun t '(ix, v) => set4 t ix v) t ws) ix =
  match last_write ws ix with
  | Some v => (fun _ => v) <$> get4 t ix
  | None => get4 t ix
  end.
Proof.
  revert t. induction ws as [|[ix0 v0] ws IH]; intros t; simpl; [done|].
  rewrite IH, get4_set4.
  destruct (last_write ws ix) as [v'|].
  - case_decide; [|done]. by destruct (get4 t ix).
  - by case_decide.
Qed.

Lemma last_write_None {A} (ixs : list idx4) (vals : list A) (ix : idx4) :
  ix ∉ ixs -> last_write (zip ixs vals) ix = None.
Proof.
  revert vals. induction ixs as [|ix0 ixs IH]; intros vals Hn; [done|].
  destruct vals as [|v0 vals]; [done|]. simpl.
  rewrite IH by (intros ?; apply Hn; by right).
  rewrite decide_False; [done|]. intros ->. apply Hn. by left.
Qed.

Lemma last_write_lookup {A} (ixs : list idx4) (vals : list A) (k : nat)
    (ix : idx4) (v : A) :
  ixs !! k = Some ix -> vals !! k = Some v ->
  (∀ k', k < k' -> ixs !! k' ≠ Some ix) ->
  last_write (zip ixs vals) ix = Some v.
Proof.
  revert vals k. induction ixs as [|ix0 ixs IH]; intros vals k Hix Hv Hlast; [done|].
  destruct vals as [|v0 vals]; [done|]. simpl.
  destruct k as [|k]; simpl in *.
  - injection Hix as ->. injection Hv as ->.
    rewrite last_write_None.
    + by rewrite decide_True.
    + intros [k' Hk']%list_elem_of_lookup_1. by apply (Hlast (S k')); [lia|].
  - rewrite (IH vals k Hix Hv); [done|].
    intros k' Hk'. apply (Hlast (S k')). lia.
Qed.

(** Writes into the class dimension of [tcls]. *)
Lemma get4_put5 (v : float) (ws : list (idx4 * nat)) (t : T4 (list float)) (ix : idx4) :
  get4 (foldl (fun t '(ix, k) => alter4 (fun row => <[k := v]> row) t ix) t ws) ix =
  (fun row => foldl (fun r k => <[k := v]> r) row
                (snd <$> filter (fun p => p.1 = ix) ws)) <$> get4 t ix.
Proof.
  revert t. induction ws as [|[ix0 k0] ws IH]; intros t; simpl.
  - by destruct (get4 t ix).
  - rewrite IH, get4_alter4. rewrite filter_cons. simpl.
    destruct (decide (ix0 = ix)) as [->|Hne].
    + csimpl. by destruct (get4 t ix).
    + done.
Qed.

Lemma lookup_foldl_insert {A} (v : A) (ks : list nat) (row : list A) (c : nat) :
  foldl (fun r k => <[k := v]> r) row ks !! c =
  if decide (c ∈ ks) then (fun _ => v) <$> row !! c else row !! c.
Proof.
  revert row. induction ks as [|k ks IH]; intros row; simpl.
  - destruct (decide (c ∈ [])) as [H|]; [by apply elem_of_nil in H|done].
  - rewrite IH. rewrite list_lookup_insert.
    destruct (decide (c ∈ ks)) as [Hin|Hin];
      destruct (decide (c ∈ k :: ks)) as [Hc|Hc];
      try (exfalso; apply Hc; by right).
    + case_decide as Hk; [|done]. destruct Hk as [-> Hlt].
      apply lookup_lt_is_Some in Hlt as [w ->]. done.
    + apply elem_of_cons in Hc as [->|]; [|done].
      case_decide as Hk.
      * destruct Hk as [_ Hlt]. by apply lookup_lt_is_Some in Hlt as [w ->].
      * destruct (row !! k) eqn:Hr; [|done]. exfalso. apply Hk. split; [done|].
        by eapply lookup_lt_Some.
    + case_decide as Hk; [|done]. destruct Hk as [-> _]. exfalso. apply Hc. by left.
Qed.

(** ** Columns of the ground-truth tensor *)

Lemma transpose_pairs {A B} (d : B) (f g : A -> B) (l : list A) :
  l ≠ [] -> transpose d ((fun x => [f x; g x]) <$> l) = [f <$> l; g <$> l].
Proof.
  intros Hne. rewrite transpose_two.
  - by rewrite <- !list_fmap_compose.
  - by destruct l.
  - apply Forall_fmap, Forall_forall. done.
Qed.

Lemma read_box_row (nG : nat) (row : list float) (bx : Box) :
  read_box nG row = Some bx ->
  F32.to_long <$> take (2 - 0) (drop 0 row) = [box_b bx; box_label bx] ∧
  (fun v => F32.mul v (F32.of_nat nG)) <$>
    take (2 - 0) (drop 0 (take (8 - 2) (drop 2 row))) = [box_gx bx; box_gy bx] ∧
  (fun v => F32.mul v (F32.of_nat nG)) <$>
    take (4 - 2) (drop 2 (take (8 - 2) (drop 2 row))) = [box_gw bx; box_gh bx] ∧
  drop 4 (take (8 - 2) (drop 2 row)) = [box_im bx; box_re bx].
Proof.
  destruct row as [|v0 [|v1 [|v2 [|v3 [|v4 [|v5 [|v6 [|v7 rest]]]]]]]]; try done.
  intros [= <-]. simpl. by rewrite take_0.
Qed.

Section Assignment.
Variable log : float -> float.
Variable rotated_iou : anchor -> float -> float -> float -> float -> float.

Lemma polygon_rows (anc : anchor) (nG : nat) (target : T2 float) (r : list float) :
  rotated_box_wh_iou_polygon rotated_iou anc
    ((fmap (M := list) (fun v => F32.mul v (F32.of_nat nG))) <$>
       slice_cols 2 4 (slice_cols 2 8 target))
    (cols_from 4 (slice_cols 2 8 target)) = Ok r ->
  ∃ boxes, Forall2 (fun row bx => read_box nG row = Some bx) target boxes ∧
    r = (fun bx => rotated_iou anc (box_gw bx) (box_gh bx) (box_im bx) (box_re bx))
          <$> boxes.
Proof.
  unfold rotated_box_wh_iou_polygon, slice_cols, cols_from.
  revert r. induction target as [|row target IH]; intros r; csimpl.
  - intros [= <-]. exists []. split; [constructor|done].
  - destruct row as [|v0 [|v1 [|v2 [|v3 [|v4 [|v5 [|v6 [|v7 rest]]]]]]]];
      try done.
    simpl.
    match goal with |- context [traverse ?f ?l] =>
      destruct (traverse f l) as [r'|] eqn:Hr end; [|done].
    simpl. intros [= <-].
    destruct (IH r' Hr) as (boxes & HF & ->).
    eexists (_ :: boxes). split; [constructor; [done|exact HF]|done].
Qed.

Lemma read_box_functional (nG : nat) (target : T2 float) (k1 k2 : list Box) :
  Forall2 (fun row bx => read_box nG row = Some bx) target k1 ->
  Forall2 (fun row bx => read_box nG row = Some bx) target k2 -> k1 = k2.
Proof.
  intros H1. revert k2. induction H1 as [|row bx l k Hr _ IH]; intros k2 H2.
  - by apply Forall2_nil_inv_l in H2.
  - apply Forall2_cons_inv_l in H2 as (bx' & k' & Hr' & Hk' & ->).
    f_equal; [congruence|by apply IH].
Qed.

(** The IoU table, one row per anchor and one column per box. *)
Lemma iou_table (nG : nat) (target : T2 float) (anchors : list anchor)
    (boxes : list Box) (per_anchor : T2 float) :
  Forall2 (fun row bx => read_box nG row = Some bx) target boxes ->
  traverse (fun anc => rotated_box_wh_iou_polygon rotated_iou anc
      ((fmap (M := list) (fun v => F32.mul v (F32.of_nat nG))) <$>
         slice_cols 2 4 (slice_cols 2 8 target))
      (cols_from 4 (slice_cols 2 8 target))) anchors = Ok per_anchor ->
  per_anchor =
    (fun anc => (fun bx =>
       rotated_iou anc (box_gw bx) (box_gh bx) (box_im bx) (box_re bx)) <$> boxes)
    <$> anchors.
Proof.
  intros Hb Ht. apply traverse_Ok in Ht.
  rewrite <- (list_fmap_id per_anchor). symmetry. apply Forall2_fmap_eq.
  eapply Forall2_impl; [exact Ht|].
  intros anc r Hr. simpl in Hr. apply polygon_rows in Hr as (boxes' & Hb' & ->).
  by rewrite (read_box_functional _ _ _ _ Hb Hb').
Qed.

Lemma columns (nG : nat) (target : T2 float) (boxes : list Box) :
  target ≠ [] ->
  Forall2 (fun row bx => read_box nG row = Some bx) target boxes ->
  let scale := fmap (M := list)
                 (fmap (M := list) (fun v => F32.mul v (F32.of_nat nG))) in
  let to_long := fmap (M := list) (fmap (M := list) F32.to_long) in
  let target_boxes := slice_cols 2 8 target in
  transpose 0%Z (to_long (slice_cols 0 2 target)) =
    [box_b <$> boxes; box_label <$> boxes] ∧
  transpose F32.zero (scale (slice_cols 0 2 target_boxes)) =
    [box_gx <$> boxes; box_gy <$> boxes] ∧
  transpose F32.zero (scale (slice_cols 2 4 target_boxes)) =
    [box_gw <$> boxes; box_gh <$> boxes] ∧
  transpose F32.zero (cols_from 4 target_boxes) =
    [box_im <$> boxes; box_re <$> boxes] ∧
  transpose 0%Z (to_long (scale (slice_cols 0 2 target_boxes))) =
    [(fun bx => F32.to_long (box_gx bx)) <$> boxes;
     (fun bx => F32.to_long (box_gy bx)) <$> boxes].
Proof.
  intros Hne Hb. simpl. unfold slice_cols, cols_from.
  assert (Hbne : boxes ≠ []).
  { intros ->. by apply Forall2_nil_inv_r in Hb. }
  rewrite <- !list_fmap_compose.
  repeat split.
  - rewrite <- (transpose_pairs 0%Z box_b box_label boxes Hbne). f_equal.
    apply Forall2_fmap_eq. eapply Forall2_impl; [exact Hb|].
    intros row bx Hr. unfold compose. cbv beta. by apply read_box_row in Hr as (-> & _).
  - rewrite <- (transpose_pairs F32.zero box_gx box_gy boxes Hbne). f_equal.
    apply Forall2_fmap_eq. eapply Forall2_impl; [exact Hb|].
    intros row bx Hr. unfold compose. cbv beta. by apply read_box_row in Hr as (_ & -> & _).
  - rewrite <- (transpose_pairs F32.zero box_gw box_gh boxes Hbne). f_equal.
    apply Forall2_fmap_eq. eapply Forall2_impl; [exact Hb|].
    intros row bx Hr. unfold compose. cbv beta. by apply read_box_row in Hr as (_ & _ & -> & _).
  - rewrite <- (transpose_pairs F32.zero box_im box_re boxes Hbne). f_equal.
    apply Forall2_fmap_eq. eapply Forall2_impl; [exact Hb|].
    intros row bx Hr. unfold compose. cbv beta. by apply read_box_row in Hr as (_ & _ & _ & ->).
  - rewrite <- (transpose_pairs 0%Z (fun bx => F32.to_long (box_gx bx)) (fun bx => F32.to_long (box_gy bx)) boxes Hbne). f_equal.
    apply Forall2_fmap_eq. eapply Forall2_impl; [exact Hb|].
    intros row bx Hr. unfold compose. cbv beta. by apply read_box_row in Hr as (_ & -> & _).
Qed.

Lemma index_tuples_boxes (nB nA nG : nat) (anchors : list anchor) (boxes : list Box) :
  index_tuples nB nA nG nG (box_b <$> boxes)
    (Z.of_nat <$> (argmax <$> (box_ious rotated_iou anchors <$> boxes)))
    ((fun bx => F32.to_long (box_gy bx)) <$> boxes)
    ((fun bx => F32.to_long (box_gx bx)) <$> boxes) =
  traverse (box_slot rotated_iou nB nA nG anchors) boxes.
Proof.
  unfold index_tuples. rewrite <- !list_fmap_compose, !zip_fmap, traverse_fmap.
  by apply traverse_ext.
Qed.

Lemma foldl_Raise {A B} (f : result A -> B -> result A) (e : exn) (l : list B) :
  (∀ x, f (Raise e) x = Raise e) -> foldl f (Raise e) l = Raise e.
Proof. intros Hf. induction l as [|x l IH]; simpl; [done|]. by rewrite Hf. Qed.

(** The loop that clears [noobj_mask] above the ignore threshold. *)
Lemma ignore_loop (thresh : float) (nB nA nG : nat) (anchors : list anchor)
    (boxes : list Box) (m0 m : T4 bool) :
  foldl (fun acc '(bi, anchor_ious, gji, gii) =>
           m ← acc;
           mask_fill nB nA nG nG m bi
             ((fun v => F32.gtb v thresh) <$> anchor_ious) gji gii false)
    (Ok m0)
    (zip (zip (zip (box_b <$> boxes) (box_ious rotated_iou anchors <$> boxes))
            ((fun bx => F32.to_long (box_gy bx)) <$> boxes))
       ((fun bx => F32.to_long (box_gx bx)) <$> boxes)) = Ok m ->
  (boxes ≠ [] -> length anchors = nA) ∧
  ∃ igs, Forall2 (fun bx ig =>
                    box_ignored rotated_iou thresh nB nG anchors bx = Ok ig)
           boxes igs ∧
         m = foldl (fun t ix => set4 t ix false) m0 (mjoin igs).
Proof.
  rewrite !zip_fmap. revert m0.
  induction boxes as [|bx boxes IH]; intros m0; csimpl.
  - intros [= <-]. split; [done|]. exists []. split; [constructor|done].
  - unfold mask_fill at 2.
    destruct (norm_index nB (box_b bx)) as [b'|] eqn:Hb; simpl;
      [|rewrite foldl_Raise; [done|by intros [[[??]?]?]]].
    unfold box_ious at 1. rewrite !length_fmap.
    destruct (length anchors =? nA) eqn:Hlen; simpl;
      [|rewrite foldl_Raise; [done|by intros [[[??]?]?]]].
    destruct (norm_index nG (F32.to_long (box_gy bx))) as [j'|] eqn:Hj; simpl;
      [|rewrite foldl_Raise; [done|by intros [[[??]?]?]]].
    destruct (norm_index nG (F32.to_long (box_gx bx))) as [i'|] eqn:Hi; simpl;
      [|rewrite foldl_Raise; [done|by intros [[[??]?]?]]].
    intros Hm. apply IH in Hm as (_ & igs & Higs & ->).
    split; [intros _; by apply Nat.eqb_eq|].
    eexists (_ :: igs). split.
    + constructor; [|exact Higs]. unfold box_ignored.
      rewrite Hb. simpl. rewrite Hj. simpl. rewrite Hi. simpl. done.
    + csimpl. rewrite foldl_app. f_equal. by rewrite foldl_fmap.
Qed.

Lemma gather_best (anchors : list anchor) (boxes : list Box) :
  anchors ≠ [] ->
  gather_anchors anchors (argmax <$> (box_ious rotated_iou anchors <$> boxes)) =
  Ok ((fun bx => anchors !!! best_anchor rotated_iou anchors bx) <$> boxes).
Proof.
  intros Hne. unfold gather_anchors.
  rewrite <- list_fmap_compose, traverse_fmap, <- traverse_total.
  apply traverse_ext. intros bx _. unfold compose, best_anchor.
  assert (Hlt : argmax (box_ious rotated_iou anchors bx) < length anchors).
  { rewrite <- (length_fmap (fun anc => rotated_iou anc (box_gw bx) (box_gh bx)
                               (box_im bx) (box_re bx)) anchors).
    apply argmax_lt. unfold box_ious. by destruct anchors. }
  apply lookup_lt_is_Some in Hlt as [a Ha].
  by rewrite Ha, (list_lookup_total_correct _ _ _ Ha).
Qed.

(** With at least one box, [build_targets] succeeds only on rows of at
    least eight fields whose indices are in range, and then its result
    is the sequence of writes of the boxes in order. *)
Lemma build_targets_inv (self : YoloLayer) (nB nA nG nG' nC : nat)
    (target : T2 float) (anchors : list anchor) (out : Targets) :
  target ≠ [] ->
  build_targets log rotated_iou self (nB, nA, nG, nG', nC) target anchors = Ok out ->
  ∃ boxes ixs igs cs,
    Forall2 (fun row bx => read_box nG row = Some bx) target boxes ∧
    Forall2 (fun bx ix => box_slot rotated_iou nB nA nG anchors bx = Ok ix) boxes ixs ∧
    Forall2 (fun bx ig =>
               box_ignored rotated_iou (ignore_thresh self) nB nG anchors bx = Ok ig)
      boxes igs ∧
    Forall2 (fun bx c => norm_index nC (box_label bx) = Ok c) boxes cs ∧
    anchors ≠ [] ∧ length anchors = nA ∧
    out = written_targets log rotated_iou nB nA nG nC anchors boxes ixs igs cs.
Proof.
  intros Hne. unfold build_targets.
  assert ((0 <? length target) = true) as ->.
  { apply Nat.ltb_lt. destruct target; [done|simpl; lia]. }
  match goal with |- context [traverse ?f anchors] =>
    destruct (traverse f anchors) as [per_anchor|] eqn:Hpa end; [|done].
  simpl.
  destruct per_anchor as [|r0 per_anchor']; [done|]. simpl.
  assert (Hane : anchors ≠ []).
  { intros ->. done. }
  assert (∃ boxes, Forall2 (fun row bx => read_box nG row = Some bx) target boxes)
    as [boxes Hboxes].
  { apply traverse_Ok in Hpa. destruct anchors as [|a0 anchors']; [done|].
    apply Forall2_cons_inv_l in Hpa as (r & ? & Hr & _ & _).
    apply polygon_rows in Hr as (boxes & ? & _). by exists boxes. }
  assert (Hbne : boxes ≠ []).
  { intros ->. by apply Forall2_nil_inv_r in Hboxes. }
  rewrite (iou_table _ _ _ _ _ Hboxes Hpa).
  rewrite transpose_table by done.
  destruct (columns nG target boxes Hne Hboxes) as (-> & -> & -> & -> & ->).
  simpl.
  change (fmap (M := list) (fun bx : Box =>
             fmap (M := list) (fun a => rotated_iou a (box_gw bx) (box_gh bx)
               (box_im bx) (box_re bx)) anchors) boxes)
    with (box_ious rotated_iou anchors <$> boxes).
  unfold index_fill, index_put, index_fill5.
  rewrite index_tuples_boxes.
  destruct (traverse (box_slot rotated_iou nB nA nG anchors) boxes)
    as [ixs|] eqn:Hixs; [|done].
  simpl.
  match goal with |- context [foldl ?f (Ok ?m0) ?l] =>
    destruct (foldl f (Ok m0) l) as [noobj|] eqn:Hloop end; [|done].
  apply ignore_loop in Hloop as (Hlen & igs & Higs & ->).
  simpl. rewrite gather_best by done. simpl.
  rewrite !zip_with_fmap.
  destruct (traverse (norm_index nC) (box_label <$> boxes)) as [cs|] eqn:Hcs;
    [|done].
  simpl. intros [= <-].
  exists boxes, ixs, igs, cs.
  rewrite traverse_fmap in Hcs.
  split_and!; try done; try by apply traverse_Ok.
  - by apply Hlen.
  - unfold written_targets. by rewrite <- !list_fmap_compose.
Qed.
End Assignment.

(** ** Index normalisation *)

Lemma norm_index_lt (n : nat) (z : Z) (k : nat) : norm_index n z = Ok k -> k < n.
Proof.
  unfold norm_index. repeat case_match; intros [= <-]; lia.
Qed.

Lemma norm_index_nonneg (n : nat) (z : Z) (k : nat) :
  (0 <= z)%Z -> norm_index n z = Ok k -> Z.of_nat k = z.
Proof.
  unfold norm_index. repeat case_match; intros ? [= <-]; lia.
Qed.

Lemma norm_index_of_nat (n k k' : nat) :
  norm_index n (Z.of_nat k) = Ok k' -> k' = k.
Proof. intros H. apply norm_index_nonneg in H; lia. Qed.

(** On a non-negative coordinate the integer conversion is the floor. *)
Lemma to_long_floor (n : nat) (g : float) (k : nat) :
  (Z.of_nat n < 2 ^ 63)%Z -> F32.nonneg g = true ->
  norm_index n (F32.to_long g) = Ok k -> Z.of_nat k = F32.floorZ g.
Proof.
  intros Hn Hg Hk. destruct g as [s|s| |s m e]; try done.
  - simpl in Hk. by apply norm_index_nonneg in Hk.
  - simpl in Hk. unfold norm_index, F32.int64_min in Hk.
    repeat case_match; try done; lia.
  - simpl in Hg. destruct s; [done|]. unfold F32.to_long in Hk. simpl in *.
    pose proof (Z.shiftl_nonneg (Z.pos m) e) as [_ Hnn].
    specialize (Hnn ltac:(lia)).
    destruct ((F32.int64_min <=? Z.shiftl (Z.pos m) e)%Z &&
              (Z.shiftl (Z.pos m) e <? 2 ^ 63)%Z) eqn:Hr.
    + by apply norm_index_nonneg in Hk.
    + unfold norm_index, F32.int64_min in Hk. repeat case_match; try done; lia.
Qed.

Lemma elem_of_mask_indices (mask : list bool) (a : nat) :
  a ∈ mask_indices mask <-> mask !! a = Some true.
Proof.
  unfold mask_indices. rewrite list_elem_of_fmap. split.
  - intros ([a' m] & -> & [Hm Hin]%list_elem_of_filter). simpl in *. subst.
    apply list_elem_of_lookup in Hin as [k Hk].
    apply list_lookup_imap_Some in Hk as (m' & Hm' & [= -> ->]). done.
  - intros Ha. exists (a, true). split; [done|]. apply list_elem_of_filter.
    split; [done|]. apply list_elem_of_lookup. exists a.
    by rewrite list_lookup_imap, Ha.
Qed.

(** ** Slots are inside the tensors *)

Section Claims.
Variable log : float -> float.
Variable rotated_iou : anchor -> float -> float -> float -> float -> float.

Lemma box_slot_inv (nB nA nG : nat) (anchors : list anchor) (bx : Box) (ix : idx4) :
  box_slot rotated_iou nB nA nG anchors bx = Ok ix ->
  ∃ b j i,
    ix = (b, best_anchor rotated_iou anchors bx, j, i) ∧
    norm_index nB (box_b bx) = Ok b ∧
    norm_index nG (F32.to_long (box_gy bx)) = Ok j ∧
    norm_index nG (F32.to_long (box_gx bx)) = Ok i ∧
    b < nB ∧ best_anchor rotated_iou anchors bx < nA ∧ j < nG ∧ i < nG.
Proof.
  unfold box_slot. intros H.
  destruct (norm_index nB (box_b bx)) as [b|] eqn:Hb; [|done]. simpl in H.
  destruct (norm_index nA _) as [n|] eqn:Hn; [|done]. simpl in H.
  destruct (norm_index nG (F32.to_long (box_gy bx))) as [j|] eqn:Hj; [|done].
  simpl in H.
  destruct (norm_index nG (F32.to_long (box_gx bx))) as [i|] eqn:Hi; [|done].
  simpl in H. injection H as <-.
  pose proof (norm_index_lt _ _ _ Hn) as Hlt.
  apply norm_index_of_nat in Hn as ->.
  exists b, j, i. split_and!; try done; by eapply norm_index_lt.
Qed.

Lemma get4_fill_full {A} (v0 v : A) (n1 n2 n3 n4 : nat) (ixs : list idx4)
    (b a j i : nat) :
  b < n1 -> a < n2 -> j < n3 -> i < n4 ->
  get4 (foldl (fun t ix => set4 t ix v) (full4 n1 n2 n3 n4 v0) ixs) (b, a, j, i) =
  Some (if decide ((b, a, j, i) ∈ ixs) then v else v0).
Proof.
  intros. rewrite get4_fill, get4_full4.
  destruct (decide (b < n1 ∧ a < n2 ∧ j < n3 ∧ i < n4)) as [_|Hn]; [|tauto].
  by case_decide.
Qed.

Lemma build_targets_empty (self : YoloLayer) (nB nA nG nG' nC : nat)
    (anchors : list anchor) (out : Targets) :
  build_targets log rotated_iou self (nB, nA, nG, nG', nC) [] anchors = Ok out ->
  obj_mask out = full4 nB nA nG nG false ∧
  noobj_mask out = full4 nB nA nG nG true.
Proof. by intros [= <-]. Qed.

(** ** The masks *)

(** C10: the two masks returned by [build_targets] are disjoint: no
    index is true in both [obj_mask] and [noobj_mask], for any number
    of boxes, also when several share a cell. *)
Theorem masks_disjoint (self : YoloLayer) (nB nA nG nG' nC : nat)
    (target : T2 float) (anchors : list anchor) (out : Targets) (ix : idx4) :
  build_targets log rotated_iou self (nB, nA, nG, nG', nC) target anchors = Ok out ->
  ¬ (get4 (obj_mask out) ix = Some true ∧ get4 (noobj_mask out) ix = Some true).
Proof.
  intros Hbt [Hobj Hnoobj]. destruct (decide (target = [])) as [->|Hne].
  - apply build_targets_empty in Hbt as [Ho _]. rewrite Ho in Hobj.
    destruct ix as [[[b a] j] i]. rewrite get4_full4 in Hobj. by case_decide.
  - apply build_targets_inv in Hbt as (boxes & ixs & igs & cs & _ & _ & _ & _ & _ & _ & ->);
      [|done].
    simpl in *. rewrite get4_fill in Hobj. rewrite !get4_fill in Hnoobj.
    destruct ix as [[[b a] j] i]. rewrite get4_full4 in *.
    repeat case_decide; simplify_eq/=.
Qed.

(** C2: for a non-empty list of ground-truth boxes, every box marks the
    slot [(batch, best_n, gj, gi)]: [obj_mask] is true and [noobj_mask]
    false there, [best_n] is the first index of the largest IoU over
    the anchors, and [gj], [gi] are the floors of the grid-unit centre
    (the coordinates are non-negative, the grid size is an int64).  Every
    true entry of [obj_mask] is the slot of some box, so a box accounts
    for exactly one positive slot and nothing else chooses a slot. *)
Theorem best_slot_marked (self : YoloLayer) (nB nA nG nG' nC : nat)
    (target : T2 float) (anchors : list anchor) (out : Targets)
    (k : nat) (row : list float) :
  (Z.of_nat nG < 2 ^ 63)%Z ->
  build_targets log rotated_iou self (nB, nA, nG, nG', nC) target anchors = Ok out ->
  target !! k = Some row ->
  ∃ bx b j i,
    read_box nG row = Some bx ∧
    norm_index nB (box_b bx) = Ok b ∧
    norm_index nG (F32.to_long (box_gy bx)) = Ok j ∧
    norm_index nG (F32.to_long (box_gx bx)) = Ok i ∧
    let ious := box_ious rotated_iou anchors bx in
    let best_n := argmax ious in
    best_n < nA ∧
    get4 (obj_mask out) (b, best_n, j, i) = Some true ∧
    get4 (noobj_mask out) (b, best_n, j, i) = Some false ∧
    (Forall (fun v => F32.is_nan v = false) ious -> first_max ious best_n) ∧
    (F32.nonneg (box_gx bx) = true -> Z.of_nat i = F32.floorZ (box_gx bx)) ∧
    (F32.nonneg (box_gy bx) = true -> Z.of_nat j = F32.floorZ (box_gy bx)) ∧
    ∀ ix, get4 (obj_mask out) ix = Some true ->
      ∃ k' row' bx',
        target !! k' = Some row' ∧ read_box nG row' = Some bx' ∧
        box_slot rotated_iou nB nA nG anchors bx' = Ok ix.
Proof.
  intros HnG Hbt Hrow.
  assert (Hne : target ≠ []) by (intros ->; done).
  apply build_targets_inv in Hbt
    as (boxes & ixs & igs & cs & Hboxes & Hixs & _ & _ & Hane & Hlen & ->);
    [|done].
  destruct (Forall2_lookup_l _ _ _ _ _ Hboxes Hrow) as (bx & Hbx & Hread).
  destruct (Forall2_lookup_l _ _ _ _ _ Hixs Hbx) as (ix & Hix & Hslot).
  apply box_slot_inv in Hslot as (b & j & i & -> & Hb & Hj & Hi & ? & ? & ? & ?).
  exists bx, b, j, i. simpl. unfold best_anchor in *.
  split_and!; try done.
  - rewrite get4_fill_full by done. rewrite decide_True; [done|].
    by eapply list_elem_of_lookup_2.
  - rewrite get4_fill. case_decide.
    + rewrite get4_fill_full by done. by case_decide.
    + rewrite get4_fill_full by done. rewrite decide_True; [done|].
      by eapply list_elem_of_lookup_2.
  - intros Hnan. apply argmax_first_max; [|done]. unfold box_ious. by destruct anchors.
  - intros Hg. by eapply to_long_floor.
  - intros Hg. by eapply to_long_floor.
  - intros ix Hobj. rewrite get4_fill in Hobj. case_decide as Hin.
    + apply list_elem_of_lookup in Hin as [k' Hk'].
      destruct (Forall2_lookup_r _ _ _ _ _ Hixs Hk') as (bx' & Hbx' & Hs').
      destruct (Forall2_lookup_r _ _ _ _ _ Hboxes Hbx') as (row' & Hrow' & Hr').
      by exists k', row', bx'.
    + destruct ix as [[[b0 a0] j0] i0]. rewrite get4_full4 in Hobj. by case_decide.
Qed.

(** C5: for a box and an anchor whose IoU with it exceeds
    [ignore_thresh], [noobj_mask] is false at that anchor and the box's
    cell, also when the anchor is not the best one; [obj_mask] is not
    set there unless the slot is the best slot of some box. *)
Theorem ignore_thresh_clears_noobj (self : YoloLayer) (nB nA nG nG' nC : nat)
    (target : T2 float) (anchors : list anchor) (out : Targets)
    (k : nat) (row : list float) (bx : Box) (a : nat) (anc : anchor) :
  build_targets log rotated_iou self (nB, nA, nG, nG', nC) target anchors = Ok out ->
  target !! k = Some row ->
  read_box nG row = Some bx ->
  anchors !! a = Some anc ->
  F32.gtb (rotated_iou anc (box_gw bx) (box_gh bx) (box_im bx) (box_re bx))
    (ignore_thresh self) = true ->
  ∃ b j i,
    norm_index nB (box_b bx) = Ok b ∧
    norm_index nG (F32.to_long (box_gy bx)) = Ok j ∧
    norm_index nG (F32.to_long (box_gx bx)) = Ok i ∧
    get4 (noobj_mask out) (b, a, j, i) = Some false ∧
    ((∀ k' row' bx',
        target !! k' = Some row' -> read_box nG row' = Some bx' ->
        box_slot rotated_iou nB nA nG anchors bx' ≠ Ok (b, a, j, i)) ->
     get4 (obj_mask out) (b, a, j, i) = Some false).
Proof.
  intros Hbt Hrow Hread Ha Hgt.
  assert (Hne : target ≠ []) by (intros ->; done).
  apply build_targets_inv in Hbt
    as (boxes & ixs & igs & cs & Hboxes & Hixs & Higs & _ & Hane & Hlen & ->);
    [|done].
  destruct (Forall2_lookup_l _ _ _ _ _ Hboxes Hrow) as (bx' & Hbx & Hread').
  assert (bx' = bx) as -> by congruence.
  destruct (Forall2_lookup_l _ _ _ _ _ Hixs Hbx) as (ix & Hix & Hslot).
  destruct (Forall2_lookup_l _ _ _ _ _ Higs Hbx) as (ig & Hig & Hign).
  apply box_slot_inv in Hslot as (b & j & i & -> & Hb & Hj & Hi & ? & ? & ? & ?).
  assert (a < nA) by (rewrite <- Hlen; by eapply lookup_lt_Some).
  exists b, j, i. simpl. split_and!; try done.
  - rewrite get4_fill. rewrite decide_True.
    + rewrite get4_fill_full by done. by case_decide.
    + apply list_elem_of_lookup_2 in Hig. apply list_elem_of_join.
      exists ig. split; [|done].
      unfold box_ignored in Hign. rewrite Hb, Hj, Hi in Hign. simpl in Hign.
      injection Hign as <-. apply list_elem_of_fmap. exists a. split; [done|].
      apply elem_of_mask_indices. unfold box_ious.
      rewrite !list_lookup_fmap, Ha. simpl. by rewrite Hgt.
  - intros Hnot. rewrite get4_fill_full by done. rewrite decide_False; [done|].
    intros Hin. apply list_elem_of_lookup in Hin as [k' Hk'].
    destruct (Forall2_lookup_r _ _ _ _ _ Hixs Hk') as (bx' & Hbx' & Hs').
    destruct (Forall2_lookup_r _ _ _ _ _ Hboxes Hbx') as (row' & Hrow' & Hr').
    by eapply Hnot.
Qed.

Lemma length_foldl_insert {A} (v : A) (ks : list nat) (row : list A) :
  length (foldl (fun r k => <[k := v]> r) row ks) = length row.
Proof.
  revert row. induction ks as [|k ks IH]; intros row; simpl; [done|].
  by rewrite IH, length_insert.
Qed.

Lemma elem_of_classes_at (ixs : list idx4) (cs : list nat) (ix : idx4) (c : nat) :
  c ∈ (snd <$> filter (fun p => p.1 = ix) (zip ixs cs)) <->
  ∃ k, ixs !! k = Some ix ∧ cs !! k = Some c.
Proof.
  rewrite list_elem_of_fmap. split.
  - intros ([ix' c'] & -> & [Hp Hin]%list_elem_of_filter). simpl in *. subst.
    apply list_elem_of_lookup in Hin as [k Hk].
    apply lookup_zip_with_Some in Hk as (? & ? & [= <- <-] & ? & ?). eauto.
  - intros (k & Hix & Hc). exists (ix, c). split; [done|].
    apply list_elem_of_filter. split; [done|]. apply list_elem_of_lookup.
    exists k. apply lookup_zip_with_Some. eauto.
Qed.

(** C3, as the code has it: at the slot of a box, [tx], [ty], [tw],
    [th], [tim] and [tre] hold the values of the last box in the list
    that has this slot ([tx = gx - floor gx], [tw = log (gw / anchor_w +
    1e-16)] with the best anchor, [tim] and [tre] the row's own values);
    [tcls] holds 1 at the class of every box that has the slot and 0
    elsewhere, which is one-hot when these boxes share a class; [tconf]
    is the float cast of the final [obj_mask]. *)
Theorem targets_written (self : YoloLayer) (nB nA nG nG' nC : nat)
    (target : T2 float) (anchors : list anchor) (out : Targets)
    (k : nat) (row : list float) :
  build_targets log rotated_iou self (nB, nA, nG, nG', nC) target anchors = Ok out ->
  target !! k = Some row ->
  ∃ bx ix c anc,
    read_box nG row = Some bx ∧
    box_slot rotated_iou nB nA nG anchors bx = Ok ix ∧
    norm_index nC (box_label bx) = Ok c ∧
    anchors !! argmax (box_ious rotated_iou anchors bx) = Some anc ∧
    row !! 6 = Some (box_im bx) ∧ row !! 7 = Some (box_re bx) ∧
    let at_slot := fun c' : nat =>
      ∃ k' row' bx',
        target !! k' = Some row' ∧ read_box nG row' = Some bx' ∧
        box_slot rotated_iou nB nA nG anchors bx' = Ok ix ∧
        norm_index nC (box_label bx') = Ok c' in
    ((∀ k' row' bx',
        k < k' -> target !! k' = Some row' -> read_box nG row' = Some bx' ->
        box_slot rotated_iou nB nA nG anchors bx' ≠ Ok ix) ->
      get4 (tx out) ix = Some (F32.sub (box_gx bx) (F32.floor (box_gx bx))) ∧
      get4 (ty out) ix = Some (F32.sub (box_gy bx) (F32.floor (box_gy bx))) ∧
      get4 (tw out) ix =
        Some (log (F32.add (F32.div (box_gw bx) (anchor_width anc)) F32.eps16)) ∧
      get4 (th out) ix =
        Some (log (F32.add (F32.div (box_gh bx) (anchor_height anc)) F32.eps16)) ∧
      get4 (tim out) ix = Some (box_im bx) ∧
      get4 (tre out) ix = Some (box_re bx)) ∧
    (∃ v, get4 (tcls out) ix = Some v ∧ length v = nC ∧
       (∀ c', at_slot c' -> v !! c' = Some F32.one) ∧
       (∀ c', c' < nC -> ¬ at_slot c' -> v !! c' = Some F32.zero)) ∧
    ((∀ c', at_slot c' -> c' = c) -> get4 (tcls out) ix = Some (one_hot nC c)) ∧
    ∀ ix', get4 (tconf out) ix' =
           (fun m : bool => if m then F32.one else F32.zero) <$> get4 (obj_mask out) ix'.
Proof.
  intros Hbt Hrow.
  assert (Hne : target ≠ []) by (intros ->; done).
  apply build_targets_inv in Hbt
    as (boxes & ixs & igs & cs & Hboxes & Hixs & _ & Hcs & Hane & Hlen & ->);
    [|done].
  destruct (Forall2_lookup_l _ _ _ _ _ Hboxes Hrow) as (bx & Hbx & Hread).
  destruct (Forall2_lookup_l _ _ _ _ _ Hixs Hbx) as (ix & Hix & Hslot).
  destruct (Forall2_lookup_l _ _ _ _ _ Hcs Hbx) as (c & Hc & Hlabel).
  assert (Hbest : argmax (box_ious rotated_iou anchors bx) < length anchors).
  { rewrite <- (length_fmap (fun anc => rotated_iou anc (box_gw bx) (box_gh bx)
                               (box_im bx) (box_re bx)) anchors).
    apply argmax_lt. unfold box_ious. by destruct anchors. }
  apply lookup_lt_is_Some in Hbest as [anc Hanc].
  exists bx, ix, c, anc.
  pose proof Hslot as Hslot'.
  apply box_slot_inv in Hslot' as (b & j & i & Heq & _ & _ & _ & ? & ? & ? & ?).
  assert (Hfull : ∀ {A} (v : A), get4 (full4 nB nA nG nG v) ix = Some v).
  { intros A v. subst ix. rewrite get4_full4. by rewrite decide_True. }
  assert (Hat : ∀ c', c' ∈ (snd <$> filter (fun p => p.1 = ix) (zip ixs cs)) <->
            ∃ k' row' bx',
              target !! k' = Some row' ∧ read_box nG row' = Some bx' ∧
              box_slot rotated_iou nB nA nG anchors bx' = Ok ix ∧
              norm_index nC (box_label bx') = Ok c').
  { intros c'. rewrite elem_of_classes_at. split.
    - intros (k' & Hk' & Hc').
      destruct (Forall2_lookup_r _ _ _ _ _ Hixs Hk') as (bx' & Hbx' & Hs').
      destruct (Forall2_lookup_r _ _ _ _ _ Hboxes Hbx') as (row' & Hrow' & Hr').
      destruct (Forall2_lookup_l _ _ _ _ _ Hcs Hbx') as (c'' & Hc'' & Hl').
      exists k', row', bx'. split_and!; try done. congruence.
    - intros (k' & row' & bx' & Hrow' & Hr' & Hs' & Hl').
      destruct (Forall2_lookup_l _ _ _ _ _ Hboxes Hrow') as (bx'' & Hbx' & Hr'').
      assert (bx'' = bx') as -> by congruence.
      destruct (Forall2_lookup_l _ _ _ _ _ Hixs Hbx') as (ix' & Hix' & Hs'').
      destruct (Forall2_lookup_l _ _ _ _ _ Hcs Hbx') as (c'' & Hc'' & Hl'').
      exists k'. split; congruence. }
  do 4 (split; [done|]).
  split.
  { clear -Hread. by destruct row as [|? [|? [|? [|? [|? [|? [|? [|? ?]]]]]]]];
      simplify_eq/=. }
  split.
  { clear -Hread. by destruct row as [|? [|? [|? [|? [|? [|? [|? [|? ?]]]]]]]];
      simplify_eq/=. }
  cbv zeta. split_and!.
  - intros Hlast.
    assert (Hlast' : ∀ k', k < k' -> ixs !! k' ≠ Some ix).
    { intros k' Hk' Hix'.
      destruct (Forall2_lookup_r _ _ _ _ _ Hixs Hix') as (bx' & Hbx' & Hs').
      destruct (Forall2_lookup_r _ _ _ _ _ Hboxes Hbx') as (row' & Hrow' & Hr').
      by eapply Hlast. }
    assert (Hput : ∀ f : Box -> float,
              get4 (foldl (fun t '(ix, v) => set4 t ix v)
                      (full4 nB nA nG nG F32.zero) (zip ixs (f <$> boxes))) ix =
              Some (f bx)).
    { intros f. rewrite get4_put.
      rewrite (last_write_lookup ixs (f <$> boxes) k ix (f bx)); try done.
      - by rewrite Hfull.
      - by rewrite list_lookup_fmap, Hbx. }
    simpl. rewrite !Hput. unfold best_anchor.
    rewrite (list_lookup_total_correct _ _ _ Hanc). done.
  - simpl. rewrite get4_put5, Hfull. simpl. eexists. split; [done|].
    split; [by rewrite length_foldl_insert, length_replicate|]. split.
    + intros c' Hc'. apply Hat in Hc' as Hin.
      rewrite lookup_foldl_insert, decide_True by done.
      destruct Hc' as (? & ? & ? & ? & ? & ? & Hl'%norm_index_lt).
      by rewrite lookup_replicate_2.
    + intros c' Hlt Hc'. rewrite lookup_foldl_insert, decide_False.
      * by rewrite lookup_replicate_2.
      * by rewrite Hat.
  - intros Hone. simpl. rewrite get4_put5, Hfull. simpl. f_equal.
    apply list_eq. intros c'. unfold one_hot.
    rewrite lookup_foldl_insert, list_lookup_insert, length_replicate.
    pose proof (norm_index_lt _ _ _ Hlabel) as Hc_lt.
    destruct (decide (c = c' ∧ c < nC)) as [[-> _]|Hn].
    * rewrite decide_True.
      -- by rewrite lookup_replicate_2.
      -- apply Hat. by exists k, row, bx.
    * rewrite decide_False; [done|]. intros Hin%Hat. apply Hone in Hin. subst.
      tauto.
  - intros ix'. simpl. unfold mask_float. by rewrite get4_map4.
Qed.
End Claims.

(** ** The grid geometry *)

(** The anchors in grid units at stride [s]. *)
Lemma scaled_anchors_Ok (s : float) (ancs sa : list anchor) :
  traverse (fun '(a_w, a_h, im, re) =>
      w ← py_div a_w s; h ← py_div a_h s; Ok (w, h, im, re)) ancs = Ok sa ->
  sa = (fun a : anchor =>
          (F32.div (anchor_width a) s, F32.div (anchor_height a) s, a.1.2, a.2))
       <$> ancs ∧
  (ancs ≠ [] -> F32.is_zero s = false).
Proof.
  intros H. apply traverse_Ok in H. split.
  - rewrite <- (list_fmap_id sa). symmetry. apply Forall2_fmap_eq.
    eapply Forall2_impl; [exact H|]. intros [[[a_w a_h] im] re] y. unfold py_div.
    destruct (F32.is_zero s); simpl; [done|]. by intros [= <-].
  - intros Hne. destruct H as [|[[[a_w a_h] im] re] y ? ? Hy _]; [done|].
    unfold py_div in Hy. by destruct (F32.is_zero s).
Qed.

Lemma scaled_anchors_traverse (s : float) (ancs : list anchor) :
  F32.is_zero s = false ->
  traverse (fun '(a_w, a_h, im, re) =>
      w ← py_div a_w s; h ← py_div a_h s; Ok (w, h, im, re)) ancs =
  Ok ((fun a : anchor =>
          (F32.div (anchor_width a) s, F32.div (anchor_height a) s, a.1.2, a.2))
       <$> ancs).
Proof.
  intros Hs. rewrite <- traverse_total. apply traverse_ext.
  intros [[[a_w a_h] im] re] _. unfold py_div. by rewrite Hs.
Qed.

(** [compute_grid_offsets], statement by statement. *)
Lemma compute_grid_offsets_run (g : nat) (self : YoloLayer) :
  compute_grid_offsets g self =
  let self1 := set_grid_size g self in
  match py_int_div (img_size self) g with
  | Raise e => (self1, Raise e)
  | Ok s =>
      let arange := tab g F32.of_nat in
      let self2 :=
        set_grid_y (Some [[transpose F32.zero (replicate g arange)]])
          (set_grid_x (Some [[replicate g arange]]) (set_stride s self1)) in
      match traverse (fun '(a_w, a_h, im, re) =>
                w ← py_div a_w s; h ← py_div a_h s; Ok (w, h, im, re))
              (anchors self) with
      | Raise e => (self2, Raise e)
      | Ok sa =>
          let self3 := set_scaled_anchors (Some sa) self2 in
          if decide (sa = []) then (self3, Raise IndexError)
          else if negb (length sa =? num_anchors self) then (self3, Raise RuntimeError)
          else (set_anchor_h (Some [(fun a => [[anchor_height a]]) <$> sa])
                  (set_anchor_w (Some [(fun a => [[anchor_width a]]) <$> sa]) self3),
                Ok tt)
      end
  end.
Proof.
  unfold compute_grid_offsets, mbind, M_bind, assign, get_self, lift, mret, M_ret.
  simpl. destruct (py_int_div (img_size self) g) as [s|e]; [|done]. simpl.
  match goal with |- context [traverse ?f ?l] => destruct (traverse f l) as [sa|e] end;
    [|done].
  simpl. destruct (decide (sa = [])); [done|].
  by destruct (negb (length sa =? num_anchors self)).
Qed.

Section Forward.
Variable exp : float -> float.
Variable log : float -> float.
Variable sigmoid : float -> float.
Variable rotated_iou : anchor -> float -> float -> float -> float -> float.

(** [forward], statement by statement. *)
Lemma forward_run (x : Input) (targets : option (T2 float)) (img : Z)
    (self : YoloLayer) (N CH H G : nat) :
  x_shape x = (N, CH, H, G) ->
  forward exp log sigmoid rotated_iou x targets img self =
  let self1 := set_img_size img self in
  match view5 x N (num_anchors self) (num_classes self + 7) G G with
  | Raise e => (self1, Raise e)
  | Ok p0 =>
      let prediction := permute_01342 G G p0 in
      let o := get_outputs sigmoid self1 prediction in
      match (if decide (G ≠ grid_size self)
             then compute_grid_offsets G self1 else (self1, Ok tt)) with
      | (self2, Raise e) => (self2, Raise e)
      | (self2, Ok _) =>
          match grid_x self2, grid_y self2, anchor_w self2, anchor_h self2 with
          | Some gx, Some gy, Some aw, Some ah =>
              let output := decode exp self2 prediction o gx gy aw ah in
              match targets with
              | None => (self2, Ok (output, LossInt 0))
              | Some tg =>
                  match scaled_anchors self2 with
                  | None => (self2, Raise AttributeError)
                  | Some ancs =>
                      match build_targets log rotated_iou self2
                              (N, num_anchors self2, G, G, num_classes self2)
                              tg ancs with
                      | Raise e => (self2, Raise e)
                      | Ok t =>
                          let l := compute_loss log self2 o t in
                          (set_metrics (metrics_of l) self2,
                           Ok (output, LossTensor (total_loss l)))
                      end
                  end
              end
          | _, _, _, _ => (self2, Raise AttributeError)
          end
      end
  end.
Proof.
  intros Hshape.
  unfold forward, mbind, M_bind, assign, get_self, attr, mret, M_ret.
  unfold lift. rewrite Hshape. cbv beta iota zeta.
  change (num_anchors (set_img_size img self)) with (num_anchors self).
  change (num_classes (set_img_size img self)) with (num_classes self).
  change (grid_size (set_img_size img self)) with (grid_size self).
  destruct (view5 x N (num_anchors self) (num_classes self + 7) G G) as [p0|e];
    [|reflexivity].
  destruct (decide (G ≠ grid_size self)) as [Hg|Hg].
  - destruct (compute_grid_offsets G (set_img_size img self)) as [self2 [[]|e]];
      [|reflexivity].
    destruct (grid_x self2), (grid_y self2), (anchor_w self2), (anchor_h self2);
      try reflexivity.
    destruct targets as [tg|]; [|reflexivity].
    destruct (scaled_anchors self2) as [ancs|]; [|reflexivity].
    match goal with |- context [build_targets ?a ?b ?c ?d ?e ?f] =>
      destruct (build_targets a b c d e f) end; reflexivity.
  - destruct (grid_x (set_img_size img self)), (grid_y (set_img_size img self)),
      (anchor_w (set_img_size img self)), (anchor_h (set_img_size img self));
      try reflexivity.
    destruct targets as [tg|]; [|reflexivity].
    destruct (scaled_anchors (set_img_size img self)) as [ancs|]; [|reflexivity].
    match goal with |- context [build_targets ?a ?b ?c ?d ?e ?f] =>
      destruct (build_targets a b c d e f) end; reflexivity.
Qed.
End Forward.

(** A successful recomputation, and the state it leaves. *)
Lemma compute_grid_offsets_Ok (g : nat) (self : YoloLayer) :
  g ≠ 0 ->
  F32.is_zero (F32.div (F32.of_Z (img_size self)) (F32.of_nat g)) = false ->
  anchors self ≠ [] ->
  num_anchors self = length (anchors self) ->
  let s := F32.div (F32.of_Z (img_size self)) (F32.of_nat g) in
  let sa := (fun a : anchor =>
               (F32.div (anchor_width a) s, F32.div (anchor_height a) s, a.1.2, a.2))
            <$> anchors self in
  compute_grid_offsets g self =
  (set_anchor_h (Some [(fun a => [[anchor_height a]]) <$> sa])
     (set_anchor_w (Some [(fun a => [[anchor_width a]]) <$> sa])
        (set_scaled_anchors (Some sa)
           (set_grid_y (Some [[transpose F32.zero (replicate g (tab g F32.of_nat))]])
              (set_grid_x (Some [[replicate g (tab g F32.of_nat)]])
                 (set_stride s (set_grid_size g self)))))),
   Ok tt).
Proof.
  intros Hg Hs Hne Hlen. rewrite compute_grid_offsets_run.
  unfold py_int_div. rewrite decide_False by done. cbv zeta.
  rewrite scaled_anchors_traverse by done.
  rewrite decide_False by (by destruct (anchors self)).
  rewrite length_fmap, <- Hlen, Nat.eqb_refl. done.
Qed.

(** What a failed or successful recomputation never touches. *)
Lemma compute_grid_offsets_frame (g : nat) (self : YoloLayer) :
  let self' := (compute_grid_offsets g self).1 in
  num_classes self' = num_classes self ∧ anchors self' = anchors self ∧
  num_anchors self' = num_anchors self ∧ scale_x_y self' = scale_x_y self ∧
  ignore_thresh self' = ignore_thresh self ∧ img_size self' = img_size self.
Proof.
  rewrite compute_grid_offsets_run.
  destruct (py_int_div (img_size self) g) as [s|e]; [|done]. cbv zeta.
  match goal with |- context [traverse ?f ?l] => destruct (traverse f l) as [sa|e] end;
    [|done].
  destruct (decide (sa = [])); [done|].
  by destruct (negb (length sa =? num_anchors self)).
Qed.

Lemma view5_Ok (x : Input) (N G A K : nat) (CH H : nat) :
  x_shape x = (N, CH, H, G) -> CH = A * K -> H = G ->
  is_Ok (view5 x N A K G G) = true.
Proof.
  intros Hs -> ->. unfold view5, numel. rewrite Hs.
  assert (N * A * K * G * G = N * (A * K) * G * G) as -> by lia.
  by rewrite Nat.eqb_refl.
Qed.

Lemma get4_grid_x (g i j : nat) :
  i < g -> j < g ->
  get4 [[replicate g (tab g F32.of_nat)]] (0, 0, i, j) = Some (F32.of_nat j).
Proof.
  intros Hi Hj. unfold get4. simpl. rewrite lookup_replicate_2 by done. simpl.
  unfold tab. rewrite list_lookup_fmap, lookup_seq_lt by done. done.
Qed.

Lemma get4_grid_y (g i j : nat) :
  i < g -> j < g ->
  get4 [[transpose F32.zero (replicate g (tab g F32.of_nat))]] (0, 0, i, j) =
  Some (F32.of_nat i).
Proof.
  intros Hi Hj. unfold get4. simpl. unfold transpose.
  assert (ncols (replicate g (tab g F32.of_nat)) = g) as ->.
  { destruct g; [lia|]. simpl. unfold tab. by rewrite length_fmap, length_seq. }
  unfold tab at 1. rewrite list_lookup_fmap, lookup_seq_lt by done. simpl.
  rewrite list_lookup_fmap, lookup_replicate_2 by done. simpl.
  unfold tab. rewrite list_lookup_fmap, lookup_seq_lt by done. done.
Qed.

(** The state after the grid-size test of [forward], for a healthy layer:
    the geometry is that of the incoming grid size, recomputed or cached. *)
Lemma grid_test_Ok (G : nat) (img : Z) (self : YoloLayer) :
  layer_ok self -> 0 < G ->
  F32.is_zero (F32.div (F32.of_Z img) (F32.of_nat G)) = false ->
  ∃ self2,
    (if decide (G ≠ grid_size self)
     then compute_grid_offsets G (set_img_size img self)
     else (set_img_size img self, Ok tt)) = (self2, Ok tt) ∧
    grid_size self2 = G ∧ cached_geometry self2 ∧ layer_ok self2 ∧
    num_classes self2 = num_classes self ∧ num_anchors self2 = num_anchors self ∧
    anchors self2 = anchors self ∧ scale_x_y self2 = scale_x_y self ∧
    metrics self2 = metrics self ∧ img_size self2 = img ∧
    (G ≠ grid_size self ->
       stride self2 = F32.div (F32.of_Z img) (F32.of_nat G) ∧
       scaled_anchors self2 =
         Some ((fun a : anchor =>
                  (F32.div (anchor_width a) (stride self2),
                   F32.div (anchor_height a) (stride self2), a.1.2, a.2))
               <$> anchors self)) ∧
    (G = grid_size self ->
       stride self2 = stride self ∧ grid_x self2 = grid_x self ∧
       grid_y self2 = grid_y self ∧ scaled_anchors self2 = scaled_anchors self ∧
       anchor_w self2 = anchor_w self ∧ anchor_h self2 = anchor_h self).
Proof.
  intros (Hlen & Hne & Hcache) HG Hs. case_decide as Hg.
  - eexists. split.
    { apply compute_grid_offsets_Ok; [lia|done..]. }
    simpl. split_and!; try done.
    + unfold cached_geometry. simpl. split_and!; try done.
      eexists. split_and!; try done. by rewrite length_fmap.
    + split_and!; try done. intros _. unfold cached_geometry. simpl.
      split_and!; try done. eexists. split_and!; try done. by rewrite length_fmap.
  - subst G. eexists. split; [done|].
    assert (cached_geometry self) by (apply Hcache; lia).
    simpl. split_and!; try done.
Qed.

Section ForwardClaims.
Variable exp : float -> float.
Variable log : float -> float.
Variable sigmoid : float -> float.
Variable rotated_iou : anchor -> float -> float -> float -> float -> float.

Local Abbreviation forward := (forward exp log sigmoid rotated_iou).

(** One call leaves the constructor's [num_classes], [anchors],
    [scale_x_y] and [ignore_thresh] alone, whatever it returns. *)
Lemma forward_frame (x : Input) (targets : option (T2 float)) (img : Z)
    (self : YoloLayer) :
  let self' := (forward x targets img self).1 in
  num_classes self' = num_classes self ∧ anchors self' = anchors self ∧
  num_anchors self' = num_anchors self ∧ scale_x_y self' = scale_x_y self ∧
  ignore_thresh self' = ignore_thresh self.
Proof.
  destruct (x_shape x) as [[[N CH] H] G] eqn:Hshape.
  rewrite (forward_run _ _ _ _ _ _ _ _ _ _ _ _ Hshape). cbv zeta.
  destruct (view5 _ _ _ _ _ _) as [p0|e]; [|done].
  set (cg := if decide (G ≠ grid_size self)
             then compute_grid_offsets G (set_img_size img self)
             else (set_img_size img self, Ok tt)).
  assert (Hc : num_classes cg.1 = num_classes self ∧ anchors cg.1 = anchors self ∧
            num_anchors cg.1 = num_anchors self ∧ scale_x_y cg.1 = scale_x_y self ∧
            ignore_thresh cg.1 = ignore_thresh self).
  { subst cg. case_decide; [|done].
    pose proof (compute_grid_offsets_frame G (set_img_size img self)) as Hf.
    simpl in Hf. tauto. }
  destruct cg as [self2 [[]|e]]; [|done]. simpl in Hc.
  destruct (grid_x self2), (grid_y self2), (anchor_w self2), (anchor_h self2);
    try done.
  destruct targets as [tg|]; [|done].
  destruct (scaled_anchors self2); [|done].
  by destruct (build_targets _ _ _ _ _ _).
Qed.

(** C8, as the code has it: over any sequence of [forward] calls the
    fields [num_classes], [anchors], [scale_x_y] and [ignore_thresh]
    (and [num_anchors]) keep their constructor-supplied values; [stride]
    is not among them, for [compute_grid_offsets] assigns it. *)
Theorem config_fields_unchanged (calls : list (Input * option (T2 float) * Z))
    (num_classes0 : nat) (anchors0 : list anchor)
    (stride0 scale_x_y0 ignore_thresh0 : float) :
  let self' := forward_all exp log sigmoid rotated_iou calls
                 (init num_classes0 anchors0 stride0 scale_x_y0 ignore_thresh0) in
  num_classes self' = num_classes0 ∧ anchors self' = anchors0 ∧
  num_anchors self' = length anchors0 ∧
  scale_x_y self' = scale_x_y0 ∧ ignore_thresh self' = ignore_thresh0.
Proof.
  cbv zeta.
  assert (H : ∀ self,
    let self' := forward_all exp log sigmoid rotated_iou calls self in
    num_classes self' = num_classes self ∧ anchors self' = anchors self ∧
    num_anchors self' = num_anchors self ∧ scale_x_y self' = scale_x_y self ∧
    ignore_thresh self' = ignore_thresh self).
  { unfold forward_all. induction calls as [|[[x tg] img] calls IH]; intros self.
    - done.
    - simpl. pose proof (forward_frame x tg img self) as Hf.
      pose proof (IH (forward x tg img self).1) as Hi. cbv zeta in *.
      intuition congruence. }
  apply H.
Qed.

Lemma get_outputs_ext (s1 s2 : YoloLayer) (p : T4 (list float)) :
  scale_x_y s1 = scale_x_y s2 -> get_outputs sigmoid s1 p = get_outputs sigmoid s2 p.
Proof. intros H. unfold get_outputs. by rewrite H. Qed.

(** A healthy layer stays healthy across a call that returns. *)
Lemma forward_layer_ok (x : Input) (targets : option (T2 float)) (img : Z)
    (self : YoloLayer) :
  layer_ok self ->
  is_Ok (forward x targets img self).2 = true ->
  layer_ok (forward x targets img self).1.
Proof.
  intros Hok. destruct (x_shape x) as [[[N CH] H] G] eqn:Hshape.
  rewrite (forward_run _ _ _ _ _ _ _ _ _ _ _ _ Hshape). cbv zeta.
  destruct (view5 _ _ _ _ _ _) as [p0|e]; [|done].
  set (cg := if decide (G ≠ grid_size self)
             then compute_grid_offsets G (set_img_size img self)
             else (set_img_size img self, Ok tt)).
  assert (Hc : cg.2 = Ok tt -> layer_ok cg.1).
  { subst cg. destruct Hok as (Hlen & Hne & Hcache). case_decide as Hg; [|done].
    rewrite compute_grid_offsets_run.
    destruct (py_int_div _ G) as [s|e] eqn:Hd; [|done]. cbv zeta.
    match goal with |- context [traverse ?f ?l] =>
      destruct (traverse f l) as [sa|e] eqn:Hsa end; [|done].
    destruct (decide (sa = [])); [done|].
    destruct (negb (length sa =? num_anchors (set_img_size img self))) eqn:Hl;
      [done|].
    intros _. simpl. split_and!; try done. intros _.
    unfold cached_geometry. simpl. split_and!; try done.
    exists sa. split_and!; try done.
    apply negb_false_iff, Nat.eqb_eq in Hl. done. }
  destruct cg as [self2 [[]|e]]; [|done]. specialize (Hc eq_refl).
  cbn [fst snd] in Hc.
  destruct (grid_x self2), (grid_y self2), (anchor_w self2), (anchor_h self2);
    try done.
  destruct targets as [tg|].
  - destruct (scaled_anchors self2); [|done].
    destruct (build_targets _ _ _ _ _ _); [|done].
    intros _. exact Hc.
  - intros _. exact Hc.
Qed.


(** The state a call leaves: that of the grid-size test, with [metrics]
    replaced when the loss was computed. *)
Lemma forward_state (x : Input) (targets : option (T2 float)) (img : Z)
    (self self2 : YoloLayer) (N CH H G : nat) (u : unit) :
  x_shape x = (N, CH, H, G) ->
  is_Ok (view5 x N (num_anchors self) (num_classes self + 7) G G) = true ->
  (if decide (G ≠ grid_size self)
   then compute_grid_offsets G (set_img_size img self)
   else (set_img_size img self, Ok tt)) = (self2, Ok u) ->
  (forward x targets img self).1 = self2 ∨
  ∃ m, (forward x targets img self).1 = set_metrics m self2.
Proof.
  intros Hshape Hv Hcg.
  rewrite (forward_run _ _ _ _ _ _ _ _ _ _ _ _ Hshape). cbv zeta.
  destruct (view5 _ _ _ _ _ _) as [p0|e]; [|done]. rewrite Hcg.
  destruct (grid_x self2), (grid_y self2), (anchor_w self2), (anchor_h self2);
    try (by left).
  destruct targets as [tg|]; [|by left].
  destruct (scaled_anchors self2); [|by left].
  destruct (build_targets _ _ _ _ _ _); [|by left].
  right. by eexists.
Qed.

End ForwardClaims.

(** ** Reductions over an empty selection *)

Lemma filter_mask_none {A} (l : list A) (mask : list bool) :
  Forall (fun b => b = false) mask ->
  filter (fun p : A * bool => p.2 = true) (zip l mask) = [].
Proof.
  intros Hm. revert l. induction Hm as [|b mask -> _ IH]; intros [|x l]; try done.
  simpl. rewrite filter_cons. simpl. apply IH.
Qed.

Lemma masked_select_none {A} (t : T4 A) (n1 n2 n3 n4 : nat) :
  masked_select t (full4 n1 n2 n3 n4 false) = [].
Proof.
  unfold masked_select. rewrite filter_mask_none; [done|].
  unfold flatten4, full4. repeat apply Forall_join.
  repeat apply Forall_replicate. done.
Qed.

Lemma add_nan_r (a : float) : F32.add a S754_nan = S754_nan.
Proof. by destruct a. Qed.

Lemma mul_nan_r (a : float) : F32.mul a S754_nan = S754_nan.
Proof. by destruct a. Qed.

Lemma mean_nil : mean [] = S754_nan.
Proof. reflexivity. Qed.

Section EmptySelection.
Variable log : float -> float.

(** With nothing selected by [obj_mask], every term taken over it is the
    mean of no element, [0 / 0]. *)
Lemma compute_loss_none (self : YoloLayer) (o : Outputs) (t : Targets)
    (n1 n2 n3 n4 : nat) :
  obj_mask t = full4 n1 n2 n3 n4 false ->
  let l := compute_loss log self o t in
  loss_x l = S754_nan ∧ loss_y l = S754_nan ∧ loss_w l = S754_nan ∧
  loss_h l = S754_nan ∧ loss_im l = S754_nan ∧ loss_re l = S754_nan ∧
  loss_conf l = S754_nan ∧ loss_cls l = S754_nan ∧ total_loss l = S754_nan.
Proof.
  intros Hobj. unfold compute_loss. cbv zeta. cbn [loss_x loss_y loss_w loss_h
    loss_im loss_re loss_conf loss_cls total_loss].
  rewrite Hobj, !masked_select_none.
  change (mjoin (@nil (list float))) with (@nil float).
  unfold mse_loss, bce_loss. cbn [zip_with]. rewrite mean_nil.
  rewrite mul_nan_r. split_and!; reflexivity.
Qed.
End EmptySelection.

(** ** Shape errors *)

Lemma slice_cols_take {A} (lo hi n : nat) (m : T2 A) :
  lo ≤ hi -> hi ≤ n -> slice_cols lo hi (take n <$> m) = slice_cols lo hi m.
Proof.
  intros Hlo Hhi. unfold slice_cols. rewrite <- list_fmap_compose.
  apply list_fmap_ext. intros _ r _. simpl.
  rewrite !take_drop_commute, take_take. do 2 f_equal. lia.
Qed.

Lemma view5_Raise (x : Input) (n1 n2 n3 n4 n5 : nat) :
  n1 * n2 * n3 * n4 * n5 ≠ numel x -> view5 x n1 n2 n3 n4 n5 = Raise RuntimeError.
Proof.
  intros Hne. unfold view5.
  by rewrite (proj2 (Nat.eqb_neq _ _) Hne).
Qed.

Section Failures.
Variable exp : float -> float.
Variable log : float -> float.
Variable sigmoid : float -> float.
Variable rotated_iou : anchor -> float -> float -> float -> float -> float.

Local Abbreviation forward := (forward exp log sigmoid rotated_iou).

Lemma build_targets_nil (self : YoloLayer) (nB nA nG nG' nC : nat)
    (anchors : list anchor) :
  ∃ t, build_targets log rotated_iou self (nB, nA, nG, nG', nC) [] anchors = Ok t ∧
       obj_mask t = full4 nB nA nG nG false.
Proof. by eexists. Qed.


(** C7, as the code has it: the only shape test of [forward] is that of
    the reshape, which raises before anything is decoded when the element
    count is not [N * num_anchors * (7 + num_classes) * G * G], as it is
    on a square grid with a wrong channel count; [build_targets] raises on
    a ground-truth row of fewer than eight fields and reads rows of more
    than eight fields as their first eight. *)
Theorem shape_checks (x : Input) (targets : option (T2 float)) (img : Z)
    (self : YoloLayer) (N CH H G : nat) :
  x_shape x = (N, CH, H, G) ->
  (N * num_anchors self * (num_classes self + 7) * G * G ≠ numel x ->
     forward x targets img self = (set_img_size img self, Raise RuntimeError)) ∧
  (H = G -> 0 < N -> 0 < G -> CH ≠ num_anchors self * (num_classes self + 7) ->
     forward x targets img self = (set_img_size img self, Raise RuntimeError)) ∧
  (∀ sz target anchors row,
     row ∈ target -> length row < 8 ->
     is_Ok (build_targets log rotated_iou self sz target anchors) = false) ∧
  (∀ sz target anchors,
     build_targets log rotated_iou self sz target anchors =
     build_targets log rotated_iou self sz (take 8 <$> target) anchors).
Proof.
  intros Hshape.
  assert (Hraise : N * num_anchors self * (num_classes self + 7) * G * G ≠ numel x ->
            forward x targets img self = (set_img_size img self, Raise RuntimeError)).
  { intros Hne. rewrite (forward_run _ _ _ _ _ _ _ _ _ _ _ _ Hshape). cbv zeta.
    by rewrite view5_Raise. }
  split_and!.
  - exact Hraise.
  - intros -> HN HG Hch. apply Hraise. unfold numel. rewrite Hshape.
    intros Heq. apply Hch.
    assert (Hpos : 0 < N * G * G) by (apply Nat.mul_pos_pos; [apply Nat.mul_pos_pos|]; lia).
    apply (Nat.mul_cancel_r _ _ (N * G * G)); [lia|]. lia.
  - intros [[[[nB nA] nG] nG'] nC] target anchors row Hin Hlen.
    destruct (build_targets _ _ _ _ _ _) as [out|e] eqn:Hbt; [|done].
    exfalso. apply build_targets_inv in Hbt
      as (boxes & _ & _ & _ & Hboxes & _); [|by intros ->; apply elem_of_nil in Hin].
    apply list_elem_of_lookup in Hin as [k Hk].
    destruct (Forall2_lookup_l _ _ _ _ _ Hboxes Hk) as (bx & _ & Hread).
    destruct row as [|? [|? [|? [|? [|? [|? [|? [|? ?]]]]]]]]; try done.
    simpl in Hlen. lia.
  - intros [[[[nB nA] nG] nG'] nC] target anchors. unfold build_targets.
    rewrite !(slice_cols_take _ _ 8) by lia. by rewrite length_fmap.
Qed.
End Failures.

(** ** Shapes and element-wise operations *)

Lemma lookup_tab {A} (n : nat) (f : nat -> A) (i : nat) :
  i < n -> tab n f !! i = Some (f i).
Proof. intros Hi. unfold tab. by rewrite list_lookup_fmap, lookup_seq_lt. Qed.

Lemma length_tab {A} (n : nat) (f : nat -> A) : length (tab n f) = n.
Proof. unfold tab. by rewrite length_fmap, length_seq. Qed.

Lemma Forall_tab {A} (P : A -> Prop) (n : nat) (f : nat -> A) :
  (∀ i, i < n -> P (f i)) -> Forall P (tab n f).
Proof.
  intros H. unfold tab. apply Forall_fmap, Forall_forall.
  intros i Hi%elem_of_seq. apply H. lia.
Qed.

Lemma shape4_get4 {A} (n1 n2 n3 n4 : nat) (t : T4 A) (b a j i : nat) :
  shape4 n1 n2 n3 n4 t -> b < n1 -> a < n2 -> j < n3 -> i < n4 ->
  is_Some (get4 t (b, a, j, i)).
Proof.
  intros [H1 H] Hb Ha Hj Hi. unfold get4.
  destruct (lookup_lt_is_Some_2 t b) as [t1 Ht1]; [lia|]. rewrite Ht1. simpl.
  rewrite Forall_lookup in H. destruct (H _ _ Ht1) as [H2 H'].
  destruct (lookup_lt_is_Some_2 t1 a) as [t2 Ht2]; [lia|]. rewrite Ht2. simpl.
  rewrite Forall_lookup in H'. destruct (H' _ _ Ht2) as [H3 H''].
  destruct (lookup_lt_is_Some_2 t2 j) as [t3 Ht3]; [lia|]. rewrite Ht3. simpl.
  rewrite Forall_lookup in H''. specialize (H'' _ _ Ht3).
  apply lookup_lt_is_Some_2. lia.
Qed.

Lemma shape4_map4 {A B} (f : A -> B) (n1 n2 n3 n4 : nat) (t : T4 A) :
  shape4 n1 n2 n3 n4 t -> shape4 n1 n2 n3 n4 (map4 f t).
Proof.
  intros [H1 H]. unfold map4. split; [by rewrite length_fmap|].
  apply Forall_fmap. eapply Forall_impl; [exact H|]. intros t1 [H2 H']. simpl.
  split; [by rewrite length_fmap|].
  apply Forall_fmap. eapply Forall_impl; [exact H'|]. intros t2 [H3 H'']. simpl.
  split; [by rewrite length_fmap|].
  apply Forall_fmap. eapply Forall_impl; [exact H''|]. intros t3 H4. simpl.
  by rewrite length_fmap.
Qed.

Lemma Forall_zip_with {A B C} (P : C -> Prop) (Q : A -> Prop) (R : B -> Prop)
    (f : A -> B -> C) (l : list A) (k : list B) :
  (∀ x y, Q x -> R y -> P (f x y)) -> Forall Q l -> Forall R k ->
  Forall P (zip_with f l k).
Proof.
  intros Hf Hl. revert k. induction Hl as [|x l Hx _ IH]; intros k Hk; [constructor|].
  destruct Hk as [|y k Hy Hk]; [constructor|]. simpl. constructor; auto.
Qed.

Lemma shape4_zip_with4 {A B C} (f : A -> B -> C) (n1 n2 n3 n4 : nat)
    (t : T4 A) (u : T4 B) :
  shape4 n1 n2 n3 n4 t -> shape4 n1 n2 n3 n4 u -> shape4 n1 n2 n3 n4 (zip_with4 f t u).
Proof.
  intros [H1 H] [K1 K]. unfold zip_with4.
  split; [by rewrite length_zip_with_l_eq by congruence|].
  eapply Forall_zip_with; [|exact H|exact K]. intros t1 u1 [H2 H'] [K2 K']. simpl.
  split; [by rewrite length_zip_with_l_eq by congruence|].
  eapply Forall_zip_with; [|exact H'|exact K']. intros t2 u2 [H3 H''] [K3 K'']. simpl.
  split; [by rewrite length_zip_with_l_eq by congruence|].
  eapply Forall_zip_with; [|exact H''|exact K'']. intros t3 u3 H4 K4. simpl.
  by rewrite length_zip_with_l_eq by congruence.
Qed.

Lemma get4_zip_with4 {A B C} (f : A -> B -> C) (t : T4 A) (u : T4 B) (ix : idx4) :
  get4 (zip_with4 f t u) ix = (x ← get4 t ix; y ← get4 u ix; Some (f x y)).
Proof.
  destruct ix as [[[b a] j] i]. unfold get4, zip_with4.
  rewrite lookup_zip_with.
  destruct (t !! b) as [t1|]; simpl; [|done].
  destruct (u !! b) as [u1|]; simpl.
  2: { by destruct (t1 !! a ≫= _). }
  rewrite lookup_zip_with.
  destruct (t1 !! a) as [t2|]; simpl; [|done].
  destruct (u1 !! a) as [u2|]; simpl.
  2: { by destruct (t2 !! j ≫= _). }
  rewrite lookup_zip_with.
  destruct (t2 !! j) as [t3|]; simpl; [|done].
  destruct (u2 !! j) as [u3|]; simpl.
  2: { by destruct (t3 !! i). }
  by rewrite lookup_zip_with.
Qed.

(** ** Broadcasting *)

(** The index a broadcast dimension of size [m] is read at. *)
Lemma length_bzip {A B C} (f : A -> B -> C) (xs : list A) (ys : list B) :
  length ys = 1 ∨ length ys = length xs -> length (bzip f xs ys) = length xs.
Proof.
  intros H. unfold bzip. destruct ys as [|y [|y' ys]].
  - destruct H as [H|H]; [done|]. by destruct xs.
  - by rewrite length_fmap.
  - destruct H as [H|H]; [done|]. destruct xs as [|x [|x' xs]]; try done.
    rewrite length_zip_with_l_eq; [done|]. by rewrite H.
Qed.

Lemma lookup_bzip {A B C} (f : A -> B -> C) (xs : list A) (ys : list B) (i : nat) :
  length ys = 1 ∨ length ys = length xs ->
  bzip f xs ys !! i =
  (x ← xs !! i; y ← ys !! (if decide (length ys = 1) then 0 else i); Some (f x y)).
Proof.
  intros H. unfold bzip. destruct ys as [|y [|y' ys]].
  - destruct H as [H|H]; [done|]. by destruct xs.
  - rewrite list_lookup_fmap. simpl. by destruct (xs !! i).
  - destruct H as [H|H]; [done|]. destruct xs as [|x [|x' xs]]; try done.
    rewrite lookup_zip_with. simpl length. rewrite decide_False by lia. done.
Qed.

Lemma Forall_bzip {A B C} (P : C -> Prop) (Q : A -> Prop) (R : B -> Prop)
    (f : A -> B -> C) (xs : list A) (ys : list B) :
  (∀ x y, Q x -> R y -> P (f x y)) -> Forall Q xs -> Forall R ys ->
  Forall P (bzip f xs ys).
Proof.
  intros Hf Hx Hy. unfold bzip. destruct ys as [|y [|y' ys]].
  - destruct xs as [|x [|x' xs]]; [constructor|constructor|].
    eapply Forall_zip_with; eauto.
  - apply Forall_fmap. eapply Forall_impl; [exact Hx|]. intros x HQ. simpl.
    apply Hf; [done|]. by apply Forall_cons in Hy as [? _].
  - destruct xs as [|x [|x' xs]]; [constructor| |].
    + apply Forall_fmap. eapply Forall_impl; [exact Hy|]. intros y0 HR. simpl.
      apply Hf; [|done]. by apply Forall_cons in Hx as [? _].
    + eapply Forall_zip_with; eauto.
Qed.

Lemma shape4_bzip4 {A B C} (f : A -> B -> C) (n1 n2 n3 n4 m1 m2 m3 m4 : nat)
    (x : T4 A) (y : T4 B) :
  shape4 n1 n2 n3 n4 x -> shape4 m1 m2 m3 m4 y ->
  m1 = 1 ∨ m1 = n1 -> m2 = 1 ∨ m2 = n2 -> m3 = 1 ∨ m3 = n3 -> m4 = 1 ∨ m4 = n4 ->
  shape4 n1 n2 n3 n4 (bzip4 f x y).
Proof.
  intros [H1 H] [K1 K] E1 E2 E3 E4. unfold bzip4.
  split; [rewrite length_bzip; [done|lia]|].
  eapply Forall_bzip; [|exact H|exact K]. intros x1 y1 [H2 H'] [K2 K']. simpl.
  split; [rewrite length_bzip; [done|lia]|].
  eapply Forall_bzip; [|exact H'|exact K']. intros x2 y2 [H3 H''] [K3 K'']. simpl.
  split; [rewrite length_bzip; [done|lia]|].
  eapply Forall_bzip; [|exact H''|exact K'']. intros x3 y3 H4 K4. simpl in *.
  rewrite length_bzip; [done|lia].
Qed.

Lemma get4_bzip4 {A B C} (f : A -> B -> C) (n1 n2 n3 n4 m1 m2 m3 m4 : nat)
    (x : T4 A) (y : T4 B) (b a j i : nat) :
  shape4 n1 n2 n3 n4 x -> shape4 m1 m2 m3 m4 y ->
  m1 = 1 ∨ m1 = n1 -> m2 = 1 ∨ m2 = n2 -> m3 = 1 ∨ m3 = n3 -> m4 = 1 ∨ m4 = n4 ->
  get4 (bzip4 f x y) (b, a, j, i) =
  (u ← get4 x (b, a, j, i);
   v ← get4 y (bcast_index m1 b, bcast_index m2 a, bcast_index m3 j, bcast_index m4 i);
   Some (f u v)).
Proof.
  intros [H1 H] [K1 K] E1 E2 E3 E4. unfold bzip4, get4, bcast_index.
  rewrite lookup_bzip by lia. rewrite K1.
  destruct (x !! b) as [x1|] eqn:Hx1; simpl; [|done].
  destruct (y !! _) as [y1|] eqn:Hy1; simpl.
  2: { by destruct (x1 !! a ≫= _). }
  rewrite Forall_lookup in H. destruct (H _ _ Hx1) as [H2 H'].
  rewrite Forall_lookup in K. destruct (K _ _ Hy1) as [K2 K'].
  rewrite lookup_bzip by lia. rewrite K2.
  destruct (x1 !! a) as [x2|] eqn:Hx2; simpl; [|done].
  destruct (y1 !! _) as [y2|] eqn:Hy2; simpl.
  2: { by destruct (x2 !! j ≫= _). }
  rewrite Forall_lookup in H'. destruct (H' _ _ Hx2) as [H3 H''].
  rewrite Forall_lookup in K'. destruct (K' _ _ Hy2) as [K3 K''].
  rewrite lookup_bzip by lia. rewrite K3.
  destruct (x2 !! j) as [x3|] eqn:Hx3; simpl; [|done].
  destruct (y2 !! _) as [y3|] eqn:Hy3; simpl.
  2: { by destruct (x3 !! i). }
  rewrite Forall_lookup in H''. specialize (H'' _ _ Hx3).
  rewrite Forall_lookup in K''. specialize (K'' _ _ Hy3).
  rewrite lookup_bzip by lia. by rewrite K''.
Qed.

Lemma bcast_index_one (k : nat) : bcast_index 1 k = 0.
Proof. done. Qed.

Lemma bcast_index_same (m k : nat) : k < m -> bcast_index m k = k.
Proof. intros H. unfold bcast_index. case_decide; lia. Qed.

(** ** Flattening *)

Lemma lookup_join_uniform {A} (n : nat) (ls : list (list A)) (j i : nat) :
  Forall (fun l => length l = n) ls -> i < n ->
  mjoin ls !! (j * n + i) = ls !! j ≫= (.!! i).
Proof.
  intros Hall Hi. apply option_eq. intros x.
  rewrite (join_lookup_Some_same_length' n) by done.
  destruct (ls !! j) as [l|]; simpl; naive_solver.
Qed.

Lemma length_join_uniform {A} (n : nat) (ls : list (list A)) :
  Forall (fun l => length l = n) ls -> length (mjoin ls) = length ls * n.
Proof. intros Hall. by rewrite length_join, (sum_list_fmap_same n). Qed.

Lemma Forall_join_uniform {A} (n m : nat) (t3 : T3 A) :
  Forall (fun t2 => length t2 = n ∧ Forall (fun row => length row = m) t2) t3 ->
  Forall (fun row => length row = m) (mjoin t3) ∧
  Forall (fun t2 => length t2 = n) t3.
Proof.
  intros H. split.
  - apply Forall_join. eapply Forall_impl; [exact H|]. by intros ? [_ ?].
  - eapply Forall_impl; [exact H|]. by intros ? [? _].
Qed.

(** [view(N, -1, k)] keeps the row of slot [(a, j, i)] at [(a * G + j) * G + i]. *)
Lemma lookup_view3 {A} (n1 n2 n3 n4 : nat) (t : T4 A) (b a j i : nat) :
  shape4 n1 n2 n3 n4 t -> j < n3 -> i < n4 ->
  view3 t !! b ≫= (.!! ((a * n3 + j) * n4 + i)) = get4 t (b, a, j, i).
Proof.
  intros [H1 H] Hj Hi. unfold view3, get4. rewrite list_lookup_fmap.
  destruct (t !! b) as [t3|] eqn:Ht3; simpl; [|done].
  rewrite Forall_lookup in H. destruct (H _ _ Ht3) as [H2 H'].
  destruct (Forall_join_uniform _ _ _ H') as [Hrows Hlen].
  rewrite (lookup_join_uniform n4) by done.
  rewrite (lookup_join_uniform n3) by done.
  by destruct (t3 !! a).
Qed.

Lemma length_view3 {A} (n1 n2 n3 n4 : nat) (t : T4 A) :
  shape4 n1 n2 n3 n4 t ->
  length (view3 t) = n1 ∧ Forall (fun rows => length rows = n2 * n3 * n4) (view3 t).
Proof.
  intros [H1 H]. unfold view3. split; [by rewrite length_fmap|].
  apply Forall_fmap. eapply Forall_impl; [exact H|]. intros t3 [H2 H']. simpl.
  destruct (Forall_join_uniform _ _ _ H') as [Hrows Hlen].
  rewrite (length_join_uniform n4) by done.
  rewrite (length_join_uniform n3) by done. by rewrite H2.
Qed.

Lemma lookup_cat_last (u v : T3 float) (b r : nat) :
  cat_last u v !! b ≫= (.!! r) =
  (p ← u !! b ≫= (.!! r); q ← v !! b ≫= (.!! r); Some (p ++ q)).
Proof.
  unfold cat_last. rewrite lookup_zip_with.
  destruct (u !! b) as [u1|]; simpl; [|done].
  destruct (v !! b) as [v1|]; simpl; [|by destruct (u1 !! r)].
  by rewrite lookup_zip_with.
Qed.

Lemma length_cat_last (n m : nat) (u v : T3 float) :
  length u = n -> length v = n ->
  Forall (fun rows => length rows = m) u -> Forall (fun rows => length rows = m) v ->
  length (cat_last u v) = n ∧ Forall (fun rows => length rows = m) (cat_last u v).
Proof.
  intros Hu Hv Fu Fv. unfold cat_last.
  split; [by rewrite length_zip_with_l_eq by congruence|].
  eapply Forall_zip_with; [|exact Fu|exact Fv]. intros x y Hx Hy. simpl in *.
  by rewrite length_zip_with_l_eq by congruence.
Qed.

(** ** The prediction tensor *)

Lemma seq_total {A} `{!Inhabited A} (n : nat) (f : nat -> A) (k : nat) :
  k < n -> (f <$> seq 0 n) !!! k = f k.
Proof.
  intros Hk. apply list_lookup_total_correct.
  by rewrite list_lookup_fmap, lookup_seq_lt.
Qed.

Lemma tab_total (n : nat) (f : nat -> float) (k : nat) :
  k < n -> tab n f !!! k = f k.
Proof. apply seq_total. Qed.

(** Channel [k] of slot [(b, a, j, i)] in the storage of the input. *)
Lemma prediction_spec (x : Input) (N A K G : nat) (p0 : T4 (list float)) :
  view5 x N A K G G = Ok p0 ->
  let prediction := permute_01342 G G p0 in
  shape4 N A G G prediction ∧
  ∀ b a j i, b < N -> a < A -> j < G -> i < G ->
    get4 prediction (b, a, j, i) =
    Some (tab K (fun k => x_data x !!! ((((b * A + a) * K + k) * G + j) * G + i))).
Proof.
  unfold view5. destruct (negb _); [done|]. intros [= <-]. cbv zeta.
  unfold permute_01342. split.
  - split; [by rewrite length_fmap, length_tab|].
    apply Forall_fmap, Forall_tab. intros b Hb. simpl.
    split; [by rewrite length_fmap, length_tab|].
    apply Forall_fmap, Forall_tab. intros a Ha. simpl.
    split; [by rewrite length_tab|].
    apply Forall_tab. intros j Hj. by rewrite length_tab.
  - intros b a j i Hb Ha Hj Hi. unfold get4.
    rewrite list_lookup_fmap, lookup_tab by done. simpl.
    rewrite list_lookup_fmap, lookup_tab by done. simpl.
    rewrite lookup_tab by done. simpl. rewrite lookup_tab by done. f_equal.
    unfold tab. rewrite <- list_fmap_compose. apply list_fmap_ext.
    intros _ k _. unfold compose. cbv beta. by rewrite !seq_total by done.
Qed.

Lemma drop_tab {A} (m n : nat) (f : nat -> A) :
  drop m (tab (n + m) f) = tab n (fun c => f (m + c)).
Proof.
  unfold tab. rewrite <- fmap_drop, drop_seq.
  replace (n + m - m) with n by lia. replace (0 + m) with (m + 0) by lia.
  by rewrite <- fmap_add_seq, <- list_fmap_compose.
Qed.

Lemma lookup_fmap2 {A B} (g : A -> B) (u : T2 A) (b r : nat) :
  (fmap (M := list) (fmap (M := list) g) u) !! b ≫= (.!! r) = g <$> (u !! b ≫= (.!! r)).
Proof.
  rewrite list_lookup_fmap. destruct (u !! b) as [u1|]; simpl; [|done].
  by rewrite list_lookup_fmap.
Qed.

Ltac shape_tac :=
  repeat first
    [ assumption
    | apply shape4_map4
    | apply shape4_zip_with4
    | eapply shape4_bzip4; [| eassumption | | | |]
    | lia ].

(** ** Decoding one slot *)

Section Decode.
Variable exp : float -> float.
Variable sigmoid : float -> float.

Lemma decode_row (self : YoloLayer) (pred : T4 (list float))
    (gx gy aw ah : T4 float) (N A G C : nat) (raw : nat -> float)
    (b a j i : nat) (gxv gyv awv ahv : float) :
  shape4 N A G G pred ->
  get4 pred (b, a, j, i) = Some (tab (C + 7) raw) ->
  shape4 1 1 G G gx -> shape4 1 1 G G gy ->
  shape4 1 A 1 1 aw -> shape4 1 A 1 1 ah ->
  get4 gx (0, 0, j, i) = Some gxv -> get4 gy (0, 0, j, i) = Some gyv ->
  get4 aw (0, a, 0, 0) = Some awv -> get4 ah (0, a, 0, 0) = Some ahv ->
  b < N -> a < A -> j < G -> i < G ->
  decode exp self pred (get_outputs sigmoid self pred) gx gy aw ah !! b
    ≫= (.!! ((a * G + j) * G + i)) =
  Some (decoded_row exp sigmoid (scale_x_y self) (stride self) C raw
          gxv gyv awv ahv).
Proof.
  intros Hsh Hpred Sgx Sgy Saw Sah Hgx Hgy Haw Hah Hb Ha Hj Hi.
  assert (Hsel : ∀ k, k < C + 7 ->
            get4 (select_last k pred) (b, a, j, i) = Some (raw k)).
  { intros k Hk. unfold select_last. rewrite get4_map4, Hpred. simpl.
    by rewrite tab_total. }
  assert (Hbx : bcast_index 1 b = 0 ∧ bcast_index 1 a = 0 ∧
                bcast_index G j = j ∧ bcast_index G i = i ∧
                bcast_index A a = a ∧ bcast_index 1 j = 0 ∧ bcast_index 1 i = 0).
  { split_and!; first [apply bcast_index_one | by apply bcast_index_same]. }
  destruct Hbx as (B1 & B2 & B3 & B4 & B5 & B6 & B7).
  unfold decode, get_outputs, assign_last. cbv zeta.
  cbn [out_x out_y out_w out_h out_im out_re pred_conf pred_cls].
  rewrite !lookup_cat_last, lookup_fmap2.
  rewrite !(lookup_view3 N A G G) by (done || (unfold select_last; solve [shape_tac])).
  rewrite !get4_map4, !get4_zip_with4, !get4_map4.
  rewrite !(get4_bzip4 F32.add N A G G 1 1 G G _ gx)
    by (done || lia || (unfold select_last; solve [shape_tac])).
  rewrite !(get4_bzip4 F32.add N A G G 1 1 G G _ gy)
    by (done || lia || (unfold select_last; solve [shape_tac])).
  rewrite !(get4_bzip4 F32.mul N A G G 1 A 1 1 _ aw)
    by (done || lia || (unfold select_last; solve [shape_tac])).
  rewrite !(get4_bzip4 F32.mul N A G G 1 A 1 1 _ ah)
    by (done || lia || (unfold select_last; solve [shape_tac])).
  rewrite !get4_map4, !Hsel by lia.
  rewrite B1, B2, B3, B4, B5, B6, B7, Hgx, Hgy, Haw, Hah, Hpred. simpl.
  rewrite drop_tab. unfold decoded_row, tab. rewrite <- list_fmap_compose.
  reflexivity.
Qed.
End Decode.

(** ** Exact binary32 operations *)

Lemma sub_zero_r (x : float) : F32.sub x F32.zero = x.
Proof. by destruct x as [[]|[]| |[] m e]. Qed.

Lemma digits2_shift (m : positive) :
  Zpos (digits2_pos (8388608 * m)) = (Zpos (digits2_pos m) + 23)%Z.
Proof.
  cbv beta iota delta [Pos.mul]. cbn [digits2_pos]. rewrite !Pos2Z.inj_succ. lia.
Qed.

Lemma shr_shift (m : positive) (e : Z) :
  shr (shr_record_of_loc (Z.pos (8388608 * m)) loc_Exact) e 23 =
  ({| shr_m := Z.pos m; shr_r := false; shr_s := false |}, (e + 23)%Z).
Proof. cbv beta iota delta [Pos.mul]. reflexivity. Qed.

(** Multiplication by [1.0] is exact on every binary32 value. *)
Lemma mul_one_r (x : float) :
  valid_binary F32.prec F32.emax x = true -> F32.mul x F32.one = x.
Proof.
  destruct x as [[]|[]| |s m e]; try done.
  intros Hv. simpl in Hv. unfold bounded, canonical_mantissa in Hv.
  apply andb_true_iff in Hv as [Hc He]. apply Z.eqb_eq in Hc.
  change F32.one with (S754_finite false 8388608 (-23)).
  unfold F32.mul, SFmul. rewrite xorb_false_r, Pos.mul_comm.
  unfold binary_round_aux, shr_fexp.
  cbn [Zdigits2]. rewrite digits2_shift.
  replace (Z.pos (digits2_pos m) + 23 + (e + -23))%Z
    with (Z.pos (digits2_pos m) + e)%Z by lia.
  rewrite Hc.
  replace (e - (e + -23))%Z with 23%Z by lia.
  rewrite shr_shift.
  cbn [shr_m loc_of_shr_record shr_r shr_s round_nearest_even Zdigits2].
  replace (e + -23 + 23)%Z with e by lia. rewrite Hc, Z.sub_diag.
  cbn [shr shr_record_of_loc shr_m]. by rewrite He.
Qed.

(** At [scale_x_y = 1] the centre expression is the plain sigmoid. *)
Lemma squash_one (sigmoid : float -> float) (v : float) :
  valid_binary F32.prec F32.emax (sigmoid v) = true ->
  squash sigmoid F32.one v = sigmoid v.
Proof.
  intros Hv. unfold squash. rewrite mul_one_r by done.
  change (F32.mul F32.half (F32.sub F32.one F32.one)) with F32.zero.
  apply sub_zero_r.
Qed.

(** ** The slots of the flattened box list *)

Lemma slot_decompose (A G r : nat) :
  r < A * G * G ->
  ∃ a j i, a < A ∧ j < G ∧ i < G ∧ r = (a * G + j) * G + i.
Proof.
  intros Hr. assert (0 < G) by (destruct G; lia).
  exists (r / G / G), ((r / G) mod G), (r mod G).
  split_and!.
  - apply Nat.Div0.div_lt_upper_bound. apply Nat.Div0.div_lt_upper_bound. lia.
  - apply Nat.mod_upper_bound. lia.
  - apply Nat.mod_upper_bound. lia.
  - pose proof (Nat.div_mod_eq r G). pose proof (Nat.div_mod_eq (r / G) G). lia.
Qed.

Lemma shape4_grid_x (g : nat) : shape4 1 1 g g [[replicate g (tab g F32.of_nat)]].
Proof.
  split; [done|]. apply Forall_singleton. split; [done|]. apply Forall_singleton.
  split; [by rewrite length_replicate|].
  apply Forall_replicate. by rewrite length_tab.
Qed.

Lemma shape4_grid_y (g : nat) :
  shape4 1 1 g g [[transpose F32.zero (replicate g (tab g F32.of_nat))]].
Proof.
  assert (ncols (replicate g (tab g F32.of_nat)) = g) as Hn.
  { destruct g; [done|]. simpl. unfold tab. by rewrite length_fmap, length_seq. }
  split; [done|]. apply Forall_singleton. split; [done|]. apply Forall_singleton.
  unfold transpose. rewrite Hn. split; [by rewrite length_tab|].
  apply Forall_tab. intros i Hi. by rewrite length_fmap, length_replicate.
Qed.

Lemma shape4_anchor {B} (f : anchor -> B) (sa : list anchor) :
  shape4 1 (length sa) 1 1 [(fun a => [[f a]]) <$> sa].
Proof.
  split; [done|]. apply Forall_singleton. split; [by rewrite length_fmap|].
  apply Forall_fmap, Forall_forall. intros a _. simpl.
  split; [done|]. by apply Forall_singleton.
Qed.

Lemma get4_anchor {B} (f : anchor -> B) (sa : list anchor) (a : nat) (anc : anchor) :
  sa !! a = Some anc ->
  get4 [(fun a => [[f a]]) <$> sa] (0, a, 0, 0) = Some (f anc).
Proof. intros H. unfold get4. simpl. by rewrite list_lookup_fmap, H. Qed.

(** ** The shape of the decoded box list *)

Lemma cat_last_rows (n m : nat) (u v : T3 float) :
  length u = n ∧ Forall (fun rows => length rows = m) u ->
  length v = n ∧ Forall (fun rows => length rows = m) v ->
  length (cat_last u v) = n ∧ Forall (fun rows => length rows = m) (cat_last u v).
Proof. intros [? ?] [? ?]. by apply length_cat_last. Qed.

Lemma rows_fmap {A B} (g : A -> B) (n m : nat) (u : T2 A) :
  length u = n ∧ Forall (fun rows => length rows = m) u ->
  length (fmap (M := list) (fmap (M := list) g) u) = n ∧
  Forall (fun rows => length rows = m) (fmap (M := list) (fmap (M := list) g) u).
Proof.
  intros [Hn Hm]. split; [by rewrite length_fmap|].
  apply Forall_fmap. eapply Forall_impl; [exact Hm|].
  intros rows Hr. simpl. by rewrite length_fmap.
Qed.

Lemma Ok_pair_inv {A B} (a a' : A) (b b' : B) :
  Ok (a, b) = Ok (a', b') -> a = a'.
Proof. congruence. Qed.

Section Output.
Variable exp : float -> float.
Variable log : float -> float.
Variable sigmoid : float -> float.
Variable rotated_iou : anchor -> float -> float -> float -> float -> float.

Local Abbreviation forward := (forward exp log sigmoid rotated_iou).

Lemma decode_shape (self : YoloLayer) (pred : T4 (list float))
    (gx gy aw ah : T4 float) (N A G : nat) :
  shape4 N A G G pred ->
  shape4 1 1 G G gx -> shape4 1 1 G G gy ->
  shape4 1 A 1 1 aw -> shape4 1 A 1 1 ah ->
  let output := decode exp self pred (get_outputs sigmoid self pred) gx gy aw ah in
  length output = N ∧ Forall (fun rows => length rows = A * G * G) output.
Proof.
  intros Hsh Sgx Sgy Saw Sah. cbv zeta.
  unfold decode, get_outputs, assign_last. cbv zeta.
  cbn [out_x out_y out_w out_h out_im out_re pred_conf pred_cls].
  repeat apply cat_last_rows; [apply rows_fmap|..];
    apply (length_view3 N A G G); unfold select_last; solve [shape_tac].
Qed.

(** The box list a returning call hands back: the decoding of the
    permuted prediction against the geometry of the incoming grid size. *)
Lemma forward_output (x : Input) (targets : option (T2 float)) (img : Z)
    (self : YoloLayer) (N G : nat) (output : T3 float) (l : loss) :
  layer_ok self -> input_ok self x N G ->
  F32.is_zero (F32.div (F32.of_Z img) (F32.of_nat G)) = false ->
  (forward x targets img self).2 = Ok (output, l) ->
  ∃ self2 p0 sa,
    view5 x N (num_anchors self) (num_classes self + 7) G G = Ok p0 ∧
    scale_x_y self2 = scale_x_y self ∧
    stride (forward x targets img self).1 = stride self2 ∧
    scaled_anchors (forward x targets img self).1 = Some sa ∧
    length sa = num_anchors self ∧
    output =
      decode exp self2 (permute_01342 G G p0)
        (get_outputs sigmoid self2 (permute_01342 G G p0))
        [[replicate G (tab G F32.of_nat)]]
        [[transpose F32.zero (replicate G (tab G F32.of_nat))]]
        [(fun a => [[anchor_width a]]) <$> sa]
        [(fun a => [[anchor_height a]]) <$> sa].
Proof.
  intros Hok [Hshape HG] Hs.
  rewrite (forward_run _ _ _ _ _ _ _ _ _ _ _ _ Hshape). cbv zeta.
  pose proof (view5_Ok x N G (num_anchors self) (num_classes self + 7) _ _
                Hshape eq_refl eq_refl) as Hv.
  destruct (view5 _ _ _ _ _ _) as [p0|e]; [|done].
  destruct (grid_test_Ok G img self Hok HG Hs)
    as (self2 & -> & Hgs & (Hgx & Hgy & sa & Hsa & Hlen & Haw & Hah) & _ & _ & Hna
        & _ & Hsxy & _).
  rewrite Hgx, Hgy, Haw, Hah, Hgs.
  rewrite (get_outputs_ext sigmoid (set_img_size img self) self2) by (by rewrite Hsxy).
  destruct targets as [tg|].
  - rewrite Hsa. destruct (build_targets _ _ _ _ _ _) as [t|e]; [|done].
    cbn [fst snd]. intros <-%Ok_pair_inv. exists self2, p0, sa.
    split; [reflexivity|]. split; [exact Hsxy|]. split; [reflexivity|].
    split; [exact Hsa|]. split; [congruence|]. reflexivity.
  - cbn [fst snd]. intros <-%Ok_pair_inv. exists self2, p0, sa.
    split; [reflexivity|]. split; [exact Hsxy|]. split; [reflexivity|].
    split; [exact Hsa|]. split; [congruence|]. reflexivity.
Qed.
End Output.

Section DecodeClaim.
Variable exp : float -> float.
Variable log : float -> float.
Variable sigmoid : float -> float.
Variable rotated_iou : anchor -> float -> float -> float -> float -> float.

Local Abbreviation forward := (forward exp log sigmoid rotated_iou).

End DecodeClaim.

(** ** The theorems on the sample head

    Two boxes of image 0 that fall into the same cell of a 2 x 2 grid,
    with classes 0 and 1; both anchors overlap them by more than
    [ignore_thresh]. *)

Lemma sample_layer_ok : layer_ok Sample.layer.
Proof. split_and!; [reflexivity|discriminate|]. intros H. by exfalso. Qed.

Lemma sample_input_ok : input_ok Sample.layer Sample.input 1 2.
Proof. split; [reflexivity|lia]. Qed.

Lemma masks_disjoint_sample :
  ∃ out,
    build_targets Sample.log Sample.iou Sample.layer (1, 2, 2, 2, 2)
      [Sample.row_a; Sample.row_b] Sample.scaled = Ok out ∧
    ¬ (get4 (obj_mask out) (0, 0, 1, 1) = Some true ∧
       get4 (noobj_mask out) (0, 0, 1, 1) = Some true).
Proof.
  eexists. split; [vm_compute; reflexivity|].
  apply (masks_disjoint Sample.log Sample.iou Sample.layer 1 2 2 2 2
           [Sample.row_a; Sample.row_b] Sample.scaled).
  vm_compute. reflexivity.
Defined.

Lemma best_slot_marked_sample :
  ∃ out,
    (Z.of_nat 2 < 2 ^ 63)%Z ∧
    build_targets Sample.log Sample.iou Sample.layer (1, 2, 2, 2, 2)
      [Sample.row_a; Sample.row_b] Sample.scaled = Ok out ∧
    [Sample.row_a; Sample.row_b] !! 0 = Some Sample.row_a ∧
    ∃ bx b j i,
      read_box 2 Sample.row_a = Some bx ∧
      norm_index 1 (box_b bx) = Ok b ∧
      norm_index 2 (F32.to_long (box_gy bx)) = Ok j ∧
      norm_index 2 (F32.to_long (box_gx bx)) = Ok i ∧
      get4 (obj_mask out) (b, argmax (box_ious Sample.iou Sample.scaled bx), j, i)
        = Some true ∧
      get4 (noobj_mask out) (b, argmax (box_ious Sample.iou Sample.scaled bx), j, i)
        = Some false.
Proof.
  eexists. split; [lia|]. split; [vm_compute; reflexivity|]. split; [reflexivity|].
  destruct (best_slot_marked Sample.log Sample.iou Sample.layer 1 2 2 2 2
              [Sample.row_a; Sample.row_b] Sample.scaled _ 0 Sample.row_a
              ltac:(lia) ltac:(vm_compute; reflexivity) eq_refl)
    as (bx & b & j & i & H1 & H2 & H3 & H4 & _ & H5 & H6 & _).
  exists bx, b, j, i. repeat (split; [assumption|]). assumption.
Defined.

Lemma ignore_thresh_clears_noobj_sample :
  ∃ out bx anc,
    build_targets Sample.log Sample.iou Sample.layer (1, 2, 2, 2, 2)
      [Sample.row_a; Sample.row_b] Sample.scaled = Ok out ∧
    [Sample.row_a; Sample.row_b] !! 0 = Some Sample.row_a ∧
    read_box 2 Sample.row_a = Some bx ∧
    Sample.scaled !! 1 = Some anc ∧
    F32.gtb (Sample.iou anc (box_gw bx) (box_gh bx) (box_im bx) (box_re bx))
      (ignore_thresh Sample.layer) = true ∧
    argmax (box_ious Sample.iou Sample.scaled bx) = 0 ∧
    ∃ b j i,
      norm_index 1 (box_b bx) = Ok b ∧
      norm_index 2 (F32.to_long (box_gy bx)) = Ok j ∧
      norm_index 2 (F32.to_long (box_gx bx)) = Ok i ∧
      get4 (noobj_mask out) (b, 1, j, i) = Some false.
Proof.
  eexists _, _, _. split; [vm_compute; reflexivity|]. split; [reflexivity|].
  split; [vm_compute; reflexivity|]. split; [reflexivity|].
  split; [vm_compute; reflexivity|]. split; [vm_compute; reflexivity|].
  destruct (ignore_thresh_clears_noobj Sample.log Sample.iou Sample.layer 1 2 2 2 2
              [Sample.row_a; Sample.row_b] Sample.scaled _ 0 Sample.row_a _ 1 _
              ltac:(vm_compute; reflexivity) eq_refl ltac:(vm_compute; reflexivity)
              eq_refl ltac:(vm_compute; reflexivity))
    as (b & j & i & H1 & H2 & H3 & H4 & _).
  exists b, j, i. repeat (split; [assumption|]). assumption.
Defined.

Lemma targets_written_sample :
  ∃ out,
    build_targets Sample.log Sample.iou Sample.layer (1, 2, 2, 2, 2)
      [Sample.row_a; Sample.row_b] Sample.scaled = Ok out ∧
    [Sample.row_a; Sample.row_b] !! 1 = Some Sample.row_b ∧
    ∃ bx ix c,
      read_box 2 Sample.row_b = Some bx ∧
      box_slot Sample.iou 1 2 2 Sample.scaled bx = Ok ix ∧
      norm_index 2 (box_label bx) = Ok c ∧
      get4 (tx out) ix = Some (F32.sub (box_gx bx) (F32.floor (box_gx bx))) ∧
      get4 (tim out) ix = Some (box_im bx) ∧
      get4 (tre out) ix = Some (box_re bx) ∧
      ∀ ix', get4 (tconf out) ix' =
             (fun m : bool => if m then F32.one else F32.zero) <$> get4 (obj_mask out) ix'.
Proof.
  eexists. split; [vm_compute; reflexivity|]. split; [reflexivity|].
  destruct (targets_written Sample.log Sample.iou Sample.layer 1 2 2 2 2
              [Sample.row_a; Sample.row_b] Sample.scaled _ 1 Sample.row_b
              ltac:(vm_compute; reflexivity) eq_refl)
    as (bx & ix & c & anc & H1 & H2 & H3 & _ & _ & _ & Hlast & _ & _ & Hconf).
  exists bx, ix, c. do 3 (split; [assumption|]).
  destruct Hlast as (Hx & _ & _ & _ & Him & Hre).
  { intros k' row' bx' Hk Hrow'. destruct k' as [|[|k']]; [lia|lia|discriminate]. }
  repeat (split; [assumption|]). assumption.
Defined.




Lemma shape_checks_sample :
  x_shape Sample.input = (1, 18, 2, 2) ∧
  1 * num_anchors Sample.layer * (num_classes Sample.layer + 7) * 2 * 2
    = numel Sample.input ∧
  is_Ok (build_targets Sample.log Sample.iou Sample.layer (1, 2, 2, 2, 2)
           [take 7 Sample.row_a] Sample.scaled) = false ∧
  build_targets Sample.log Sample.iou Sample.layer (1, 2, 2, 2, 2)
    [Sample.row_a ++ [F32.one]] Sample.scaled =
  build_targets Sample.log Sample.iou Sample.layer (1, 2, 2, 2, 2)
    [Sample.row_a] Sample.scaled.
Proof.
  split; [reflexivity|]. split; [reflexivity|].
  destruct (shape_checks Sample.exp Sample.log Sample.sigmoid Sample.iou
              Sample.input None 4 Sample.layer 1 18 2 2 eq_refl)
    as (_ & _ & Hshort & Hlong).
  split.
  - apply (Hshort _ _ _ (take 7 Sample.row_a)); [by apply list_elem_of_singleton|].
    vm_compute. lia.
  - exact (Hlong _ _ _).
Defined.


(** ** Where the code departs from the specification *)

(** Two boxes of classes 0 and 1 share the slot [(0, 0, 1, 1)]: the
    slot's [tx] is that of the second box, not the first box's
    [gx - floor gx], and its class row has both entries set, which is
    not the one-hot row of the first box's class. *)
Lemma targets_written_last_wins :
  ∃ out bx ix c,
    build_targets Sample.log Sample.iou Sample.layer (1, 2, 2, 2, 2)
      [Sample.row_a; Sample.row_b] Sample.scaled = Ok out ∧
    read_box 2 Sample.row_a = Some bx ∧
    box_slot Sample.iou 1 2 2 Sample.scaled bx = Ok ix ∧
    norm_index 2 (box_label bx) = Ok c ∧
    get4 (tx out) ix ≠ Some (F32.sub (box_gx bx) (F32.floor (box_gx bx))) ∧
    get4 (tcls out) ix = Some [F32.one; F32.one] ∧
    get4 (tcls out) ix ≠ Some (one_hot 2 c).
Proof.
  eexists _, _, _, _. split; [vm_compute; reflexivity|].
  split; [vm_compute; reflexivity|]. split; [vm_compute; reflexivity|].
  split; [vm_compute; reflexivity|]. split; [|split].
  - vm_compute. discriminate.
  - vm_compute. reflexivity.
  - vm_compute. discriminate.
Qed.

(** A prediction tensor of shape [(1, 36, 1, 2)], whose channel
    dimension is 36 and not [2 * (7 + 2) = 18], is decoded without an
    error; a ground-truth row of nine fields is accepted and gives the
    result of its first eight. *)
Lemma shape_mismatch_accepted :
  let x := {| x_shape := (1, 36, 1, 2); x_data := x_data Sample.input |} in
  let fwd := forward Sample.exp Sample.log Sample.sigmoid Sample.iou in
  36 ≠ num_anchors Sample.layer * (7 + num_classes Sample.layer) ∧
  is_Ok (fwd x None 4%Z Sample.layer).2 = true ∧
  (fwd x None 4%Z Sample.layer).2 = (fwd Sample.input None 4%Z Sample.layer).2 ∧
  length (Sample.row_a ++ [F32.one]) = 9 ∧
  is_Ok (fwd Sample.input (Some [Sample.row_a ++ [F32.one]]) 4%Z Sample.layer).2 = true ∧
  (fwd Sample.input (Some [Sample.row_a ++ [F32.one]]) 4%Z Sample.layer).2 =
  (fwd Sample.input (Some [Sample.row_a]) 4%Z Sample.layer).2.
Proof.
  cbv zeta. split; [by vm_compute|]. split; [vm_compute; reflexivity|].
  split; [vm_compute; reflexivity|]. split; [reflexivity|].
  split; vm_compute; reflexivity.
Qed.

(** One call on a 2 x 2 grid with image size 4 replaces the constructor's
    stride 32 by 2. *)
Lemma stride_overwritten :
  let self := init 2 Sample.anchors (Sample.q 32 1) (Sample.q 1 1) (Sample.q 1 5) in
  let self' := forward_all Sample.exp Sample.log Sample.sigmoid Sample.iou
                 [(Sample.input, None, 4%Z)] self in
  stride self = Sample.q 32 1 ∧ stride self' = Sample.q 2 1 ∧
  stride self' ≠ stride self.
Proof.
  cbv zeta. split; [reflexivity|]. split; [vm_compute; reflexivity|].
  vm_compute. discriminate.
Qed.

(** * Further properties of [forward] *)

(** What a recomputation leaves alone besides the configuration. *)
Lemma compute_grid_offsets_weights (g : nat) (self : YoloLayer) :
  let self' := (compute_grid_offsets g self).1 in
  coord_scale self' = coord_scale self ∧ noobj_scale self' = noobj_scale self ∧
  obj_scale self' = obj_scale self ∧ class_scale self' = class_scale self ∧
  seen self' = seen self ∧ metrics self' = metrics self.
Proof.
  rewrite compute_grid_offsets_run.
  destruct (py_int_div (img_size self) g) as [s|e]; [|done]. cbv zeta.
  match goal with |- context [traverse ?f ?l] => destruct (traverse f l) as [sa|e] end;
    [|done].
  destruct (decide (sa = [])); [done|].
  by destruct (negb (length sa =? num_anchors self)).
Qed.

Section ForwardMore.
Variable exp : float -> float.
Variable log : float -> float.
Variable sigmoid : float -> float.
Variable rotated_iou : anchor -> float -> float -> float -> float -> float.

Local Abbreviation forward := (forward exp log sigmoid rotated_iou).

Lemma forward_weights (x : Input) (targets : option (T2 float)) (img : Z)
    (self : YoloLayer) :
  let self' := (forward x targets img self).1 in
  coord_scale self' = coord_scale self ∧ noobj_scale self' = noobj_scale self ∧
  obj_scale self' = obj_scale self ∧ class_scale self' = class_scale self ∧
  seen self' = seen self.
Proof.
  destruct (x_shape x) as [[[N CH] H] G] eqn:Hshape.
  rewrite (forward_run _ _ _ _ _ _ _ _ _ _ _ _ Hshape). cbv zeta.
  destruct (view5 _ _ _ _ _ _) as [p0|e]; [|done].
  set (cg := if decide (G ≠ grid_size self)
             then compute_grid_offsets G (set_img_size img self)
             else (set_img_size img self, Ok tt)).
  assert (Hc : coord_scale cg.1 = coord_scale self ∧
            noobj_scale cg.1 = noobj_scale self ∧
            obj_scale cg.1 = obj_scale self ∧ class_scale cg.1 = class_scale self ∧
            seen cg.1 = seen self).
  { subst cg. case_decide; [|done].
    pose proof (compute_grid_offsets_weights G (set_img_size img self)) as Hf.
    simpl in Hf. tauto. }
  destruct cg as [self2 [[]|e]]; [|done]. simpl in Hc.
  destruct (grid_x self2), (grid_y self2), (anchor_w self2), (anchor_h self2);
    try done.
  destruct targets as [tg|]; [|done].
  destruct (scaled_anchors self2); [|done].
  by destruct (build_targets _ _ _ _ _ _).
Qed.

(** X1: no sequence of [forward] calls, returning or raising, changes the
    loss weights [coord_scale = 1], [noobj_scale = 1], [obj_scale = 5],
    [class_scale = 1] of the constructor, and the counter [seen] is
    never advanced: it stays 0. *)
Theorem weights_and_seen_unchanged (calls : list (Input * option (T2 float) * Z))
    (num_classes0 : nat) (anchors0 : list anchor)
    (stride0 scale_x_y0 ignore_thresh0 : float) :
  let self' := forward_all exp log sigmoid rotated_iou calls
                 (init num_classes0 anchors0 stride0 scale_x_y0 ignore_thresh0) in
  coord_scale self' = F32.one ∧ noobj_scale self' = F32.one ∧
  obj_scale self' = F32.five ∧ class_scale self' = F32.one ∧ seen self' = 0%Z.
Proof.
  cbv zeta.
  assert (H : ∀ self,
    let self' := forward_all exp log sigmoid rotated_iou calls self in
    coord_scale self' = coord_scale self ∧ noobj_scale self' = noobj_scale self ∧
    obj_scale self' = obj_scale self ∧ class_scale self' = class_scale self ∧
    seen self' = seen self).
  { unfold forward_all. induction calls as [|[[x tg] img] calls IH]; intros self.
    - done.
    - simpl. pose proof (forward_weights x tg img self) as Hf.
      pose proof (IH (forward x tg img self).1) as Hi. cbv zeta in *.
      intuition congruence. }
  apply H.
Qed.

(** X2: the decoded boxes do not depend on the ground truth: a call with
    targets that returns hands back the box list of the same call without
    targets, which returns as well. *)
Theorem boxes_independent_of_targets (x : Input) (tg : T2 float) (img : Z)
    (self : YoloLayer) (output : T3 float) (l : loss) :
  (forward x (Some tg) img self).2 = Ok (output, l) ->
  (forward x None img self).2 = Ok (output, LossInt 0).
Proof.
  destruct (x_shape x) as [[[N CH] H] G] eqn:Hshape. intros Hret.
  rewrite (forward_run _ _ _ _ _ _ _ _ _ _ _ _ Hshape) in Hret.
  rewrite (forward_run _ _ _ _ _ _ _ _ _ _ _ _ Hshape). cbv zeta in *.
  destruct (view5 _ _ _ _ _ _) as [p0|e]; [|done].
  destruct (if decide (G ≠ grid_size self)
            then compute_grid_offsets G (set_img_size img self)
            else (set_img_size img self, Ok tt)) as [self2 [[]|e]]; [|done].
  destruct (grid_x self2), (grid_y self2), (anchor_w self2), (anchor_h self2);
    try done.
  destruct (scaled_anchors self2); [|done].
  destruct (build_targets _ _ _ _ _ _); [|done].
  cbn [fst snd] in *. apply Ok_pair_inv in Hret. by rewrite Hret.
Qed.
End ForwardMore.

Section ForwardState.
Variable exp : float -> float.
Variable log : float -> float.
Variable sigmoid : float -> float.
Variable rotated_iou : anchor -> float -> float -> float -> float -> float.

Local Abbreviation forward := (forward exp log sigmoid rotated_iou).

(** X3: [metrics] is assigned by a training call that returns, and by
    nothing else: a call without targets and a call that raises leave the
    dictionary of the previous training step in place; after a training
    call that returns, its entry ["loss"] is the returned loss and it
    has the nine entries of the loss terms. *)
Theorem metrics_written_by_training (x : Input) (targets : option (T2 float))
    (img : Z) (self : YoloLayer) :
  let r := forward x targets img self in
  (targets = None -> metrics r.1 = metrics self) ∧
  (is_Ok r.2 = false -> metrics r.1 = metrics self) ∧
  (∀ output v, targets ≠ None -> r.2 = Ok (output, LossTensor v) ->
     metrics r.1 !! "loss" = Some v ∧ size (metrics r.1) = 9 ∧
     ∀ k, is_Some (metrics r.1 !! k) ->
       k ∈ ["loss"; "x"; "y"; "w"; "h"; "im"; "re"; "conf"; "cls"]).
Proof.
  destruct (x_shape x) as [[[N CH] H] G] eqn:Hshape.
  rewrite (forward_run _ _ _ _ _ _ _ _ _ _ _ _ Hshape). cbv zeta.
  destruct (view5 _ _ _ _ _ _) as [p0|e]; [|by split_and!].
  set (cg := if decide (G ≠ grid_size self)
             then compute_grid_offsets G (set_img_size img self)
             else (set_img_size img self, Ok tt)).
  assert (Hc : metrics cg.1 = metrics self).
  { subst cg. case_decide; [|done].
    pose proof (compute_grid_offsets_weights G (set_img_size img self)) as Hf.
    simpl in Hf. tauto. }
  destruct cg as [self2 [[]|e]]; cbn [fst snd] in *; [|by split_and!].
  destruct (grid_x self2), (grid_y self2), (anchor_w self2), (anchor_h self2);
    try (by split_and!).
  destruct targets as [tg|]; [|by split_and!].
  destruct (scaled_anchors self2); [|by split_and!].
  destruct (build_targets _ _ _ _ _ _) as [t|e]; [|by split_and!].
  cbn [fst snd]. split; [intros [=]|]. split; [intros [=]|].
  intros output v _ Heq.
  assert (Hv : total_loss (compute_loss log self2
                 (get_outputs sigmoid (set_img_size img self) (permute_01342 G G p0)) t)
               = v) by congruence.
  clear Heq. revert Hv.
  generalize (compute_loss log self2
                (get_outputs sigmoid (set_img_size img self) (permute_01342 G G p0)) t).
  intros ls <-.
  change (metrics (set_metrics (metrics_of ls) self2)) with (metrics_of ls).
  unfold metrics_of. split; [by rewrite lookup_insert|]. split.
  - rewrite !map_size_insert_None, map_size_empty; [done|..];
      by rewrite ?lookup_insert_ne, ?lookup_empty by done.
  - intros k [w Hk].
    repeat (apply lookup_insert_Some in Hk as [[<- _]|[_ Hk]];
            [solve [repeat constructor]|]).
    by rewrite lookup_empty in Hk.
Qed.
End ForwardState.

(** ** The cached geometry across calls *)

Lemma set_img_size_same (self : YoloLayer) :
  set_img_size (img_size self) self = self.
Proof. by destruct self. Qed.

Lemma scaled_anchors_Raise (s : float) (ancs : list anchor) :
  F32.is_zero s = true -> ancs ≠ [] ->
  traverse (fun '(a_w, a_h, im, re) =>
      w ← py_div a_w s; h ← py_div a_h s; Ok (w, h, im, re)) ancs =
  Raise ZeroDivisionError.
Proof.
  intros Hs Hne. destruct ancs as [|[[[a_w a_h] im] re] ancs]; [done|].
  simpl. unfold py_div. by rewrite Hs.
Qed.

Section Cache.
Variable exp : float -> float.
Variable log : float -> float.
Variable sigmoid : float -> float.
Variable rotated_iou : anchor -> float -> float -> float -> float -> float.

Local Abbreviation forward := (forward exp log sigmoid rotated_iou).


End Cache.

(** * Further properties of [build_targets] *)

(** ** Shapes *)

Lemma shape4_full4 {A} (n1 n2 n3 n4 : nat) (v : A) :
  shape4 n1 n2 n3 n4 (full4 n1 n2 n3 n4 v).
Proof.
  unfold full4. split; [by rewrite length_replicate|].
  apply Forall_replicate. split; [by rewrite length_replicate|].
  apply Forall_replicate. split; [by rewrite length_replicate|].
  apply Forall_replicate. by rewrite length_replicate.
Qed.

Lemma Forall_alter_keep {A} (P : A -> Prop) (f : A -> A) (l : list A) (i : nat) :
  (∀ x, P x -> P (f x)) -> Forall P l -> Forall P (alter f i l).
Proof.
  intros Hf Hl. apply Forall_alter; [done|]. intros x _. apply Hf.
Qed.

Lemma shape4_alter4 {A} (f : A -> A) (n1 n2 n3 n4 : nat) (t : T4 A) (ix : idx4) :
  shape4 n1 n2 n3 n4 t -> shape4 n1 n2 n3 n4 (alter4 f t ix).
Proof.
  destruct ix as [[[b a] j] i]. intros [H1 H]. unfold alter4.
  split; [by rewrite length_alter|].
  apply Forall_alter_keep; [|done]. intros t1 [H2 H'].
  split; [by rewrite length_alter|].
  apply Forall_alter_keep; [|done]. intros t2 [H3 H''].
  split; [by rewrite length_alter|].
  apply Forall_alter_keep; [|done]. intros t3 H4. by rewrite length_alter.
Qed.

Lemma shape4_foldl {A B} (g : T4 A -> B -> T4 A) (n1 n2 n3 n4 : nat)
    (t : T4 A) (ws : list B) :
  (∀ t w, shape4 n1 n2 n3 n4 t -> shape4 n1 n2 n3 n4 (g t w)) ->
  shape4 n1 n2 n3 n4 t -> shape4 n1 n2 n3 n4 (foldl g t ws).
Proof.
  intros Hg. revert t. induction ws as [|w ws IH]; intros t Ht; simpl; [done|].
  apply IH. by apply Hg.
Qed.

Lemma shape4_put {A} (n1 n2 n3 n4 : nat) (t : T4 A) (ws : list (idx4 * A)) :
  shape4 n1 n2 n3 n4 t ->
  shape4 n1 n2 n3 n4 (foldl (fun t '(ix, v) => set4 t ix v) t ws).
Proof. apply shape4_foldl. intros t' [ix v]. apply shape4_alter4. Qed.

Lemma shape4_fill {A} (n1 n2 n3 n4 : nat) (t : T4 A) (v : A) (ixs : list idx4) :
  shape4 n1 n2 n3 n4 t ->
  shape4 n1 n2 n3 n4 (foldl (fun t ix => set4 t ix v) t ixs).
Proof. apply shape4_foldl. intros t' ix. apply shape4_alter4. Qed.

Section TargetShapes.
Variable log : float -> float.
Variable rotated_iou : anchor -> float -> float -> float -> float -> float.

(** X6: every tensor [build_targets] returns has the shape [(nB, nA, nG, nG)]
    taken from [pred_cls.size()], and every class row of [tcls] has [nC]
    entries, whatever the boxes written. *)
Theorem targets_shape (self : YoloLayer) (nB nA nG nG' nC : nat)
    (target : T2 float) (anchors : list anchor) (out : Targets) :
  build_targets log rotated_iou self (nB, nA, nG, nG', nC) target anchors = Ok out ->
  shape4 nB nA nG nG (obj_mask out) ∧ shape4 nB nA nG nG (noobj_mask out) ∧
  shape4 nB nA nG nG (tx out) ∧ shape4 nB nA nG nG (ty out) ∧
  shape4 nB nA nG nG (tw out) ∧ shape4 nB nA nG nG (th out) ∧
  shape4 nB nA nG nG (tim out) ∧ shape4 nB nA nG nG (tre out) ∧
  shape4 nB nA nG nG (tconf out) ∧ shape4 nB nA nG nG (tcls out) ∧
  ∀ ix row, get4 (tcls out) ix = Some row -> length row = nC.
Proof.
  intros Hbt. destruct (decide (target = [])) as [->|Hne].
  - injection Hbt as <-. cbn [obj_mask noobj_mask tx ty tw th tim tre tconf tcls].
    split_and!; try apply shape4_full4.
    + apply shape4_map4, shape4_full4.
    + intros [[[b a] j] i] row. rewrite get4_full4. case_decide; [|done].
      intros [= <-]. by rewrite length_replicate.
  - apply build_targets_inv in Hbt
      as (boxes & ixs & igs & cs & _ & _ & _ & _ & _ & _ & ->); [|done].
    unfold written_targets.
    cbn [obj_mask noobj_mask tx ty tw th tim tre tconf tcls].
    split_and!;
      try (apply shape4_put, shape4_full4);
      try (repeat apply shape4_fill; apply shape4_full4).
    + apply shape4_map4, shape4_fill, shape4_full4.
    + apply shape4_foldl; [|apply shape4_full4]. intros t' [ix k].
      apply shape4_alter4.
    + intros ix row. rewrite get4_put5. destruct ix as [[[b a] j] i].
      rewrite get4_full4. case_decide; [|done]. simpl. intros [= <-].
      by rewrite length_foldl_insert, length_replicate.
Qed.
End TargetShapes.

(** ** When [build_targets] returns *)

Section Returns.
Variable log : float -> float.
Variable rotated_iou : anchor -> float -> float -> float -> float -> float.

Lemma polygon_rows_Ok (anc : anchor) (nG : nat) (target : T2 float)
    (boxes : list Box) :
  Forall2 (fun row bx => read_box nG row = Some bx) target boxes ->
  rotated_box_wh_iou_polygon rotated_iou anc
    ((fmap (M := list) (fun v => F32.mul v (F32.of_nat nG))) <$>
       slice_cols 2 4 (slice_cols 2 8 target))
    (cols_from 4 (slice_cols 2 8 target)) =
  Ok ((fun bx => rotated_iou anc (box_gw bx) (box_gh bx) (box_im bx) (box_re bx))
        <$> boxes).
Proof.
  unfold rotated_box_wh_iou_polygon, slice_cols, cols_from.
  induction 1 as [|row bx target boxes Hr _ IH]; csimpl; [done|].
  destruct row as [|v0 [|v1 [|v2 [|v3 [|v4 [|v5 [|v6 [|v7 rest]]]]]]]];
    try done.
  injection Hr as <-. simpl. simpl in IH. by rewrite IH.
Qed.

Lemma ignore_loop_Ok (thresh : float) (nB nA nG : nat) (anchors : list anchor)
    (boxes : list Box) (ixs : list idx4) (m0 : T4 bool) :
  length anchors = nA ->
  Forall2 (fun bx ix => box_slot rotated_iou nB nA nG anchors bx = Ok ix) boxes ixs ->
  is_Ok (foldl (fun acc '(bi, anchor_ious, gji, gii) =>
           m ← acc;
           mask_fill nB nA nG nG m bi
             ((fun v => F32.gtb v thresh) <$> anchor_ious) gji gii false)
    (Ok m0)
    (zip (zip (zip (box_b <$> boxes) (box_ious rotated_iou anchors <$> boxes))
            ((fun bx => F32.to_long (box_gy bx)) <$> boxes))
       ((fun bx => F32.to_long (box_gx bx)) <$> boxes))) = true.
Proof.
  intros Hlen Hall. rewrite !zip_fmap. revert m0.
  induction Hall as [|bx ix boxes ixs Hbx _ IH]; intros m0; csimpl; [done|].
  apply box_slot_inv in Hbx as (b & j & i & _ & Hb & Hj & Hi & _).
  unfold mask_fill at 2. rewrite Hb. simpl.
  unfold box_ious at 1. rewrite !length_fmap, Hlen, Nat.eqb_refl. simpl.
  rewrite Hj. simpl. rewrite Hi. simpl. apply IH.
Qed.

Lemma build_targets_returns (self : YoloLayer) (nB nA nG nG' nC : nat)
    (target : T2 float) (anchors : list anchor) (boxes : list Box)
    (ixs : list idx4) (cs : list nat) :
  target ≠ [] -> anchors ≠ [] -> length anchors = nA ->
  Forall2 (fun row bx => read_box nG row = Some bx) target boxes ->
  Forall2 (fun bx ix => box_slot rotated_iou nB nA nG anchors bx = Ok ix) boxes ixs ->
  Forall2 (fun bx c => norm_index nC (box_label bx) = Ok c) boxes cs ->
  is_Ok (build_targets log rotated_iou self (nB, nA, nG, nG', nC) target anchors)
    = true.
Proof.
  intros Hne Hane Hlen Hboxes Hixs Hcs. unfold build_targets.
  assert ((0 <? length target) = true) as ->.
  { apply Nat.ltb_lt. destruct target; [done|simpl; lia]. }
  rewrite (traverse_ext _ (fun anc => Ok ((fun bx =>
             rotated_iou anc (box_gw bx) (box_gh bx) (box_im bx) (box_re bx))
             <$> boxes)))
    by (intros anc _; by apply polygon_rows_Ok).
  rewrite traverse_total. simpl.
  destruct anchors as [|a0 anchors'] eqn:Hanc; [done|]. rewrite <- Hanc in *.
  assert (Hst : stack ((fun anc => (fun bx =>
             rotated_iou anc (box_gw bx) (box_gh bx) (box_im bx) (box_re bx))
             <$> boxes) <$> anchors) = Ok ((fun anc => (fun bx =>
             rotated_iou anc (box_gw bx) (box_gh bx) (box_im bx) (box_re bx))
             <$> boxes) <$> anchors)).
  { rewrite Hanc. done. }
  rewrite Hst. simpl.
  rewrite transpose_table by done.
  destruct (columns nG target boxes Hne Hboxes) as (-> & -> & -> & -> & ->).
  simpl.
  change (fmap (M := list) (fun bx : Box =>
             fmap (M := list) (fun a => rotated_iou a (box_gw bx) (box_gh bx)
               (box_im bx) (box_re bx)) anchors) boxes)
    with (box_ious rotated_iou anchors <$> boxes).
  unfold index_fill, index_put, index_fill5.
  rewrite index_tuples_boxes.
  rewrite (proj2 (traverse_Ok _ _ _) Hixs). simpl.
  pose proof (ignore_loop_Ok (ignore_thresh self) nB nA nG anchors boxes ixs
    (foldl (fun t ix => set4 t ix false) (full4 nB nA nG nG true) ixs) Hlen Hixs)
    as Hloop.
  match goal with |- context [foldl ?f (Ok ?m0) ?l] =>
    destruct (foldl f (Ok m0) l) as [noobj|] end; [|done].
  simpl. rewrite gather_best by done. simpl.
  rewrite traverse_fmap. rewrite (proj2 (traverse_Ok _ _ _) Hcs). done.
Qed.

(** X7: [build_targets] on at least one row returns exactly when the anchor
    tensor has [nA] rows and at least one, every row has eight fields or
    more, and every box addresses a slot and a class inside the tensors
    (image index in [-nB, nB), cell in [-nG, nG), class in [-nC, nC));
    in every other case it raises. *)
Theorem build_targets_returns_iff (self : YoloLayer) (nB nA nG nG' nC : nat)
    (target : T2 float) (anchors : list anchor) :
  target ≠ [] ->
  is_Ok (build_targets log rotated_iou self (nB, nA, nG, nG', nC) target anchors)
    = true <->
  anchors ≠ [] ∧ length anchors = nA ∧
  Forall (fun row =>
    8 ≤ length row ∧
    ∃ bx, read_box nG row = Some bx ∧
      is_Ok (norm_index nB (box_b bx)) = true ∧
      is_Ok (norm_index nG (F32.to_long (box_gy bx))) = true ∧
      is_Ok (norm_index nG (F32.to_long (box_gx bx))) = true ∧
      is_Ok (norm_index nC (box_label bx)) = true) target.
Proof.
  intros Hne. split.
  - destruct (build_targets _ _ _ _ _ _) as [out|e] eqn:Hbt; [|done]. intros _.
    apply build_targets_inv in Hbt
      as (boxes & ixs & igs & cs & Hboxes & Hixs & _ & Hcs & Hane & Hlen & _);
      [|done].
    split; [done|]. split; [done|].
    apply Forall_lookup. intros k row Hrow.
    destruct (Forall2_lookup_l _ _ _ _ _ Hboxes Hrow) as (bx & Hbx & Hread).
    destruct (Forall2_lookup_l _ _ _ _ _ Hixs Hbx) as (ix & _ & Hslot).
    destruct (Forall2_lookup_l _ _ _ _ _ Hcs Hbx) as (c & _ & Hc).
    apply box_slot_inv in Hslot as (b & j & i & _ & Hb & Hj & Hi & _).
    split.
    + destruct row as [|? [|? [|? [|? [|? [|? [|? [|? ?]]]]]]]]; try done.
      simpl. lia.
    + exists bx. by rewrite Hb, Hj, Hi, Hc.
  - intros (Hane & Hlen & Hall).
    assert (Hrows : ∀ row, row ∈ target -> ∃ bx ix c,
              read_box nG row = Some bx ∧
              box_slot rotated_iou nB nA nG anchors bx = Ok ix ∧
              norm_index nC (box_label bx) = Ok c).
    { intros row Hin. rewrite Forall_forall in Hall.
      destruct (Hall row Hin) as (_ & bx & Hread & Hb & Hj & Hi & Hc).
      exists bx. unfold box_slot.
      destruct (norm_index nB (box_b bx)) as [b|]; [|done].
      destruct (norm_index nG (F32.to_long (box_gy bx))) as [j|]; [|done].
      destruct (norm_index nG (F32.to_long (box_gx bx))) as [i|]; [|done].
      destruct (norm_index nC (box_label bx)) as [c|]; [|done].
      assert (Hbest : best_anchor rotated_iou anchors bx < nA).
      { unfold best_anchor. rewrite <- Hlen.
        rewrite <- (length_fmap (fun anc => rotated_iou anc (box_gw bx) (box_gh bx)
                                   (box_im bx) (box_re bx)) anchors).
        apply argmax_lt. unfold box_ious. by destruct anchors. }
      simpl. unfold norm_index at 1.
      assert (((0 <=? Z.of_nat (best_anchor rotated_iou anchors bx)) &&
               (Z.of_nat (best_anchor rotated_iou anchors bx) <? Z.of_nat nA))%Z = true)
        as -> by (apply andb_true_iff; split; [apply Z.leb_le|apply Z.ltb_lt]; lia).
      simpl. eauto. }
    clear Hall.
    assert (∃ boxes ixs cs,
      Forall2 (fun row bx => read_box nG row = Some bx) target boxes ∧
      Forall2 (fun bx ix => box_slot rotated_iou nB nA nG anchors bx = Ok ix) boxes ixs ∧
      Forall2 (fun bx c => norm_index nC (box_label bx) = Ok c) boxes cs)
      as (boxes & ixs & cs & H1 & H2 & H3).
    { clear Hne. induction target as [|row target IH].
      - exists [], [], []. split_and!; constructor.
      - destruct IH as (boxes & ixs & cs & H1 & H2 & H3).
        { intros r Hr. apply Hrows. by right. }
        destruct (Hrows row) as (bx & ix & c & ? & ? & ?); [by left|].
        exists (bx :: boxes), (ix :: ixs), (c :: cs).
        split_and!; by constructor. }
    by eapply build_targets_returns.
Qed.
End Returns.

(** ** Confidence targets and the number of positives *)

Lemma fmap_join {A B} (f : A -> B) (ls : list (list A)) :
  f <$> mjoin ls = mjoin (fmap (M := list) f <$> ls).
Proof. induction ls as [|l ls IH]; csimpl; [done|]. by rewrite fmap_app, IH. Qed.

Lemma flatten4_map4 {A B} (f : A -> B) (t : T4 A) :
  flatten4 (map4 f t) = f <$> flatten4 t.
Proof.
  unfold flatten4, map4. by rewrite !fmap_join.
Qed.

(** Two tensors of one shape, flattened, are related element by element
    as their entries are index by index. *)
Lemma Forall2_flatten4 {A B} (R : A -> B -> Prop) (n1 n2 n3 n4 : nat)
    (t : T4 A) (u : T4 B) :
  shape4 n1 n2 n3 n4 t -> shape4 n1 n2 n3 n4 u ->
  (∀ ix a b, get4 t ix = Some a -> get4 u ix = Some b -> R a b) ->
  Forall2 R (flatten4 t) (flatten4 u).
Proof.
  intros [H1 H] [K1 K] Hget. unfold flatten4.
  do 3 apply Forall2_join.
  apply Forall2_same_length_lookup. split; [congruence|].
  intros b t1 u1 Ht1 Hu1.
  rewrite Forall_lookup in H. destruct (H _ _ Ht1) as [H2 H'].
  rewrite Forall_lookup in K. destruct (K _ _ Hu1) as [K2 K'].
  apply Forall2_same_length_lookup. split; [congruence|].
  intros a t2 u2 Ht2 Hu2.
  rewrite Forall_lookup in H'. destruct (H' _ _ Ht2) as [H3 H''].
  rewrite Forall_lookup in K'. destruct (K' _ _ Hu2) as [K3 K''].
  apply Forall2_same_length_lookup. split; [congruence|].
  intros j t3 u3 Ht3 Hu3.
  rewrite Forall_lookup in H''. specialize (H'' _ _ Ht3).
  rewrite Forall_lookup in K''. specialize (K'' _ _ Hu3). simpl in *.
  apply Forall2_same_length_lookup. split; [congruence|].
  intros i x y Hx Hy. apply (Hget (b, a, j, i)); unfold get4.
  - rewrite Ht1. simpl. rewrite Ht2. simpl. by rewrite Ht3.
  - rewrite Hu1. simpl. rewrite Hu2. simpl. by rewrite Hu3.
Qed.

Lemma masked_select_Forall {A} (P : A -> Prop) (l : list A) (mask : list bool) :
  Forall2 (fun x (m : bool) => m = true -> P x) l mask ->
  Forall P (fst <$> filter (fun p : A * bool => p.2 = true) (zip l mask)).
Proof.
  induction 1 as [|x m l mask Hx _ IH]; [constructor|].
  simpl. rewrite filter_cons. simpl. case_decide; [|done].
  csimpl. constructor; [by apply Hx|done].
Qed.

Lemma count_true_app (l k : list bool) :
  count_true (l ++ k) = count_true l + count_true k.
Proof. unfold count_true. by rewrite filter_app, length_app. Qed.

(** An update of one element of a nested list adds at most one selected
    element when it adds at most one inside the element. *)
Lemma count_true_alter_flat {A} (fl : list A -> list bool) (fa : A -> list bool)
    (g : A -> A) (l : list A) (i : nat) :
  (∀ x l, fl (x :: l) = fa x ++ fl l) ->
  (∀ x, count_true (fa (g x)) ≤ count_true (fa x) + 1) ->
  count_true (fl (alter g i l)) ≤ count_true (fl l) + 1.
Proof.
  intros Hfl Hg. revert i. induction l as [|x l IH]; intros [|i].
  - simpl. lia.
  - simpl. lia.
  - change (alter g 0 (x :: l)) with (g x :: l).
    rewrite !Hfl, !count_true_app. specialize (Hg x). lia.
  - change (alter g (S i) (x :: l)) with (x :: alter g i l).
    rewrite !Hfl, !count_true_app. specialize (IH i). lia.
Qed.

Lemma count_true_set4 (t : T4 bool) (ix : idx4) (v : bool) :
  count_true (flatten4 (set4 t ix v)) ≤ count_true (flatten4 t) + 1.
Proof.
  destruct ix as [[[b a] j] i]. unfold set4, alter4.
  apply (count_true_alter_flat flatten4 (fun t1 => mjoin (mjoin t1))).
  { intros t1 t'. unfold flatten4. csimpl. by rewrite !join_app. }
  intros t1.
  apply (count_true_alter_flat (fun t1 => mjoin (mjoin t1)) mjoin).
  { intros t2 t'. csimpl. by rewrite !join_app. }
  intros t2.
  apply (count_true_alter_flat mjoin id).
  { intros t3 t'. done. }
  intros t3. unfold id.
  apply (count_true_alter_flat id (fun m : bool => [m])).
  { intros m t'. done. }
  intros m. unfold count_true. rewrite !filter_cons. simpl.
  repeat case_decide; simpl; lia.
Qed.

Lemma count_true_fill (t : T4 bool) (ixs : list idx4) (v : bool) :
  count_true (flatten4 (foldl (fun t ix => set4 t ix v) t ixs)) ≤
  count_true (flatten4 t) + length ixs.
Proof.
  revert t. induction ixs as [|ix ixs IH]; intros t; simpl; [lia|].
  specialize (IH (set4 t ix v)). pose proof (count_true_set4 t ix v). lia.
Qed.

Lemma count_true_full4 (n1 n2 n3 n4 : nat) :
  count_true (flatten4 (full4 n1 n2 n3 n4 false)) = 0.
Proof.
  unfold count_true.
  assert (Forall (fun b => b = false) (flatten4 (full4 n1 n2 n3 n4 false))) as Hall.
  { unfold flatten4, full4. repeat apply Forall_join.
    repeat apply Forall_replicate. done. }
  induction Hall as [|b l -> _ IH]; [done|]. by rewrite filter_cons.
Qed.

Section Confidence.
Variable log : float -> float.
Variable rotated_iou : anchor -> float -> float -> float -> float -> float.

Lemma masks_pointwise (self : YoloLayer) (nB nA nG nG' nC : nat)
    (target : T2 float) (anchors : list anchor) (out : Targets) (ix : idx4) :
  build_targets log rotated_iou self (nB, nA, nG, nG', nC) target anchors = Ok out ->
  tconf out = mask_float (obj_mask out) ∧
  (get4 (noobj_mask out) ix = Some true -> get4 (obj_mask out) ix = Some false).
Proof.
  intros Hbt. destruct (decide (target = [])) as [->|Hne].
  - injection Hbt as <-. cbn [obj_mask noobj_mask tconf]. split; [done|].
    destruct ix as [[[b a] j] i]. rewrite !get4_full4. by case_decide.
  - apply build_targets_inv in Hbt
      as (boxes & ixs & igs & cs & _ & _ & _ & _ & _ & _ & ->); [|done].
    cbn [obj_mask noobj_mask tconf written_targets]. split; [done|].
    rewrite !get4_fill. destruct ix as [[[b a] j] i]. rewrite !get4_full4.
    repeat case_decide; simplify_eq/=; done.
Qed.

(** X8: the confidence targets of the loss: [tconf] is 1 at every element
    [obj_mask] selects and 0 at every element [noobj_mask] selects, so
    the no-object term compares [pred_conf] with zeros only; and
    [obj_mask] selects at most as many elements as there are ground-truth
    boxes (fewer when boxes share a slot). *)
Theorem confidence_targets (self : YoloLayer) (nB nA nG nG' nC : nat)
    (target : T2 float) (anchors : list anchor) (out : Targets) :
  build_targets log rotated_iou self (nB, nA, nG, nG', nC) target anchors = Ok out ->
  Forall (fun v => v = F32.one) (masked_select (tconf out) (obj_mask out)) ∧
  Forall (fun v => v = F32.zero) (masked_select (tconf out) (noobj_mask out)) ∧
  length (masked_select (tconf out) (obj_mask out)) ≤ length target.
Proof.
  intros Hbt.
  destruct (masks_pointwise self nB nA nG nG' nC target anchors out (0, 0, 0, 0) Hbt)
    as [Hconf _].
  destruct (targets_shape log rotated_iou self nB nA nG nG' nC target anchors out Hbt)
    as (Sobj & Snoobj & _).
  rewrite Hconf. unfold masked_select, mask_float. rewrite flatten4_map4.
  split_and!.
  - apply masked_select_Forall. apply Forall2_fmap_l, Forall_Forall2_diag.
    apply Forall_forall. by intros m _ ->.
  - apply masked_select_Forall. apply Forall2_fmap_l.
    apply (Forall2_flatten4 _ nB nA nG nG); [done..|].
    intros ix o n Ho Hn ->.
    destruct (masks_pointwise self nB nA nG nG' nC target anchors out ix Hbt)
      as [_ Hpt].
    rewrite (Hpt Hn) in Ho. by injection Ho as <-.
  - rewrite length_fmap.
    assert (Hcount : ∀ (l : list bool),
      length (filter (fun p : float * bool => p.2 = true)
                (zip ((fun b : bool => if b then F32.one else F32.zero) <$> l) l))
      = count_true l).
    { intros l. unfold count_true. induction l as [|m l IH]; [done|].
      csimpl. rewrite !filter_cons. simpl. case_decide; simpl; by rewrite IH. }
    rewrite Hcount. destruct (decide (target = [])) as [->|Hne].
    + injection Hbt as <-. cbn [obj_mask]. by rewrite count_true_full4.
    + apply build_targets_inv in Hbt
        as (boxes & ixs & igs & cs & Hboxes & Hixs & _ & _ & _ & _ & ->); [|done].
      cbn [obj_mask written_targets].
      pose proof (count_true_fill (full4 nB nA nG nG false) ixs true) as Hle.
      rewrite count_true_full4 in Hle.
      apply Forall2_length in Hboxes, Hixs. lia.
Qed.
End Confidence.

(** ** The further properties on the sample head *)

Lemma boxes_independent_of_targets_sample :
  ∃ output l,
    (forward Sample.exp Sample.log Sample.sigmoid Sample.iou Sample.input
       (Some [Sample.row_a; Sample.row_b]) 4 Sample.layer).2 = Ok (output, l) ∧
    (forward Sample.exp Sample.log Sample.sigmoid Sample.iou Sample.input
       None 4 Sample.layer).2 = Ok (output, LossInt 0).
Proof.
  eexists _, _. split; [vm_compute; reflexivity|].
  eapply (boxes_independent_of_targets Sample.exp Sample.log Sample.sigmoid Sample.iou
            Sample.input [Sample.row_a; Sample.row_b] 4 Sample.layer).
  vm_compute. reflexivity.
Defined.



Lemma targets_shape_sample :
  ∃ out,
    build_targets Sample.log Sample.iou Sample.layer (1, 2, 2, 2, 2)
      [Sample.row_a; Sample.row_b] Sample.scaled = Ok out ∧
    shape4 1 2 2 2 (obj_mask out) ∧ shape4 1 2 2 2 (noobj_mask out) ∧
    shape4 1 2 2 2 (tx out) ∧ shape4 1 2 2 2 (tcls out).
Proof.
  eexists. split; [vm_compute; reflexivity|].
  destruct (targets_shape Sample.log Sample.iou Sample.layer 1 2 2 2 2
              [Sample.row_a; Sample.row_b] Sample.scaled _
              ltac:(vm_compute; reflexivity))
    as (H1 & H2 & H3 & _ & _ & _ & _ & _ & _ & H4 & _).
  split; [exact H1|]. split; [exact H2|]. split; [exact H3|exact H4].
Defined.

Lemma build_targets_returns_iff_sample :
  [Sample.row_a; Sample.row_b] ≠ [] ∧
  is_Ok (build_targets Sample.log Sample.iou Sample.layer (1, 2, 2, 2, 2)
           [Sample.row_a; Sample.row_b] Sample.scaled) = true ∧
  Forall (fun row => 8 ≤ length row) [Sample.row_a; Sample.row_b].
Proof.
  split; [discriminate|]. split; [vm_compute; reflexivity|].
  destruct (proj1 (build_targets_returns_iff Sample.log Sample.iou Sample.layer
                     1 2 2 2 2 [Sample.row_a; Sample.row_b] Sample.scaled
                     ltac:(discriminate)) ltac:(vm_compute; reflexivity))
    as (_ & _ & Hall).
  eapply Forall_impl; [exact Hall|]. intros row [Hlen _]. exact Hlen.
Defined.

Lemma confidence_targets_sample :
  ∃ out,
    build_targets Sample.log Sample.iou Sample.layer (1, 2, 2, 2, 2)
      [Sample.row_a; Sample.row_b] Sample.scaled = Ok out ∧
    masked_select (tconf out) (obj_mask out) = [F32.one] ∧
    Forall (fun v => v = F32.zero) (masked_select (tconf out) (noobj_mask out)) ∧
    length (masked_select (tconf out) (obj_mask out)) ≤ 2.
Proof.
  eexists. split; [vm_compute; reflexivity|]. split; [vm_compute; reflexivity|].
  destruct (confidence_targets Sample.log Sample.iou Sample.layer 1 2 2 2 2
              [Sample.row_a; Sample.row_b] Sample.scaled _
              ltac:(vm_compute; reflexivity))
    as (_ & H0 & Hle).
  split; [exact H0|exact Hle].
Defined.

(** * Further edge cases *)



(** ** Negative indices *)

Lemma norm_index_wrap (n : nat) (z : Z) (k : nat) :
  norm_index n z = Ok k ->
  (- Z.of_nat n <= z < Z.of_nat n)%Z ∧
  ((0 <= z)%Z -> Z.of_nat k = z) ∧
  ((z < 0)%Z -> Z.of_nat k = (Z.of_nat n + z)%Z).
Proof. unfold norm_index. repeat case_match; intros [= <-]; lia. Qed.

Section Wrap.
Variable log : float -> float.
Variable rotated_iou : anchor -> float -> float -> float -> float -> float.

(** X10: [build_targets] does not reject negative indices, it counts
    them from the end as tensor indexing does: a row with image index
    [-1] marks a slot of the last image of the batch, a class label
    [-1] sets the last class, and a cell coordinate that converts to
    [-1] addresses the last row or column of the grid. *)
Theorem negative_indices_wrap (self : YoloLayer) (nB nA nG nG' nC : nat)
    (target : T2 float) (anchors : list anchor) (out : Targets)
    (k : nat) (row : list float) :
  build_targets log rotated_iou self (nB, nA, nG, nG', nC) target anchors = Ok out ->
  target !! k = Some row ->
  ∃ bx b j i c v,
    read_box nG row = Some bx ∧
    get4 (obj_mask out) (b, best_anchor rotated_iou anchors bx, j, i) = Some true ∧
    get4 (tcls out) (b, best_anchor rotated_iou anchors bx, j, i) = Some v ∧
    v !! c = Some F32.one ∧
    ((box_b bx < 0)%Z -> Z.of_nat b = (Z.of_nat nB + box_b bx)%Z) ∧
    ((box_label bx < 0)%Z -> Z.of_nat c = (Z.of_nat nC + box_label bx)%Z) ∧
    ((F32.to_long (box_gy bx) < 0)%Z ->
       Z.of_nat j = (Z.of_nat nG + F32.to_long (box_gy bx))%Z) ∧
    ((F32.to_long (box_gx bx) < 0)%Z ->
       Z.of_nat i = (Z.of_nat nG + F32.to_long (box_gx bx))%Z).
Proof.
  intros Hbt Hrow.
  assert (Hne : target ≠ []) by (intros ->; done).
  apply build_targets_inv in Hbt
    as (boxes & ixs & igs & cs & Hboxes & Hixs & _ & Hcs & Hane & Hlen & ->);
    [|done].
  destruct (Forall2_lookup_l _ _ _ _ _ Hboxes Hrow) as (bx & Hbx & Hread).
  destruct (Forall2_lookup_l _ _ _ _ _ Hixs Hbx) as (ix & Hix & Hslot).
  destruct (Forall2_lookup_l _ _ _ _ _ Hcs Hbx) as (c & Hc & Hlabel).
  apply box_slot_inv in Hslot as (b & j & i & -> & Hb & Hj & Hi & ? & ? & ? & ?).
  pose proof (norm_index_lt _ _ _ Hlabel) as Hc_lt.
  apply norm_index_wrap in Hb as (_ & _ & Hb).
  apply norm_index_wrap in Hj as (_ & _ & Hj).
  apply norm_index_wrap in Hi as (_ & _ & Hi).
  apply norm_index_wrap in Hlabel as (_ & _ & Hlabel).
  eexists bx, b, j, i, c, _. cbn [obj_mask tcls written_targets].
  split; [done|]. split.
  { rewrite get4_fill_full by done. rewrite decide_True; [done|].
    by eapply list_elem_of_lookup_2. }
  split.
  { rewrite get4_put5, get4_full4, decide_True by done. reflexivity. }
  split.
  { rewrite lookup_foldl_insert, decide_True.
    - by rewrite lookup_replicate_2.
    - apply elem_of_classes_at. by exists k. }
  done.
Qed.
End Wrap.

Lemma negative_indices_wrap_sample :
  ∃ out,
    build_targets Sample.log Sample.iou Sample.layer (1, 2, 2, 2, 2)
      [Sample.row_neg] Sample.scaled = Ok out ∧
    [Sample.row_neg] !! 0 = Some Sample.row_neg ∧
    ∃ bx b j i c v,
      read_box 2 Sample.row_neg = Some bx ∧
      box_b bx = (-1)%Z ∧ box_label bx = (-1)%Z ∧
      get4 (obj_mask out) (b, best_anchor Sample.iou Sample.scaled bx, j, i)
        = Some true ∧
      get4 (tcls out) (b, best_anchor Sample.iou Sample.scaled bx, j, i) = Some v ∧
      v !! c = Some F32.one ∧ b = 0 ∧ c = 1.
Proof.
  eexists. split; [vm_compute; reflexivity|]. split; [reflexivity|].
  destruct (negative_indices_wrap Sample.log Sample.iou Sample.layer 1 2 2 2 2
              [Sample.row_neg] Sample.scaled _ 0 Sample.row_neg
              ltac:(vm_compute; reflexivity) eq_refl)
    as (bx & b & j & i & c & v & Hread & Hobj & Hcls & Hv & Hb & Hc & _).
  exists bx, b, j, i, c, v.
  split; [exact Hread|].
  vm_compute in Hread. injection Hread as <-.
  split; [reflexivity|]. split; [reflexivity|].
  split; [exact Hobj|]. split; [exact Hcls|]. split; [exact Hv|].
  split.
  - assert (Z.of_nat b = (Z.of_nat 1 + -1)%Z) by (apply Hb; reflexivity). lia.
  - assert (Z.of_nat c = (Z.of_nat 2 + -1)%Z) by (apply Hc; reflexivity). lia.
Defined.

(** * Where the no-object mask is cleared *)

Section NoObject.
Variable log : float -> float.
Variable rotated_iou : anchor -> float -> float -> float -> float -> float.

(** X11: [noobj_mask] is cleared by boxes only: a false entry at
    [(b, a, j, i)] is in the image and cell of some ground-truth box,
    and [a] is that box's best anchor or an anchor whose IoU with the
    box exceeds [ignore_thresh]; every other entry keeps its initial
    value true. *)
Theorem noobj_cleared_only_by_boxes (self : YoloLayer) (nB nA nG nG' nC : nat)
    (target : T2 float) (anchors : list anchor) (out : Targets) (b a j i : nat) :
  build_targets log rotated_iou self (nB, nA, nG, nG', nC) target anchors = Ok out ->
  get4 (noobj_mask out) (b, a, j, i) = Some false ->
  ∃ k row bx,
    target !! k = Some row ∧ read_box nG row = Some bx ∧
    norm_index nB (box_b bx) = Ok b ∧
    norm_index nG (F32.to_long (box_gy bx)) = Ok j ∧
    norm_index nG (F32.to_long (box_gx bx)) = Ok i ∧
    (a = best_anchor rotated_iou anchors bx ∨
     ∃ anc, anchors !! a = Some anc ∧
       F32.gtb (rotated_iou anc (box_gw bx) (box_gh bx) (box_im bx) (box_re bx))
         (ignore_thresh self) = true).
Proof.
  intros Hbt Hget. destruct (decide (target = [])) as [->|Hne].
  { injection Hbt as <-. cbn [noobj_mask] in Hget. rewrite get4_full4 in Hget.
    by case_decide. }
  apply build_targets_inv in Hbt
    as (boxes & ixs & igs & cs & Hboxes & Hixs & Higs & _ & _ & _ & ->); [|done].
  cbn [noobj_mask written_targets] in Hget. rewrite get4_fill in Hget.
  destruct (decide ((b, a, j, i) ∈ mjoin igs)) as [Hin|Hin].
  - clear Hget. apply list_elem_of_join in Hin as (ig & Hig & Higin).
    apply list_elem_of_lookup in Higin as [k Hk].
    destruct (Forall2_lookup_r _ _ _ _ _ Higs Hk) as (bx & Hbx & Hign).
    destruct (Forall2_lookup_r _ _ _ _ _ Hboxes Hbx) as (row & Hrow & Hread).
    exists k, row, bx. unfold box_ignored in Hign.
    destruct (norm_index nB (box_b bx)) as [b'|]; [|done]. simpl in Hign.
    destruct (norm_index nG (F32.to_long (box_gy bx))) as [j'|]; [|done].
    simpl in Hign.
    destruct (norm_index nG (F32.to_long (box_gx bx))) as [i'|]; [|done].
    simpl in Hign. injection Hign as <-.
    apply list_elem_of_fmap in Hig as (a' & [= -> -> -> ->] & Ha').
    split_and!; try done. right.
    apply elem_of_mask_indices in Ha'. unfold box_ious in Ha'.
    rewrite !list_lookup_fmap in Ha'.
    destruct (anchors !! a') as [anc|]; [|done]. simpl in Ha'.
    exists anc. split; [done|]. by injection Ha'.
  - rewrite get4_fill in Hget.
    destruct (decide ((b, a, j, i) ∈ ixs)) as [Hix|Hix].
    + clear Hget. apply list_elem_of_lookup in Hix as [k Hk].
      destruct (Forall2_lookup_r _ _ _ _ _ Hixs Hk) as (bx & Hbx & Hslot).
      destruct (Forall2_lookup_r _ _ _ _ _ Hboxes Hbx) as (row & Hrow & Hread).
      apply box_slot_inv in Hslot
        as (b' & j' & i' & [= -> -> -> ->] & Hb & Hj & Hi & _).
      exists k, row, bx. split_and!; try done. by left.
    + rewrite get4_full4 in Hget. by case_decide.
Qed.
End NoObject.

Lemma noobj_cleared_only_by_boxes_sample :
  ∃ out,
    build_targets Sample.log Sample.iou Sample.layer (1, 2, 2, 2, 2)
      [Sample.row_a; Sample.row_b] Sample.scaled = Ok out ∧
    get4 (noobj_mask out) (0, 1, 1, 1) = Some false ∧
    ∃ k row bx,
      [Sample.row_a; Sample.row_b] !! k = Some row ∧
      read_box 2 row = Some bx ∧
      norm_index 2 (F32.to_long (box_gy bx)) = Ok 1 ∧
      norm_index 2 (F32.to_long (box_gx bx)) = Ok 1.
Proof.
  eexists. split; [vm_compute; reflexivity|]. split; [vm_compute; reflexivity|].
  destruct (noobj_cleared_only_by_boxes Sample.log Sample.iou Sample.layer 1 2 2 2 2
              [Sample.row_a; Sample.row_b] Sample.scaled _ 0 1 1 1
              ltac:(vm_compute; reflexivity) ltac:(vm_compute; reflexivity))
    as (k & row & bx & Hrow & Hread & _ & Hj & Hi & _).
  exists k, row, bx. split; [exact Hrow|]. split; [exact Hread|].
  split; [exact Hj|exact Hi].
Defined.

(** * The image size on a cached grid *)

Section StaleStride.
Variable exp : float -> float.
Variable log : float -> float.
Variable sigmoid : float -> float.
Variable rotated_iou : anchor -> float -> float -> float -> float -> float.

Local Abbreviation forward := (forward exp log sigmoid rotated_iou).

End StaleStride.

